(** * QR keychain generator: a shallow embedding of [main.py]

    The program builds OpenSCAD solids through the [solid2] combinators,
    packs one tag per index onto build plates and saves one pair of
    meshes per plate.

    Modelling conventions.
    - Python [int] is [Z]; [//] and [%] are [Z.div] and [Z.modulo]
      (both round towards minus infinity, as in Python) and raise
      [ZeroDivisionError] on a zero divisor.
    - An [Args] field of type [float] is the rational the user wrote
      (a decimal); [py_float] is the binary64 value Python reads from
      it, a decimal beyond the range giving infinity.  The text [nan]
      is not a decimal: a NaN argument is outside the model (NaN as
      the result of an operation is inside).
    - The float arithmetic that decides an integer or an exception
      (the counts per row and column, the width of the QR code) is
      binary64 arithmetic ([pyfloat]): every operation rounds to the
      nearest value, ties to even, overflows to infinity, and [int]
      and [math.floor] raise [OverflowError] on an infinity and
      [ValueError] on a NaN.  Zeros are not signed; the program cannot
      tell them apart.
    - The coordinates and sizes handed to [solid2] are idealised as
      exact rationals ([Q]): the geometry is the one the program aims
      at, which the real meshes match up to floating-point tolerance.
    - A [solid2] object is the tree of the operations that built it
      ([solid]); its geometric meaning is the set of rational points
      [denote] assigns to it, with ideal (round) cylinders.
    - The QR encoder and the glyph outlines of the text primitive are
      external: they are parameters of the sections below.
    - File system and exporter calls are recorded, in order, in a trace
      of [event]s.  The external calls (file system, exporter, encoder)
      are taken to return: [exn] lists the exceptions the program's own
      arithmetic raises. *)

From Stdlib Require Import ZArith QArith Qround Qminmax Qreduction List String Bool Lia Lqa.
From Stdlib Require Import Ascii DecimalString DecimalPos DecimalZ.
Import ListNotations.

Local Open Scope string_scope.
Local Open Scope list_scope.
Local Open Scope Q_scope.

(** ** Python arithmetic *)

Inductive exn : Type :=
| ZeroDivisionError
| ValueError
| OverflowError.

Inductive result (A : Type) : Type :=
| Ok (a : A)
| Raise (e : exn).

Arguments Ok {A} a.
Arguments Raise {A} e.

Definition result_bind {A B : Type} (r : result A) (k : A -> result B) : result B :=
  match r with
  | Ok a => k a
  | Raise e => Raise e
  end.

(** [a % b] on integers. *)
Definition py_mod (a b : Z) : result Z :=
  if (b =? 0)%Z then Raise ZeroDivisionError else Ok (a mod b)%Z.

(** [a // b] on integers. *)
Definition py_floordiv (a b : Z) : result Z :=
  if (b =? 0)%Z then Raise ZeroDivisionError else Ok (a / b)%Z.

(** [a / b], true division, on idealised coordinates. *)
Definition py_truediv (a b : Q) : result Q :=
  if Qeq_bool b 0 then Raise ZeroDivisionError else Ok (a / b).

(** ** Python floats *)

(** A binary64 value. *)
Inductive pyfloat : Type :=
| Finite (q : Q)
| Infinity (negative : bool)
| NaN.

(** [2 ^ e] for [e >= 0], and 1 below. *)
Definition pow2 (e : Z) : Z := (2 ^ Z.max 0 e)%Z.

(** [floor(log2(n / d))]. *)
Definition floor_log2 (n d : positive) : Z :=
  let e := (Z.log2 (Zpos n) - Z.log2 (Zpos d))%Z in
  if (Zpos d * pow2 e <=? Zpos n * pow2 (- e))%Z then e else (e - 1)%Z.

(** [n / d] rounded to the nearest integer, ties to even ([d > 0]). *)
Definition round_half_even (n d : Z) : Z :=
  let q := (n / d)%Z in
  match (2 * (n mod d) ?= d)%Z with
  | Lt => q
  | Gt => (q + 1)%Z
  | Eq => if Z.even q then q else (q + 1)%Z
  end.

(** The binary64 value nearest to [n / d]: a multiple [m * 2 ^ e] of the
    unit in the last place, which is [2 ^ e] with 53 significant bits
    and [e >= -1074]; infinity once the rounded value reaches
    [2 ^ 1024]. *)
Definition round64_magnitude (n d : positive) : pyfloat :=
  let e := Z.max (floor_log2 n d - 52) (-1074) in
  let m := round_half_even (Zpos n * pow2 (- e)) (Zpos d * pow2 e) in
  if (1024 <=? e + Z.log2 m)%Z then Infinity false
  else Finite (Qred ((m * pow2 e)%Z # Z.to_pos (pow2 (- e)))).

Definition fl_neg (a : pyfloat) : pyfloat :=
  match a with
  | Finite q => Finite (- q)
  | Infinity negative => Infinity (negb negative)
  | NaN => NaN
  end.

(** Rounding to nearest, ties to even. *)
Definition round64 (q : Q) : pyfloat :=
  match Qnum q with
  | Z0 => Finite 0
  | Zpos n => round64_magnitude n (Qden q)
  | Zneg n => fl_neg (round64_magnitude n (Qden q))
  end.

(** [float(s)] for the decimal [s], as argparse and the compiler apply
    it. *)
Definition py_float (q : Q) : pyfloat := round64 q.

(** [a + b] on floats. *)
Definition fl_add (a b : pyfloat) : pyfloat :=
  match a, b with
  | NaN, _ | _, NaN => NaN
  | Infinity s, Infinity t => if Bool.eqb s t then Infinity s else NaN
  | Infinity s, Finite _ => Infinity s
  | Finite _, Infinity t => Infinity t
  | Finite x, Finite y => round64 (x + y)
  end.

(** [a - b] on floats. *)
Definition fl_sub (a b : pyfloat) : pyfloat := fl_add a (fl_neg b).

(** Whether a rational is negative. *)
Definition Qnegative (q : Q) : bool := (Qnum q <? 0)%Z.

(** [a * b] on floats. *)
Definition fl_mul (a b : pyfloat) : pyfloat :=
  match a, b with
  | NaN, _ | _, NaN => NaN
  | Infinity s, Infinity t => Infinity (xorb s t)
  | Infinity s, Finite y => if Qeq_bool y 0 then NaN else Infinity (xorb s (Qnegative y))
  | Finite x, Infinity t => if Qeq_bool x 0 then NaN else Infinity (xorb (Qnegative x) t)
  | Finite x, Finite y => round64 (x * y)
  end.

(** [a / b] on floats: a zero divisor raises, whatever [a]. *)
Definition fl_truediv (a b : pyfloat) : result pyfloat :=
  match b with
  | Finite y =>
      if Qeq_bool y 0 then Raise ZeroDivisionError
      else match a with
           | Finite x => Ok (round64 (x / y))
           | Infinity s => Ok (Infinity (xorb s (Qnegative y)))
           | NaN => Ok NaN
           end
  | Infinity _ =>
      match a with
      | Finite _ => Ok (Finite 0)
      | _ => Ok NaN
      end
  | NaN => Ok NaN
  end.

(** [int(x)] for a float [x]: truncation towards zero. *)
Definition py_int (x : pyfloat) : result Z :=
  match x with
  | Finite q => Ok (Z.quot (Qnum q) (Zpos (Qden q)))
  | Infinity _ => Raise OverflowError
  | NaN => Raise ValueError
  end.

(** [math.floor(x)]. *)
Definition py_floor (x : pyfloat) : result Z :=
  match x with
  | Finite q => Ok (Qfloor q)
  | Infinity _ => Raise OverflowError
  | NaN => Raise ValueError
  end.

(** [str(i)], as used by the f-strings. *)
Definition py_str (i : Z) : string := NilZero.string_of_int (Z.to_int i).

(** [range(a, b)]. *)
Definition py_range (a b : Z) : list Z :=
  map (fun k => (a + Z.of_nat k)%Z) (seq 0 (Z.to_nat (b - a))).

(** ** solid2 objects *)

(** The operations of [solid2] the program uses.  [union_nil] is
    [union()], [add a b] is [a + b] and [sub a b] is [a - b]. *)
Inductive solid : Type :=
| cube (x y z : Q)
| cylinder (r h : Q)
| text (data : string) (size : Q) (halign valign font : string)
| linear_extrude (height : Q) (child : solid)
| translate (dx dy dz : Q) (child : solid)
| mirrorX (child : solid)
| union_nil
| add (a b : solid)
| sub (a b : solid)
| hull (a b : solid)
| color (c : string) (child : solid).

Definition right (x : Q) (s : solid) : solid := translate x 0 0 s.
Definition left (x : Q) (s : solid) : solid := translate (- x) 0 0 s.
Definition forward (y : Q) (s : solid) : solid := translate 0 y 0 s.
Definition back (y : Q) (s : solid) : solid := translate 0 (- y) 0 s.
Definition up (z : Q) (s : solid) : solid := translate 0 0 z s.

(** ** Command-line arguments *)

Record Args : Type := mkArgs {
  start_index : Z;
  end_index : Z;
  output_dir : string;
  token_width : Q;
  token_height : Q;
  token_depth : Q;
  token_corner_radius : Q;
  token_fillet_radius : Q;
  qr_border : Q;
  colored_print_depth : Q;
  text_font : string;
  text_size : Q;
  text_border : Q;
  hole_radius : Q;
  hole_offset : Q;
  build_plate_width : Q;
  build_plate_height : Q;
  build_plate_spacing : Q
}.

Definition default_args : Args := {|
  start_index := 1;
  end_index := 1;
  output_dir := "output";
  token_width := 50;
  token_height := 60;
  token_depth := 3;
  token_corner_radius := 4;
  token_fillet_radius := 1;
  qr_border := 3;
  colored_print_depth := 6 # 10;
  text_font := "Helvetica";
  text_size := 7;
  text_border := 3;
  hole_radius := 3;
  hole_offset := 3;
  build_plate_width := 254;
  build_plate_height := 254;
  build_plate_spacing := 1
|}.

(** ** qr_code_to_3d_model *)

(** One black module of the code: [cube(...).right(x * pixel_size).forward(y * pixel_size)]. *)
Definition qr_pixel (pixel_size depth : Q) (x y : Z) : solid :=
  forward (inject_Z y * pixel_size)
    (right (inject_Z x * pixel_size) (cube pixel_size pixel_size depth)).

(** The inner loop, [for x, cell in enumerate(row)], from column [x] on. *)
Fixpoint qr_row_loop (pixel_size depth : Q) (y x : Z) (row : list bool)
    (model : solid) : solid :=
  match row with
  | [] => model
  | cell :: rest =>
      qr_row_loop pixel_size depth y (x + 1) rest
        (if cell then add model (qr_pixel pixel_size depth x y) else model)
  end.

(** The outer loop, [for y, row in enumerate(matrix)], from row [y] on. *)
Fixpoint qr_matrix_loop (pixel_size depth : Q) (y : Z) (matrix : list (list bool))
    (model : solid) : solid :=
  match matrix with
  | [] => model
  | row :: rest =>
      qr_matrix_loop pixel_size depth (y + 1) rest
        (qr_row_loop pixel_size depth y 0 row model)
  end.

(** The body of [qr_code_to_3d_model] once the encoder has returned
    [matrix].  [qr_width] is a number: [main] passes an [int], which the
    division turns into a float. *)
Definition qr_matrix_to_3d_model (matrix : list (list bool)) (qr_width depth : Q)
    : result solid :=
  let num_cells := Z.of_nat (List.length matrix) in
  result_bind (py_truediv qr_width (inject_Z num_cells)) (fun pixel_size =>
  Ok (color "black" (qr_matrix_loop pixel_size depth 0 matrix union_nil))).

(** ** create_keychain_body *)

Definition main_core (width height depth radius : Q) : solid :=
  forward radius (right radius (cube (width - 2 * radius) (height - 2 * radius) depth)).

Definition corner_cylinder (depth radius : Q) : solid := cylinder radius depth.

Definition corners (width height depth radius : Q) : list solid :=
  [ forward radius (right radius (corner_cylinder depth radius));
    forward radius (right (width - radius) (corner_cylinder depth radius));
    forward (height - radius) (right (width - radius) (corner_cylinder depth radius));
    forward (height - radius) (right radius (corner_cylinder depth radius)) ].

Definition corner (width height depth radius : Q) (k : nat) : solid :=
  nth k (corners width height depth radius) union_nil.

Definition rounded_edges (width height depth radius : Q) : list solid :=
  let c := corner width height depth radius in
  [ hull (c 0%nat) (c 1%nat);
    hull (c 1%nat) (c 2%nat);
    hull (c 2%nat) (c 3%nat);
    hull (c 3%nat) (c 0%nat) ].

(** [combined_shape] after the loop [for shape in rounded_edges], before
    the hole is cut. *)
Definition combined_shape (width height depth radius : Q) : solid :=
  fold_left add (rounded_edges width height depth radius)
    (main_core width height depth radius).

Definition keychain_hole (width height depth hole_radius hole_offset : Q) : solid :=
  back (- (1))
    (forward (height - hole_offset - hole_radius * 2)
       (right (width - hole_offset - hole_radius)
          (cylinder hole_radius (depth + 2)))).

(** The function has no failing operation and no guard: it returns on
    every input. *)
Definition create_keychain_body (width height depth radius hole_radius hole_offset : Q)
    : result solid :=
  Ok (color "white"
        (sub (combined_shape width height depth radius)
             (keychain_hole width height depth hole_radius hole_offset))).

(** ** add_text *)

Definition add_text (data : string) (size depth : Q) : solid :=
  color "black"
    (linear_extrude depth (text data size "center" "top" "Helvetica")).

(** ** assemble_colored_components *)

Definition front_colored (qr_model text_model : solid) (args : Args) (text_offset : Q) : solid :=
  add
    (up (token_depth args - colored_print_depth args)
       (forward (qr_border args) (right (qr_border args) qr_model)))
    (up (token_depth args - colored_print_depth args)
       (forward (token_height args - text_border args) (right text_offset text_model))).

Definition back_colored (qr_model text_model : solid) (args : Args) (text_offset : Q) : solid :=
  add
    (mirrorX (forward (qr_border args) (left (token_width args - qr_border args) qr_model)))
    (mirrorX (forward (token_height args - text_border args) (left text_offset text_model))).

Definition assemble_colored_components (qr_model text_model : solid) (args : Args)
    (text_offset : Q) : solid :=
  add (front_colored qr_model text_model args text_offset)
      (back_colored qr_model text_model args text_offset).

(** ** Effects: the trace of file-system and exporter calls *)

Inductive event : Type :=
| Unlink_glob (dir pattern : string)   (* for file in dir.glob(pattern): file.unlink() *)
| Mkdir (dir : string)                 (* dir.mkdir(parents=True, exist_ok=True) *)
| Set_global_fn (n : Z)                (* set_global_fn(n) *)
| Save_as_stl (path : string) (s : solid).   (* s.save_as_stl(path) *)

(** A computation extends the trace and returns or raises; the trace is
    kept when it raises. *)
Definition io (A : Type) : Type := list event -> result A * list event.

Definition io_ret {A : Type} (a : A) : io A := fun tr => (Ok a, tr).

Definition io_bind {A B : Type} (m : io A) (k : A -> io B) : io B :=
  fun tr =>
    match m tr with
    | (Ok a, tr') => k a tr'
    | (Raise e, tr') => (Raise e, tr')
    end.

Definition io_lift {A : Type} (r : result A) : io A := fun tr => (r, tr).

Definition emit (e : event) : io unit := fun tr => (Ok tt, tr ++ [e]).

Declare Scope io_scope.
Delimit Scope io_scope with io.
Notation "x <- m ;; k" := (io_bind m (fun x => k))
  (at level 61, m at next level, right associativity) : io_scope.
Notation "m ;; k" := (io_bind m (fun _ => k))
  (at level 61, right associativity) : io_scope.

(** [for x in xs: st = body(x, st)]. *)
Fixpoint for_each {S : Type} (xs : list Z) (body : Z -> S -> io S) (st : S) : io S :=
  match xs with
  | [] => io_ret st
  | x :: rest => io_bind (body x st) (for_each rest body)
  end.

(** [output_dir / name]. *)
Definition path_join (dir name : string) : string :=
  String.append dir (String.append "/" name).

Definition body_file (k : Z) : string :=
  String.append "build_plate_body_" (String.append (py_str k) ".stl").

Definition colored_file (k : Z) : string :=
  String.append "build_plate_colored_" (String.append (py_str k) ".stl").

Definition prepare_output_directory (dir : string) : io unit :=
  (emit (Unlink_glob dir "*") ;;
   emit (Mkdir dir))%io.

(** The loop variables of [main] that survive an iteration. *)
Record plate_state : Type := mkPlate {
  current_plate_index : Z;
  build_plate_body : solid;
  build_plate_colored : solid
}.

(** The two [save_as_stl] calls that export the open plate. *)
Definition save_plate (args : Args) (st : plate_state) : io unit :=
  (emit (Save_as_stl (path_join (output_dir args) (body_file (current_plate_index st)))
           (build_plate_body st)) ;;
   emit (Save_as_stl (path_join (output_dir args) (colored_file (current_plate_index st)))
           (build_plate_colored st)))%io.

(** [int(args.build_plate_width / (args.token_width + args.build_plate_spacing))]. *)
Definition num_per_row (args : Args) : result Z :=
  result_bind
    (fl_truediv (py_float (build_plate_width args))
       (fl_add (py_float (token_width args)) (py_float (build_plate_spacing args))))
    py_int.

(** [int(args.build_plate_height / (args.token_height + args.build_plate_spacing))]. *)
Definition num_per_column (args : Args) : result Z :=
  result_bind
    (fl_truediv (py_float (build_plate_height args))
       (fl_add (py_float (token_height args)) (py_float (build_plate_spacing args))))
    py_int.

(** [floor(args.token_width - (args.qr_border * 2))], the argument
    [qr_width] of the call in [main]. *)
Definition main_qr_width (args : Args) : result Z :=
  py_floor (fl_sub (py_float (token_width args))
              (fl_mul (py_float (qr_border args)) (py_float 2))).

(** The same width in a run in which [floor] returns (0 stands in when
    it raises: no tag is built then). *)
Definition tag_qr_width (args : Args) : Z :=
  match main_qr_width args with
  | Ok w => w
  | Raise _ => 0%Z
  end.

(** [position_index], [row] and [col] of the tag at position
    [p = i - args.start_index]. *)
Definition grid_slot (num_per_row tokens_per_plate p : Z) : result (Z * Z) :=
  result_bind (py_mod p tokens_per_plate) (fun position_index =>
  result_bind (py_floordiv position_index num_per_row) (fun row =>
  result_bind (py_mod position_index num_per_row) (fun col =>
  Ok (row, col)))).

Definition x_offset (args : Args) (col : Z) : Q :=
  inject_Z col * (token_width args + build_plate_spacing args).

Definition y_offset (args : Args) (row : Z) : Q :=
  inject_Z row * (token_height args + build_plate_spacing args).

Section Program.

(** The QR encoder: [qr.get_matrix()] after [qr.add_data(data)] and
    [qr.make()]. *)
Variable get_matrix : string -> list (list bool).

Definition qr_code_to_3d_model (data : string) (qr_width depth : Q) : result solid :=
  qr_matrix_to_3d_model (get_matrix data) qr_width depth.

Definition tag_text (i : Z) : string := String.append "T-" (py_str i).

(** One iteration of the loop of [main] for index [i]. *)
Definition loop_body (args : Args) (num_per_row tokens_per_plate : Z) (i : Z)
    (st : plate_state) : io plate_state :=
  (m <- io_lift (py_mod (i - start_index args) tokens_per_plate) ;;
   st1 <- (if (m =? 0)%Z then
             ((if (0 <? current_plate_index st)%Z then save_plate args st else io_ret tt) ;;
              io_ret (mkPlate (current_plate_index st + 1) union_nil union_nil))
           else io_ret st) ;;
   qr_width <- io_lift (main_qr_width args) ;;
   qr_model <- io_lift
     (qr_code_to_3d_model (tag_text i) (inject_Z qr_width) (colored_print_depth args)) ;;
   let text_model := add_text (tag_text i) (text_size args) (colored_print_depth args) in
   slot <- io_lift (grid_slot num_per_row tokens_per_plate (i - start_index args)) ;;
   let '(row, col) := slot in
   let colored :=
     assemble_colored_components qr_model text_model args
       ((token_width args - hole_radius args - text_border args) / 2) in
   body <- io_lift
     (create_keychain_body (token_width args) (token_height args)
        (token_depth args - (1 # 100000)) (token_corner_radius args)
        (hole_radius args) (hole_offset args)) ;;
   let body := sub body colored in
   let positioned_body := translate (x_offset args col) (y_offset args row) 0 body in
   let positioned_colored := translate (x_offset args col) (y_offset args row) 0 colored in
   io_ret (mkPlate (current_plate_index st1)
             (add (build_plate_body st1) positioned_body)
             (add (build_plate_colored st1) positioned_colored)))%io.

Definition main (args : Args) : io unit :=
  (prepare_output_directory (output_dir args) ;;
   emit (Set_global_fn 100) ;;
   npr <- io_lift (num_per_row args) ;;
   npc <- io_lift (num_per_column args) ;;
   let tokens_per_plate := (npr * npc)%Z in
   st <- for_each (py_range (start_index args) (end_index args + 1))
           (loop_body args npr tokens_per_plate)
           (mkPlate 0 union_nil union_nil) ;;
   (if (0 <? current_plate_index st)%Z then save_plate args st else io_ret tt) ;;
   emit (Unlink_glob (output_dir args) "*.scad"))%io.

(** The loop of [main] over the first [n] indices of the range. *)
Definition run_loop (args : Args) (num_per_row tokens_per_plate : Z) (n : Z)
    : io plate_state :=
  for_each (py_range (start_index args) (start_index args + n))
    (loop_body args num_per_row tokens_per_plate)
    (mkPlate 0 union_nil union_nil).

(** Where the program puts the tag at sequence position [p]: the plate
    that is open once the loop has handled it (counted from 0; its files
    carry the counter, which is one more), and its row and column. *)
Definition assignment (args : Args) (num_per_row tokens_per_plate : Z) (p : Z)
    : result (Z * Z * Z) :=
  match run_loop args num_per_row tokens_per_plate (p + 1) [] with
  | (Ok st, _) =>
      result_bind (grid_slot num_per_row tokens_per_plate p) (fun slot =>
      Ok ((current_plate_index st - 1)%Z, fst slot, snd slot))
  | (Raise e, _) => Raise e
  end.

(** *** What a run that does not raise computes *)

(** [qr_model] of tag [i], for a non-empty matrix. *)
Definition tag_qr_model (args : Args) (i : Z) : solid :=
  let matrix := get_matrix (tag_text i) in
  let pixel_size :=
    inject_Z (tag_qr_width args) / inject_Z (Z.of_nat (List.length matrix)) in
  color "black" (qr_matrix_loop pixel_size (colored_print_depth args) 0 matrix union_nil).

(** [colored] of tag [i]. *)
Definition tag_colored (args : Args) (i : Z) : solid :=
  assemble_colored_components (tag_qr_model args i)
    (add_text (tag_text i) (text_size args) (colored_print_depth args)) args
    ((token_width args - hole_radius args - text_border args) / 2).

(** [body] of tag [i] after [body -= colored]. *)
Definition tag_body (args : Args) (i : Z) : solid :=
  sub (color "white"
         (sub (combined_shape (token_width args) (token_height args)
                 (token_depth args - (1 # 100000)) (token_corner_radius args))
              (keychain_hole (token_width args) (token_height args)
                 (token_depth args - (1 # 100000)) (hole_radius args) (hole_offset args))))
      (tag_colored args i).

(** A tag's solid moved to the grid cell of sequence position [p]. *)
Definition placed (args : Args) (num_per_row tokens_per_plate p : Z) (s : solid) : solid :=
  let position_index := (p mod tokens_per_plate)%Z in
  translate (x_offset args (position_index mod num_per_row)%Z)
            (y_offset args (position_index / num_per_row)%Z) 0 s.

(** An accumulator that received the tags of positions [lo .. hi - 1]. *)
Definition accumulated (tag : Z -> solid) (lo hi : Z) : solid :=
  fold_left add (map tag (py_range lo hi)) union_nil.

Definition placed_body (args : Args) (num_per_row tokens_per_plate p : Z) : solid :=
  placed args num_per_row tokens_per_plate p (tag_body args (start_index args + p)).

Definition placed_colored (args : Args) (num_per_row tokens_per_plate p : Z) : solid :=
  placed args num_per_row tokens_per_plate p (tag_colored args (start_index args + p)).

(** The two exports of plate [k] (counted from 0) in a run over [n] tags. *)
Definition plate_exports (args : Args) (num_per_row tokens_per_plate n k : Z) : list event :=
  let lo := (k * tokens_per_plate)%Z in
  let hi := Z.min n ((k + 1) * tokens_per_plate) in
  [ Save_as_stl (path_join (output_dir args) (body_file (k + 1)))
      (accumulated (placed_body args num_per_row tokens_per_plate) lo hi);
    Save_as_stl (path_join (output_dir args) (colored_file (k + 1)))
      (accumulated (placed_colored args num_per_row tokens_per_plate) lo hi) ].

End Program.

(** ** The geometric meaning of a solid *)

Definition point : Type := (Q * Q * Q)%type.

Definition pointset : Type := point -> Prop.

(** Two points with equal coordinates (as rationals). *)
Definition same_point (p q : point) : Prop :=
  let '(px, py, pz) := p in
  let '(qx, qy, qz) := q in
  px == qx /\ py == qy /\ pz == qz.

(** The point [t * p + (1 - t) * q] of the segment from [q] to [p]. *)
Definition mix (t : Q) (p q : point) : point :=
  let '(px, py, pz) := p in
  let '(qx, qy, qz) := q in
  (t * px + (1 - t) * qx, t * py + (1 - t) * qy, t * pz + (1 - t) * qz).

(** The convex hull of a set of points. *)
Inductive convex_hull (A : pointset) : pointset :=
| hull_in (p q : point) : A p -> same_point q p -> convex_hull A q
| hull_mix (p q r : point) (t : Q) :
    convex_hull A p -> convex_hull A q -> 0 <= t <= 1 ->
    same_point r (mix t p q) -> convex_hull A r.

(** The box [lo <= p <= hi]. *)
Definition in_box (lo hi p : point) : Prop :=
  let '(x, y, z) := p in
  let '(x0, y0, z0) := lo in
  let '(x1, y1, z1) := hi in
  x0 <= x <= x1 /\ y0 <= y <= y1 /\ z0 <= z <= z1.

(** The upright cylinder of radius [r] whose axis stands on [(cx, cy)],
    from [z0] up to [z0 + h]. *)
Definition in_cylinder (cx cy z0 r h : Q) (p : point) : Prop :=
  let '(x, y, z) := p in
  (x - cx) * (x - cx) + (y - cy) * (y - cy) <= r * r /\ z0 <= z <= z0 + h.

(** [A] has the axis-aligned bounding box [lo .. hi]: it lies inside and
    touches each of the six faces. *)
Definition bounding_box (A : pointset) (lo hi : point) : Prop :=
  let '(x0, y0, z0) := lo in
  let '(x1, y1, z1) := hi in
  (forall p, A p -> in_box lo hi p) /\
  (exists y z, A (x0, y, z)) /\ (exists y z, A (x1, y, z)) /\
  (exists x z, A (x, y0, z)) /\ (exists x z, A (x, y1, z)) /\
  (exists x y, A (x, y, z0)) /\ (exists x y, A (x, y, z1)).

Definition subset (A B : pointset) : Prop := forall p, A p -> B p.

Definition same_set (A B : pointset) : Prop := forall p, A p <-> B p.

(** [A] moved by the vector [v]. *)
Definition moved (v : point) (A : pointset) : pointset :=
  fun p =>
    let '(x, y, z) := p in
    let '(vx, vy, vz) := v in
    A (x - vx, y - vy, z - vz).

Section Denotation.

(** The outline the text primitive draws for
    [text(data, size, halign, valign, font)], in the plane. *)
Variable glyphs : string -> Q -> string -> string -> string -> Q -> Q -> Prop.

Fixpoint denote (s : solid) (p : point) : Prop :=
  match s with
  | cube a b c => in_box (0, 0, 0) (a, b, c) p
  | cylinder r h => in_cylinder 0 0 0 r h p
  | text data size halign valign font =>
      let '(x, y, z) := p in glyphs data size halign valign font x y /\ z == 0
  | linear_extrude height child =>
      let '(x, y, z) := p in denote child (x, y, 0) /\ 0 <= z <= height
  | translate dx dy dz child => moved (dx, dy, dz) (denote child) p
  | mirrorX child => let '(x, y, z) := p in denote child (- x, y, z)
  | union_nil => False
  | add a b => denote a p \/ denote b p
  | sub a b => denote a p /\ ~ denote b p
  | hull a b => convex_hull (fun q => denote a q \/ denote b q) p
  | color _ child => denote child p
  end.

End Denotation.

(** ** Bookkeeping used by the statements *)

(** The number of [+=] an accumulator has received. *)
Fixpoint tag_count (s : solid) : nat :=
  match s with
  | add a _ => S (tag_count a)
  | _ => O
  end.

(** [ceil(n / c)] for a positive [c]. *)
Definition plate_count (n c : Z) : Z := ((n + c - 1) / c)%Z.

(** The saved meshes of a trace, in order. *)
Definition exports (tr : list event) : list (string * solid) :=
  flat_map (fun e => match e with
                     | Save_as_stl path s => [(path, s)]
                     | _ => []
                     end) tr.

(** A float that is zero. *)
Definition fl_zero (x : pyfloat) : Prop :=
  match x with
  | Finite q => q == 0
  | _ => False
  end.

(** A float that is at least [a]: no NaN. *)
Definition fl_at_least (x : pyfloat) (a : Q) : Prop :=
  match x with
  | Finite q => a <= q
  | Infinity negative => negative = false
  | NaN => False
  end.

(** A float that is not negative (NaN has no sign). *)
Definition fl_nonneg (x : pyfloat) : Prop :=
  match x with
  | Finite q => 0 <= q
  | Infinity negative => negative = false
  | NaN => True
  end.

(** The plate configuration has positive dimensions. *)
Definition plate_config_positive (args : Args) : Prop :=
  0 < build_plate_width args /\ 0 < build_plate_height args /\
  0 < build_plate_spacing args /\ 0 < token_width args /\ 0 < token_height args.

(** The cell of a matrix at a row and a column ([false] outside). *)
Definition cell_at (matrix : list (list bool)) (row col : nat) : bool :=
  nth col (nth row matrix []) false.

(** An [n] by [n] matrix. *)
Definition square (n : nat) (matrix : list (list bool)) : Prop :=
  List.length matrix = n /\ Forall (fun row => List.length row = n) matrix.

(** The two exports of the plate with counter [k + 1] whose accumulators
    received the positions [lo .. hi - 1]. *)
Definition exports_range (get_matrix : string -> list (list bool)) (args : Args)
    (num_per_row tokens_per_plate k lo hi : Z) : list event :=
  [ Save_as_stl (path_join (output_dir args) (body_file (k + 1)))
      (accumulated (placed_body get_matrix args num_per_row tokens_per_plate) lo hi);
    Save_as_stl (path_join (output_dir args) (colored_file (k + 1)))
      (accumulated (placed_colored get_matrix args num_per_row tokens_per_plate) lo hi) ].

(** The loop variables once [n] tags have been handled. *)
Definition state_after (get_matrix : string -> list (list bool)) (args : Args)
    (num_per_row tokens_per_plate n : Z) : plate_state :=
  if (n =? 0)%Z then mkPlate 0 union_nil union_nil
  else
    let k := ((n - 1) / tokens_per_plate)%Z in
    mkPlate (k + 1)
      (accumulated (placed_body get_matrix args num_per_row tokens_per_plate)
         (k * tokens_per_plate) n)
      (accumulated (placed_colored get_matrix args num_per_row tokens_per_plate)
         (k * tokens_per_plate) n).

(** The exports the loop has made once [n] tags have been handled: the
    plates that were full when a later tag arrived. *)
Definition exported_after (get_matrix : string -> list (list bool)) (args : Args)
    (num_per_row tokens_per_plate n : Z) : list event :=
  flat_map (fun k => exports_range get_matrix args num_per_row tokens_per_plate k
                       (k * tokens_per_plate) ((k + 1) * tokens_per_plate))
    (py_range 0 ((n - 1) / tokens_per_plate)).

(** Two argument sets that agree on everything but [text_font]. *)
Definition same_except_text_font (a b : Args) : Prop :=
  start_index a = start_index b /\ end_index a = end_index b /\
  output_dir a = output_dir b /\
  token_width a = token_width b /\ token_height a = token_height b /\
  token_depth a = token_depth b /\
  token_corner_radius a = token_corner_radius b /\
  token_fillet_radius a = token_fillet_radius b /\
  qr_border a = qr_border b /\ colored_print_depth a = colored_print_depth b /\
  text_size a = text_size b /\ text_border a = text_border b /\
  hole_radius a = hole_radius b /\ hole_offset a = hole_offset b /\
  build_plate_width a = build_plate_width b /\
  build_plate_height a = build_plate_height b /\
  build_plate_spacing a = build_plate_spacing b.

(** A run that stops on a configuration error before it has touched the
    output directory: it raises something other than the
    [ZeroDivisionError] of the arithmetic and its trace has no
    [Unlink_glob] and no [Mkdir]. *)
Definition directory_untouched (tr : list event) : Prop :=
  forall e, In e tr ->
    match e with
    | Unlink_glob _ _ | Mkdir _ => False
    | _ => True
    end.

Definition rejects_configuration_first (out : result unit * list event) : Prop :=
  (exists e, fst out = Raise e /\ e <> ZeroDivisionError) /\
  directory_untouched (snd out).

(** An encoder that always answers with one black module, for concrete
    runs. *)
Definition one_module_matrix (data : string) : list (list bool) := [[true]].

(** [--token-width 300]: no token fits on the plate. *)
Definition wide_token_args : Args := {|
  start_index := 1;
  end_index := 1;
  output_dir := "output";
  token_width := 300;
  token_height := 60;
  token_depth := 3;
  token_corner_radius := 4;
  token_fillet_radius := 1;
  qr_border := 3;
  colored_print_depth := 6 # 10;
  text_font := "Helvetica";
  text_size := 7;
  text_border := 3;
  hole_radius := 3;
  hole_offset := 3;
  build_plate_width := 254;
  build_plate_height := 254;
  build_plate_spacing := 1
|}.

(** [--token-width 80 --token-height 100 --end-index 13]: three by two
    tokens per plate, thirteen tags. *)
Definition six_per_plate_args : Args := {|
  start_index := 1;
  end_index := 13;
  output_dir := "output";
  token_width := 80;
  token_height := 100;
  token_depth := 3;
  token_corner_radius := 4;
  token_fillet_radius := 1;
  qr_border := 3;
  colored_print_depth := 6 # 10;
  text_font := "Helvetica";
  text_size := 7;
  text_border := 3;
  hole_radius := 3;
  hole_offset := 3;
  build_plate_width := 254;
  build_plate_height := 254;
  build_plate_spacing := 1
|}.

(** [--text-font Courier]. *)
Definition courier_args : Args := {|
  start_index := 1;
  end_index := 1;
  output_dir := "output";
  token_width := 50;
  token_height := 60;
  token_depth := 3;
  token_corner_radius := 4;
  token_fillet_radius := 1;
  qr_border := 3;
  colored_print_depth := 6 # 10;
  text_font := "Courier";
  text_size := 7;
  text_border := 3;
  hole_radius := 3;
  hole_offset := 3;
  build_plate_width := 254;
  build_plate_height := 254;
  build_plate_spacing := 1
|}.

(** The rounded rectangle the body builder aims at: the inset core prism
    together with the convex hulls of the four pairs of neighbouring
    corner cylinders, taken round the rectangle. *)
Definition core_prism (width height depth radius : Q) : pointset :=
  in_box (radius, radius, 0) (width - radius, height - radius, depth).

Definition corner_disc (width height depth radius : Q) (k : nat) : pointset :=
  match k with
  | 0%nat => in_cylinder radius radius 0 radius depth
  | 1%nat => in_cylinder (width - radius) radius 0 radius depth
  | 2%nat => in_cylinder (width - radius) (height - radius) 0 radius depth
  | _ => in_cylinder radius (height - radius) 0 radius depth
  end.

Definition edge_panel (width height depth radius : Q) (j k : nat) : pointset :=
  convex_hull (fun q => corner_disc width height depth radius j q
                        \/ corner_disc width height depth radius k q).

Definition rounded_rectangle (width height depth radius : Q) : pointset :=
  fun p =>
    core_prism width height depth radius p
    \/ edge_panel width height depth radius 0 1 p
    \/ edge_panel width height depth radius 1 2 p
    \/ edge_panel width height depth radius 2 3 p
    \/ edge_panel width height depth radius 3 0 p.

(** The prism of one QR module: [cell_size] wide and deep, [depth] high,
    with its origin at [(col * cell_size, row * cell_size, 0)]. *)
Definition module_prism (cell_size depth : Q) (row col : nat) : pointset :=
  in_box (inject_Z (Z.of_nat col) * cell_size, inject_Z (Z.of_nat row) * cell_size, 0)
         (inject_Z (Z.of_nat col) * cell_size + cell_size,
          inject_Z (Z.of_nat row) * cell_size + cell_size, depth).

(** The glyph outlines do not tell equal rationals apart. *)
Definition glyphs_respect_equality
    (glyphs : string -> Q -> string -> string -> string -> Q -> Q -> Prop) : Prop :=
  forall data size halign valign font x y x' y',
    x == x' -> y == y' ->
    glyphs data size halign valign font x y -> glyphs data size halign valign font x' y'.

(** A text primitive that draws a unit square whatever the text, for
    concrete examples. *)
Definition square_glyphs (data : string) (size : Q) (halign valign font : string)
    (x y : Q) : Prop :=
  0 <= x <= 1 /\ 0 <= y <= 1.

(** The hole as the specification words it: radius [hole_radius], at
    least [depth + 2] high, its axis [hole_offset] away from the edges
    [x = width] and [y = height], and its bottom below the base plane. *)
Definition hole_as_designed (hole : pointset) (width height depth hole_radius hole_offset : Q)
    : Prop :=
  exists cx cy z0 h,
    same_set hole (in_cylinder cx cy z0 hole_radius h) /\
    depth + 2 <= h /\
    width - cx == hole_offset /\ height - cy == hole_offset /\
    z0 < 0.

(** ** parse_args *)

(** The options of the command line after argparse has converted them;
    [None] stands for an option that was not given.  These are all the
    options the parser declares: the build plate has none. *)
Record CommandLine : Type := mkCommandLine {
  opt_start_index : option Z;
  opt_end_index : option Z;
  opt_output_dir : option string;
  opt_token_width : option Q;
  opt_token_height : option Q;
  opt_token_depth : option Q;
  opt_token_corner_radius : option Q;
  opt_token_fillet_radius : option Q;
  opt_qr_border : option Q;
  opt_colored_print_depth : option Q;
  opt_text_font : option string;
  opt_text_size : option Q;
  opt_text_border : option Q;
  opt_hole_radius : option Q;
  opt_hole_offset : option Q
}.

(** [add_argument(..., default=d)]: the given value, or [d]. *)
Definition or_default {A : Type} (given : option A) (d : A) : A :=
  match given with
  | Some a => a
  | None => d
  end.

(** The [Args] built from the parsed namespace: the fields the parser
    knows are taken from the command line, the others keep the defaults
    of [Args]. *)
Definition parse_args (cl : CommandLine) : Args := {|
  start_index := or_default (opt_start_index cl) (start_index default_args);
  end_index := or_default (opt_end_index cl) (end_index default_args);
  output_dir := or_default (opt_output_dir cl) (output_dir default_args);
  token_width := or_default (opt_token_width cl) (token_width default_args);
  token_height := or_default (opt_token_height cl) (token_height default_args);
  token_depth := or_default (opt_token_depth cl) (token_depth default_args);
  token_corner_radius :=
    or_default (opt_token_corner_radius cl) (token_corner_radius default_args);
  token_fillet_radius :=
    or_default (opt_token_fillet_radius cl) (token_fillet_radius default_args);
  qr_border := or_default (opt_qr_border cl) (qr_border default_args);
  colored_print_depth :=
    or_default (opt_colored_print_depth cl) (colored_print_depth default_args);
  text_font := or_default (opt_text_font cl) (text_font default_args);
  text_size := or_default (opt_text_size cl) (text_size default_args);
  text_border := or_default (opt_text_border cl) (text_border default_args);
  hole_radius := or_default (opt_hole_radius cl) (hole_radius default_args);
  hole_offset := or_default (opt_hole_offset cl) (hole_offset default_args);
  build_plate_width := build_plate_width default_args;
  build_plate_height := build_plate_height default_args;
  build_plate_spacing := build_plate_spacing default_args
|}.

(** A command line without options. *)
Definition no_options : CommandLine :=
  mkCommandLine None None None None None None None None None None None None None None None.

(** ** save_models *)

Definition keychain_file (index : Z) : string :=
  String.append "keychain_" (String.append (py_str index) ".stl").

Definition keychain_colored_file (index : Z) : string :=
  String.append "keychain_" (String.append (py_str index) "_colored.stl").

Definition save_models (body colored : solid) (index : Z) (output_dir : string) : io unit :=
  let body := sub body colored in
  (emit (Save_as_stl (path_join output_dir (keychain_file index)) body) ;;
   emit (Save_as_stl (path_join output_dir (keychain_colored_file index)) colored))%io.

(** ** Further bookkeeping *)

(** The saves of the plates [k], [k + 1], ... with the given pairs of
    accumulators, a body before its overlay. *)
Fixpoint plate_saves (dir : string) (k : Z) (pairs : list (solid * solid)) : list event :=
  match pairs with
  | [] => []
  | (body, colored) :: rest =>
      Save_as_stl (path_join dir (body_file k)) body
      :: Save_as_stl (path_join dir (colored_file k)) colored
      :: plate_saves dir (k + 1) rest
  end.

(** The number of true cells of a matrix. *)
Definition count_true (matrix : list (list bool)) : nat :=
  fold_right (fun row acc => (List.length (filter (fun cell => cell) row) + acc)%nat) O matrix.

(** [--token-width -1]: the pitch of a row is zero. *)
Definition zero_pitch_command_line : CommandLine :=
  mkCommandLine None None None (Some (- (1))) None None None None None None None None None
    None None.

(** [--token-width 300 --end-index 5]. *)
Definition wide_token_command_line : CommandLine :=
  mkCommandLine None (Some 5%Z) None (Some 300) None None None None None None None None None
    None None.

(** [--token-width 80 --token-height 100 --end-index 13]. *)
Definition six_per_plate_command_line : CommandLine :=
  mkCommandLine None (Some 13%Z) None (Some 80) (Some 100) None None None None None None None
    None None None.

(** [--token-width w --qr-border b]. *)
Definition sized_command_line (w b : Q) : CommandLine :=
  mkCommandLine None None None (Some w) None None None None (Some b) None None None None
    None None.

(** [--end-index 20 --qr-border 1e308]: twice the border overflows. *)
Definition huge_border_command_line : CommandLine :=
  mkCommandLine None (Some 20%Z) None None None None None None (Some (inject_Z (10 ^ 308)))
    None None None None None None.

(** [--token-width 1e-17 --qr-border 0]: the width is lost in the sum
    with the spacing. *)
Definition tiny_token_command_line : CommandLine :=
  sized_command_line (1 # 100000000000000000) 0.

(** Two argument sets that agree on everything but [token_fillet_radius]. *)
Definition same_except_fillet_radius (a b : Args) : Prop :=
  start_index a = start_index b /\ end_index a = end_index b /\
  output_dir a = output_dir b /\
  token_width a = token_width b /\ token_height a = token_height b /\
  token_depth a = token_depth b /\
  token_corner_radius a = token_corner_radius b /\
  qr_border a = qr_border b /\ colored_print_depth a = colored_print_depth b /\
  text_font a = text_font b /\
  text_size a = text_size b /\ text_border a = text_border b /\
  hole_radius a = hole_radius b /\ hole_offset a = hole_offset b /\
  build_plate_width a = build_plate_width b /\
  build_plate_height a = build_plate_height b /\
  build_plate_spacing a = build_plate_spacing b.

(** [--token-fillet-radius 2]. *)
Definition fillet_command_line : CommandLine :=
  mkCommandLine None None None None None None None (Some 2) None None None None None
    None None.

(** Whether a character occurs in a string. *)
Fixpoint has_char (c : Ascii.ascii) (s : string) : bool :=
  match s with
  | EmptyString => false
  | String a rest => if Ascii.eqb a c then true else has_char c rest
  end.

(** The loop variables and the trace agree: the plates saved so far,
    after the trace [tr0] the run started from, are the plates before
    the open one, in order. *)
Definition saves_agree (args : Args) (tr0 : list event) (st : plate_state)
    (tr : list event) : Prop :=
  exists pairs,
    tr = tr0 ++ plate_saves (output_dir args) 1 pairs /\
    ((current_plate_index st = 0%Z /\ pairs = [])
     \/ current_plate_index st = (Z.of_nat (List.length pairs) + 1)%Z).

(** A trace that holds, after [tr0], the plates [1 .. m] for some [m]. *)
Definition saves_in_order (args : Args) (tr0 : list event) (tr : list event) : Prop :=
  exists pairs, tr = tr0 ++ plate_saves (output_dir args) 1 pairs.

(** * Properties *)

(** ** Ranges and loops *)

Lemma py_range_empty (a b : Z) : (b <= a)%Z -> py_range a b = [].
Proof.
  intros H. unfold py_range.
  replace (Z.to_nat (b - a)) with O by lia. reflexivity.
Qed.

Lemma py_range_snoc (a b : Z) :
  (a <= b)%Z -> py_range a (b + 1) = py_range a b ++ [b].
Proof.
  intros H. unfold py_range.
  replace (Z.to_nat (b + 1 - a)) with (S (Z.to_nat (b - a))) by lia.
  rewrite seq_S, map_app. cbn [map Nat.add]. do 2 f_equal. lia.
Qed.

Lemma py_range_length (a b : Z) : List.length (py_range a b) = Z.to_nat (b - a).
Proof. unfold py_range. now rewrite length_map, length_seq. Qed.

Lemma in_py_range (a b x : Z) : In x (py_range a b) <-> (a <= x < b)%Z.
Proof.
  unfold py_range. rewrite in_map_iff. split.
  - intros (k & <- & Hk). apply in_seq in Hk. lia.
  - intros Hx. exists (Z.to_nat (x - a)). split; [lia|]. apply in_seq. lia.
Qed.

Lemma for_each_app {S : Type} (xs ys : list Z) (body : Z -> S -> io S) (st : S)
    (tr : list event) :
  for_each (xs ++ ys) body st tr =
  match for_each xs body st tr with
  | (Ok st', tr') => for_each ys body st' tr'
  | (Raise e, tr') => (Raise e, tr')
  end.
Proof.
  revert st tr. induction xs as [|x xs IH]; intros st tr; cbn [for_each app].
  - reflexivity.
  - unfold io_bind. destruct (body x st tr) as [[st'|e] tr']; [apply IH | reflexivity].
Qed.

Lemma accumulated_empty (tag : Z -> solid) (lo hi : Z) :
  (hi <= lo)%Z -> accumulated tag lo hi = union_nil.
Proof. intros H. unfold accumulated. now rewrite py_range_empty. Qed.

Lemma accumulated_snoc (tag : Z -> solid) (lo hi : Z) :
  (lo <= hi)%Z -> accumulated tag lo (hi + 1) = add (accumulated tag lo hi) (tag hi).
Proof.
  intros H. unfold accumulated.
  now rewrite py_range_snoc, map_app, fold_left_app by assumption.
Qed.

Lemma tag_count_fold (tags : list solid) (s : solid) :
  tag_count (fold_left add tags s) = (List.length tags + tag_count s)%nat.
Proof.
  revert s. induction tags as [|t tags IH]; intros s; cbn [fold_left List.length].
  - reflexivity.
  - rewrite IH. cbn [tag_count]. lia.
Qed.

Lemma tag_count_accumulated (tag : Z -> solid) (lo hi : Z) :
  tag_count (accumulated tag lo hi) = Z.to_nat (hi - lo).
Proof.
  unfold accumulated. rewrite tag_count_fold, length_map, py_range_length.
  cbn [tag_count]. lia.
Qed.

(** ** Python arithmetic *)

Lemma py_mod_ok (a b : Z) : b <> 0%Z -> py_mod a b = Ok (a mod b)%Z.
Proof. intros H. unfold py_mod. now apply Z.eqb_neq in H as ->. Qed.

Lemma py_floordiv_ok (a b : Z) : b <> 0%Z -> py_floordiv a b = Ok (a / b)%Z.
Proof. intros H. unfold py_floordiv. now apply Z.eqb_neq in H as ->. Qed.

Lemma py_truediv_ok (a b : Q) : ~ b == 0 -> py_truediv a b = Ok (a / b).
Proof.
  intros H. unfold py_truediv.
  destruct (Qeq_bool b 0) eqn:E; [|reflexivity].
  apply Qeq_bool_iff in E. contradiction.
Qed.

Lemma py_truediv_zero_divisor (a b : Q) :
  b == 0 -> py_truediv a b = Raise ZeroDivisionError.
Proof.
  intros H. unfold py_truediv. apply Qeq_bool_iff in H. now rewrite H.
Qed.

(** ** Python floats *)

Lemma pow2_positive (e : Z) : (0 < pow2 e)%Z.
Proof. unfold pow2. apply Z.pow_pos_nonneg; lia. Qed.

Lemma round_half_even_nonneg (n d : Z) :
  (0 <= n)%Z -> (0 < d)%Z -> (0 <= round_half_even n d)%Z.
Proof.
  intros Hn Hd. unfold round_half_even.
  assert (0 <= n / d)%Z by (apply Z.div_pos; lia).
  destruct (2 * (n mod d) ?= d)%Z; [destruct (Z.even (n / d))| |]; lia.
Qed.

Lemma round64_magnitude_nonneg (n d : positive) : fl_nonneg (round64_magnitude n d).
Proof.
  unfold round64_magnitude.
  set (e := Z.max (floor_log2 n d - 52) (-1074)).
  set (m := round_half_even (Zpos n * pow2 (- e)) (Zpos d * pow2 e)).
  assert (Hm : (0 <= m)%Z).
  { apply round_half_even_nonneg.
    - pose proof (pow2_positive (- e)). lia.
    - pose proof (pow2_positive e). lia. }
  destruct (1024 <=? e + Z.log2 m)%Z; [reflexivity|].
  cbn [fl_nonneg]. rewrite Qred_correct. unfold Qle. cbn [Qnum Qden].
  pose proof (pow2_positive e). nia.
Qed.

(** Rounding keeps the sign. *)
Lemma round64_nonneg (q : Q) : 0 <= q -> fl_nonneg (round64 q).
Proof.
  destruct q as [[|n|n] d]; unfold round64; cbn [Qnum Qden]; intros H.
  - cbn. lra.
  - apply round64_magnitude_nonneg.
  - unfold Qle in H. cbn in H. lia.
Qed.

Lemma fl_add_nonneg (a b : pyfloat) : fl_nonneg a -> fl_nonneg b -> fl_nonneg (fl_add a b).
Proof.
  destruct a as [x|s|], b as [y|t|]; cbn; intros Ha Hb; try exact I; try assumption.
  - apply round64_nonneg. lra.
  - subst. reflexivity.
Qed.

Lemma fl_truediv_nonneg (a b c : pyfloat) :
  fl_nonneg a -> fl_nonneg b -> fl_truediv a b = Ok c -> fl_nonneg c.
Proof.
  destruct b as [y|t|]; cbn [fl_truediv fl_nonneg]; intros Ha Hb H.
  - destruct (Qeq_bool y 0) eqn:E; [discriminate|].
    apply Qeq_bool_neq in E.
    destruct a as [x|s|]; injection H as <-; cbn [fl_nonneg] in *.
    + apply round64_nonneg. apply Qle_shift_div_l; lra.
    + subst s. unfold Qnegative.
      destruct (Z.ltb_spec (Qnum y) 0) as [L|_]; [|reflexivity].
      unfold Qle in Hb. cbn in Hb. lia.
    + exact I.
  - destruct a as [x|s|]; injection H as <-; cbn; try exact I. lra.
  - injection H as <-. exact I.
Qed.

(** On a float that is not negative, [int] is [math.floor]. *)
Lemma py_int_floor (x : pyfloat) (n : Z) :
  fl_nonneg x -> py_int x = Ok n -> py_floor x = Ok n /\ (0 <= n)%Z.
Proof.
  destruct x as [[a d]|s|]; cbn [fl_nonneg py_int py_floor]; intros Hx H; try discriminate.
  injection H as <-. unfold Qle in Hx. cbn in Hx. cbn [Qnum Qden Qfloor].
  rewrite Z.quot_div_nonneg by lia. split; [reflexivity|].
  apply Z.div_pos; lia.
Qed.

(** [math.floor] raises on an infinity and on a NaN only. *)
Lemma py_floor_raises (x : pyfloat) (e : exn) :
  py_floor x = Raise e -> e = ValueError \/ e = OverflowError.
Proof. destruct x as [q|s|]; cbn; intros H; [discriminate| |]; injection H as <-; auto. Qed.

Lemma py_mod_raises (a b : Z) (e : exn) : py_mod a b = Raise e -> e = ZeroDivisionError.
Proof. unfold py_mod. destruct (b =? 0)%Z; [|discriminate]. now intros [= <-]. Qed.

Lemma py_floordiv_raises (a b : Z) (e : exn) :
  py_floordiv a b = Raise e -> e = ZeroDivisionError.
Proof. unfold py_floordiv. destruct (b =? 0)%Z; [|discriminate]. now intros [= <-]. Qed.

Lemma py_truediv_raises (a b : Q) (e : exn) :
  py_truediv a b = Raise e -> e = ZeroDivisionError.
Proof. unfold py_truediv. destruct (Qeq_bool b 0); [|discriminate]. now intros [= <-]. Qed.

Lemma grid_slot_raises (npr tpp p : Z) (e : exn) :
  grid_slot npr tpp p = Raise e -> e = ZeroDivisionError.
Proof.
  unfold grid_slot.
  destruct (py_mod p tpp) as [m|e1] eqn:E1; cbn [result_bind];
    [|intros [= <-]; now apply py_mod_raises in E1].
  destruct (py_floordiv m npr) as [row|e2] eqn:E2; cbn [result_bind];
    [|intros [= <-]; now apply py_floordiv_raises in E2].
  destruct (py_mod m npr) as [col|e3] eqn:E3; cbn [result_bind];
    [discriminate | intros [= <-]; now apply py_mod_raises in E3].
Qed.

Lemma grid_slot_ok (npr tpp p : Z) :
  tpp <> 0%Z -> npr <> 0%Z ->
  grid_slot npr tpp p = Ok (((p mod tpp) / npr)%Z, ((p mod tpp) mod npr)%Z).
Proof.
  intros Ht Hn. unfold grid_slot.
  rewrite py_mod_ok by assumption. cbn [result_bind].
  rewrite py_floordiv_ok by assumption. cbn [result_bind].
  rewrite py_mod_ok by assumption. reflexivity.
Qed.

Lemma round_half_even_bounds (n d lo hi : Z) :
  (0 < d)%Z -> (lo * d <= n)%Z -> (n <= hi * d)%Z ->
  (lo <= round_half_even n d <= hi)%Z.
Proof.
  intros Hd Hlo Hhi. unfold round_half_even.
  pose proof (Z.div_mod n d ltac:(lia)) as E.
  pose proof (Z.mod_pos_bound n d Hd) as B.
  assert (L : (lo <= n / d)%Z) by (apply Z.div_le_lower_bound; lia).
  assert (U : (n / d <= hi)%Z) by (apply Z.div_le_upper_bound; lia).
  assert (U' : (n mod d = 0 \/ n / d < hi)%Z).
  { destruct (Z.eq_dec (n mod d) 0) as [Z0|NZ]; [now left|right]. nia. }
  destruct (Z.compare_spec (2 * (n mod d)) d) as [C|C|C];
    [destruct (Z.even (n / d))| |]; lia.
Qed.

Lemma floor_log2_lower (n d : positive) :
  (0 <= floor_log2 n d)%Z -> (Zpos d * 2 ^ floor_log2 n d <= Zpos n)%Z.
Proof.
  unfold floor_log2.
  set (a := Z.log2 (Zpos n)). set (b := Z.log2 (Zpos d)).
  pose proof (Z.log2_spec (Zpos n) ltac:(lia)) as [Ha _].
  pose proof (Z.log2_spec (Zpos d) ltac:(lia)) as [_ Hb].
  fold a in Ha. fold b in Hb.
  assert (Hb0 : (0 <= b)%Z) by apply Z.log2_nonneg.
  destruct (Z.leb_spec (Zpos d * pow2 (a - b)) (Zpos n * pow2 (- (a - b)))) as [T|T];
    intros HL.
  - unfold pow2 in T. rewrite (Z.max_r 0 (a - b)), (Z.max_l 0 (- (a - b))) in T by lia.
    change (2 ^ 0)%Z with 1%Z in T. lia.
  - assert (E : (2 ^ a = 2 ^ Z.succ b * 2 ^ (a - b - 1))%Z)
      by (rewrite <- Z.pow_add_r by lia; f_equal; lia).
    assert (P : (0 < 2 ^ (a - b - 1))%Z) by (apply Z.pow_pos_nonneg; lia).
    nia.
Qed.

Lemma pow2_nonpositive (e : Z) : (e <= 0)%Z -> pow2 e = 1%Z.
Proof. intros H. unfold pow2. now rewrite Z.max_l by lia. Qed.

Lemma pow2_nonnegative (e : Z) : (0 <= e)%Z -> pow2 e = (2 ^ e)%Z.
Proof. intros H. unfold pow2. now rewrite Z.max_r by lia. Qed.

(** A rational between two multiples of [2 ^ (- g)] that binary64 holds
    exactly is rounded to a value between them. *)
Lemma round64_magnitude_between (n d : positive) (a b g : Z) :
  (0 <= g <= 52)%Z -> (0 <= a)%Z -> (b < 2 ^ 53)%Z ->
  (a * Zpos d <= Zpos n * 2 ^ g)%Z -> (Zpos n * 2 ^ g <= b * Zpos d)%Z ->
  exists r,
    round64_magnitude n d = Finite r
    /\ inject_Z a <= r * inject_Z (2 ^ g) /\ r * inject_Z (2 ^ g) <= inject_Z b.
Proof.
  intros Hg Ha Hb Hlo Hhi. unfold round64_magnitude.
  set (L := floor_log2 n d).
  assert (G : (0 < 2 ^ g)%Z) by (apply Z.pow_pos_nonneg; lia).
  assert (HL : (L <= 52 - g)%Z).
  { destruct (Z.le_gt_cases L (52 - g)) as [H|H]; [exact H|exfalso].
    pose proof (floor_log2_lower n d ltac:(fold L; lia)) as F. fold L in F.
    assert (M : (2 ^ 53 <= 2 ^ (L + g))%Z) by (apply Z.pow_le_mono_r; lia).
    rewrite Z.pow_add_r in M by lia.
    assert (P : (0 < 2 ^ L)%Z) by (apply Z.pow_pos_nonneg; lia).
    nia. }
  set (e := Z.max (L - 52) (-1074)).
  assert (He : (- 1074 <= e <= - g)%Z) by (unfold e; lia).
  rewrite (pow2_nonpositive e), (pow2_nonnegative (- e)) by lia.
  set (E := (- e)%Z) in *.
  assert (PE : (2 ^ E = 2 ^ (E - g) * 2 ^ g)%Z)
    by (rewrite <- Z.pow_add_r by lia; f_equal; lia).
  assert (PG : (0 < 2 ^ (E - g))%Z) by (apply Z.pow_pos_nonneg; lia).
  assert (PE0 : (0 < 2 ^ E)%Z) by (apply Z.pow_pos_nonneg; lia).
  destruct (round_half_even_bounds (Zpos n * 2 ^ E) (Zpos d * 1)
              (a * 2 ^ (E - g)) (b * 2 ^ (E - g))) as [Mlo Mhi]; [lia|nia|nia|].
  set (m := round_half_even (Zpos n * 2 ^ E) (Zpos d * 1)) in *.
  assert (Hm : (e + Z.log2 m < 1024)%Z).
  { destruct (Z.eq_dec m 0) as [Z0|NZ]; [rewrite Z0; cbn; lia|].
    assert (m < 2 ^ (53 + (E - g)))%Z by (rewrite Z.pow_add_r by lia; nia).
    assert (Z.log2 m < 53 + (E - g))%Z by (apply Z.log2_lt_pow2; lia).
    unfold E in *. lia. }
  destruct (Z.leb_spec 1024 (e + Z.log2 m)) as [|_]; [lia|].
  eexists. split; [reflexivity|].
  rewrite Qred_correct. unfold Qle, Qmult, inject_Z. cbn [Qnum Qden].
  rewrite !Pos.mul_1_r, !Z.mul_1_r, Z2Pos.id by lia.
  split; nia.
Qed.

Lemma round64_between (q : Q) (a b g : Z) :
  (0 <= g <= 52)%Z -> (0 <= a)%Z -> (b < 2 ^ 53)%Z ->
  inject_Z a <= q * inject_Z (2 ^ g) -> q * inject_Z (2 ^ g) <= inject_Z b ->
  exists r,
    round64 q = Finite r
    /\ inject_Z a <= r * inject_Z (2 ^ g) /\ r * inject_Z (2 ^ g) <= inject_Z b.
Proof.
  intros Hg Ha Hb Hlo Hhi.
  assert (G : (0 < 2 ^ g)%Z) by (apply Z.pow_pos_nonneg; lia).
  destruct q as [[|n|n] d]; unfold round64; cbn [Qnum Qden].
  - exists 0. split; [reflexivity|].
    unfold Qle, Qmult, inject_Z in *. cbn [Qnum Qden] in *. lia.
  - apply round64_magnitude_between; try assumption;
      unfold Qle, Qmult, inject_Z in *; cbn [Qnum Qden] in *;
      rewrite ?Pos.mul_1_r, ?Z.mul_1_r in *; lia.
  - exfalso. unfold Qle, Qmult, inject_Z in Hlo. cbn [Qnum Qden] in Hlo.
    rewrite ?Pos.mul_1_r, ?Z.mul_1_r in Hlo. nia.
Qed.

(** A rational that is at least an integer binary64 holds exactly is
    rounded to a value that is at least that integer, or to infinity. *)
Lemma round64_magnitude_at_least (n d : positive) (a : Z) :
  (0 <= a < 2 ^ 53)%Z -> (a * Zpos d <= Zpos n)%Z ->
  fl_at_least (round64_magnitude n d) (inject_Z a).
Proof.
  intros Ha Hlo. unfold round64_magnitude.
  set (L := floor_log2 n d).
  set (e := Z.max (L - 52) (-1074)).
  destruct (Z.le_gt_cases e 0) as [He|He].
  - rewrite (pow2_nonpositive e), (pow2_nonnegative (- e)) by lia.
    set (E := (- e)%Z) in *.
    assert (PE0 : (0 < 2 ^ E)%Z) by (apply Z.pow_pos_nonneg; lia).
    destruct (round_half_even_bounds (Zpos n * 2 ^ E) (Zpos d * 1)
                (a * 2 ^ E) (Zpos n * 2 ^ E)) as [Mlo _]; [lia|nia|nia|].
    set (m := round_half_even (Zpos n * 2 ^ E) (Zpos d * 1)) in *.
    destruct (1024 <=? e + Z.log2 m)%Z; [reflexivity|].
    cbn [fl_at_least]. rewrite Qred_correct. unfold Qle, inject_Z. cbn [Qnum Qden].
    rewrite Z2Pos.id by lia. lia.
  - assert (HL : (53 <= L)%Z) by (unfold e in He; lia).
    assert (Ee : e = (L - 52)%Z) by (unfold e; lia).
    pose proof (floor_log2_lower n d ltac:(fold L; lia)) as F. fold L in F.
    rewrite (pow2_nonnegative e), (pow2_nonpositive (- e)) by lia.
    assert (PL : (2 ^ L = 2 ^ 52 * 2 ^ e)%Z)
      by (rewrite <- Z.pow_add_r by lia; f_equal; lia).
    assert (Pe : (2 <= 2 ^ e)%Z)
      by (change 2%Z with (2 ^ 1)%Z at 1; apply Z.pow_le_mono_r; lia).
    assert (Pd : (1 <= Zpos d * 2 ^ e)%Z) by nia.
    destruct (round_half_even_bounds (Zpos n * 1) (Zpos d * 2 ^ e)
                (2 ^ 52) (Zpos n)) as [Mlo _]; [lia|nia|nia|].
    set (m := round_half_even (Zpos n * 1) (Zpos d * 2 ^ e)) in *.
    destruct (1024 <=? e + Z.log2 m)%Z; [reflexivity|].
    cbn [fl_at_least]. rewrite Qred_correct. unfold Qle, inject_Z. cbn [Qnum Qden].
    change (Z.to_pos 1) with 1%positive.
    assert (2 ^ 53 = 2 ^ 52 * 2)%Z by reflexivity.
    nia.
Qed.

Lemma round64_at_least (q : Q) (a : Z) :
  (0 <= a < 2 ^ 53)%Z -> inject_Z a <= q -> fl_at_least (round64 q) (inject_Z a).
Proof.
  intros Ha Hlo.
  destruct q as [[|n|n] d]; unfold round64; cbn [Qnum Qden].
  - cbn [fl_at_least]. unfold Qle, inject_Z in *. cbn [Qnum Qden] in *. lia.
  - apply round64_magnitude_at_least; [assumption|].
    unfold Qle, inject_Z in Hlo. cbn [Qnum Qden] in Hlo. lia.
  - exfalso. unfold Qle, inject_Z in Hlo. cbn [Qnum Qden] in Hlo. lia.
Qed.

(** A rational of magnitude at most an integer binary64 holds exactly
    is rounded to a finite value of at most that magnitude. *)
Lemma round64_bounded (q : Q) (b : Z) :
  (0 <= b < 2 ^ 53)%Z -> - inject_Z b <= q <= inject_Z b ->
  exists r, round64 q = Finite r /\ - inject_Z b <= r <= inject_Z b.
Proof.
  intros Hb [Hlo Hhi].
  assert (B0 : 0 <= inject_Z b)
    by (change 0 with (inject_Z 0); rewrite <- Zle_Qle; lia).
  destruct q as [[|n|n] d]; unfold round64; cbn [Qnum Qden].
  - exists 0. split; [reflexivity | lra].
  - destruct (round64_magnitude_between n d 0 b 0) as (r & E & L & U); try lia.
    + unfold Qle, inject_Z in Hhi. cbn [Qnum Qden] in Hhi. cbn. lia.
    + exists r. split; [exact E|].
      change (inject_Z (2 ^ 0)) with 1 in L, U. change (inject_Z 0) with 0 in L. lra.
  - destruct (round64_magnitude_between n d 0 b 0) as (r & E & L & U); try lia.
    + unfold Qle, Qopp, inject_Z in Hlo. cbn [Qnum Qden] in Hlo. cbn. lia.
    + rewrite E. exists (- r). split; [reflexivity|].
      change (inject_Z (2 ^ 0)) with 1 in L, U. change (inject_Z 0) with 0 in L. lra.
Qed.

(** [math.floor] returns when the token width and the QR border have a
    magnitude of at most [10 ^ 15]. *)
Lemma main_qr_width_returns (args : Args) :
  - inject_Z (10 ^ 15) <= token_width args <= inject_Z (10 ^ 15) ->
  - inject_Z (10 ^ 15) <= qr_border args <= inject_Z (10 ^ 15) ->
  exists w, main_qr_width args = Ok w /\ (- (3 * 10 ^ 15) <= w <= 3 * 10 ^ 15)%Z.
Proof.
  intros Hw Hb. unfold main_qr_width, py_float.
  destruct (round64_bounded (token_width args) (10 ^ 15)) as (t & Et & Bt);
    [split; [lia | reflexivity] | exact Hw |].
  destruct (round64_bounded (qr_border args) (10 ^ 15)) as (b & Eb & Bb);
    [split; [lia | reflexivity] | exact Hb |].
  assert (E2 : round64 2 = Finite 2) by (vm_compute; reflexivity).
  rewrite Et, Eb, E2. cbn [fl_mul].
  set (k := inject_Z (10 ^ 15)) in *.
  assert (K2 : inject_Z (2 * 10 ^ 15) == 2 * k) by (unfold k; reflexivity).
  assert (K3 : inject_Z (3 * 10 ^ 15) == 3 * k) by (unfold k; reflexivity).
  destruct (round64_bounded (b * 2) (2 * 10 ^ 15)) as (c & Ec & Bc);
    [split; [lia | reflexivity] | rewrite K2; lra |].
  rewrite K2 in Bc. rewrite Ec. unfold fl_sub. cbn [fl_neg fl_add].
  destruct (round64_bounded (t + - c) (3 * 10 ^ 15)) as (v & Ev & Bv);
    [split; [lia | reflexivity] | rewrite K3; lra |].
  rewrite Ev. cbn [py_floor]. exists (Qfloor v). split; [reflexivity|].
  split.
  - apply (Qfloor_resp_le (inject_Z (- (3 * 10 ^ 15))) v).
    rewrite inject_Z_opp. lra.
  - rewrite <- (Qfloor_Z (3 * 10 ^ 15)). apply Qfloor_resp_le. lra.
Qed.

(** The model at a few points, as Python computes them: [0.1] is
    rounded; [1e-17 + 1.0] is [1.0], so that [--token-width 1e-17]
    counts 254 tokens per row where the exact quotient has floor 253;
    [--token-width 1.5400000000000001] counts 100 where the exact
    quotient has floor 99; [1e308 * 2] overflows, so that
    [--qr-border 1e308] makes [math.floor] raise [OverflowError]; a
    width and a border beyond the range are both infinite, their
    difference is a NaN and [math.floor] raises [ValueError]. *)
Lemma binary64_examples :
  py_float (1 # 10) = Finite (3602879701896397 # 36028797018963968) /\
  fl_add (py_float (1 # 100000000000000000)) (py_float 1) = Finite 1 /\
  num_per_row (parse_args (sized_command_line (1 # 100000000000000000) 3)) = Ok 254%Z /\
  Qfloor (254 / ((1 # 100000000000000000) + 1)) = 253%Z /\
  num_per_row (parse_args (sized_command_line (15400000000000001 # 10000000000000000) 3))
  = Ok 100%Z /\
  Qfloor (254 / ((15400000000000001 # 10000000000000000) + 1)) = 99%Z /\
  main_qr_width (parse_args (sized_command_line 50 (inject_Z (10 ^ 308))))
  = Raise OverflowError /\
  main_qr_width (parse_args (sized_command_line (inject_Z (10 ^ 400)) (inject_Z (10 ^ 400))))
  = Raise ValueError.
Proof. repeat split; vm_compute; reflexivity. Qed.

(** The ends of the range: the largest float is [2 ^ 1024 - 2 ^ 971],
    half a unit above it is rounded to infinity; the smallest is
    [2 ^ -1074], half of it is rounded to zero and three halves of it to
    its double (ties go to the even neighbour). *)
Lemma binary64_range :
  round64 (inject_Z (2 ^ 1024 - 2 ^ 970 - 1)) = Finite (inject_Z (2 ^ 1024 - 2 ^ 971)) /\
  round64 (inject_Z (2 ^ 1024 - 2 ^ 970)) = Infinity false /\
  round64 (- inject_Z (2 ^ 1024)) = Infinity true /\
  round64 (1 # 2 ^ 1074) = Finite (1 # 2 ^ 1074) /\
  round64 (1 # 2 ^ 1075) = Finite 0 /\
  round64 (3 # 2 ^ 1075) = Finite (1 # 2 ^ 1073).
Proof. repeat split; vm_compute; reflexivity. Qed.

(** ** The batch loop *)

Section Run.

Variable get_matrix : string -> list (list bool).

(** The encoder never returns an empty matrix. *)
Hypothesis get_matrix_nonempty : forall data, get_matrix data <> [].

Variable args : Args.
Variable w : Z.

(** [math.floor] returns the width of the QR code. *)
Hypothesis qr_width_ok : main_qr_width args = Ok w.

Variables npr npc : Z.

Let tpp : Z := (npr * npc)%Z.

Hypothesis capacity_nonzero : tpp <> 0%Z.

Lemma tag_qr_width_ok : tag_qr_width args = w.
Proof. unfold tag_qr_width. now rewrite qr_width_ok. Qed.

Lemma qr_code_to_3d_model_ok (i : Z) :
  qr_code_to_3d_model get_matrix (tag_text i) (inject_Z w) (colored_print_depth args)
  = Ok (tag_qr_model get_matrix args i).
Proof.
  unfold qr_code_to_3d_model, qr_matrix_to_3d_model, tag_qr_model.
  rewrite tag_qr_width_ok.
  rewrite py_truediv_ok; [reflexivity|].
  specialize (get_matrix_nonempty (tag_text i)).
  destruct (get_matrix (tag_text i)) as [|row rest]; [contradiction|].
  cbn [List.length]. unfold Qeq, inject_Z. cbn [Qnum Qden]. lia.
Qed.

Lemma npr_nonzero : npr <> 0%Z.
Proof. unfold tpp in capacity_nonzero. lia. Qed.

(** One iteration, at sequence position [p]. *)
Lemma loop_body_ok (p : Z) (st : plate_state) (tr : list event) :
  loop_body get_matrix args npr tpp (start_index args + p) st tr =
  if (p mod tpp =? 0)%Z then
    (Ok (mkPlate (current_plate_index st + 1)
           (add union_nil (placed_body get_matrix args npr tpp p))
           (add union_nil (placed_colored get_matrix args npr tpp p))),
     if (0 <? current_plate_index st)%Z
     then tr ++ [Save_as_stl (path_join (output_dir args)
                                (body_file (current_plate_index st)))
                   (build_plate_body st)]
             ++ [Save_as_stl (path_join (output_dir args)
                                (colored_file (current_plate_index st)))
                   (build_plate_colored st)]
     else tr)
  else
    (Ok (mkPlate (current_plate_index st)
           (add (build_plate_body st) (placed_body get_matrix args npr tpp p))
           (add (build_plate_colored st) (placed_colored get_matrix args npr tpp p))),
     tr).
Proof.
  unfold loop_body.
  replace (start_index args + p - start_index args)%Z with p by lia.
  unfold io_bind at 1. unfold io_lift at 1.
  rewrite py_mod_ok by exact capacity_nonzero.
  pose proof npr_nonzero as Hn.
  destruct (p mod tpp =? 0)%Z eqn:Em.
  - unfold io_bind, io_lift, io_ret, save_plate, emit.
    rewrite qr_width_ok, qr_code_to_3d_model_ok, grid_slot_ok by assumption.
    destruct (0 <? current_plate_index st)%Z; cbn; rewrite <- ?app_assoc; reflexivity.
  - unfold io_bind, io_lift, io_ret.
    rewrite qr_width_ok, qr_code_to_3d_model_ok, grid_slot_ok by assumption.
    reflexivity.
Qed.

End Run.

(** ** Integer division facts *)

Lemma div_pred_multiple (n c : Z) :
  (1 <= c)%Z -> (1 <= n)%Z -> (n mod c = 0)%Z ->
  ((n - 1) / c = n / c - 1)%Z /\ ((n / c) * c = n)%Z.
Proof.
  intros Hc Hn Hm.
  pose proof (Z.div_mod n c ltac:(lia)) as E. rewrite Hm in E.
  split; [|lia].
  symmetry. apply (Z.div_unique (n - 1) c (n / c - 1) (c - 1)); lia.
Qed.

Lemma div_pred_inside (n c : Z) :
  (1 <= c)%Z -> (n mod c <> 0)%Z -> ((n - 1) / c = n / c)%Z.
Proof.
  intros Hc Hm.
  pose proof (Z.div_mod n c ltac:(lia)) as E.
  pose proof (Z.mod_pos_bound n c ltac:(lia)) as B.
  symmetry. apply (Z.div_unique (n - 1) c (n / c) (n mod c - 1)); lia.
Qed.

Lemma div_mul_le (n c : Z) : (1 <= c)%Z -> ((n / c) * c <= n)%Z.
Proof.
  intros Hc. pose proof (Z.mul_div_le n c ltac:(lia)). lia.
Qed.

Lemma plate_count_pred (n c : Z) :
  (1 <= c)%Z -> plate_count n c = ((n - 1) / c + 1)%Z.
Proof.
  intros Hc. unfold plate_count.
  replace (n + c - 1)%Z with (n - 1 + 1 * c)%Z by lia.
  apply Z.div_add. lia.
Qed.

(** [plate_count] is the ceiling of the quotient. *)
Lemma plate_count_ceiling (n c : Z) :
  (1 <= c)%Z -> plate_count n c = Qceiling (inject_Z n / inject_Z c).
Proof.
  intros Hc. unfold Qceiling.
  assert (E : - (inject_Z n / inject_Z c) == inject_Z (- n) / inject_Z c).
  { unfold Qdiv. rewrite inject_Z_opp. ring. }
  rewrite (Qfloor_comp _ _ E), <- Zdiv_Qdiv.
  rewrite plate_count_pred by assumption.
  pose proof (Z.div_mod (- n) c ltac:(lia)) as D.
  pose proof (Z.mod_pos_bound (- n) c ltac:(lia)) as B.
  rewrite <- (Z.div_unique_pos (n - 1) c (- (- n / c) - 1) (c - 1 - (- n) mod c)); lia.
Qed.

(** ** The loop invariant *)

Section Invariant.

Variable get_matrix : string -> list (list bool).
Hypothesis get_matrix_nonempty : forall data, get_matrix data <> [].

Variable args : Args.
Variable w : Z.
Hypothesis qr_width_ok : main_qr_width args = Ok w.

Variables npr npc : Z.

Let tpp : Z := (npr * npc)%Z.

Hypothesis capacity_positive : (1 <= tpp)%Z.

Lemma run_loop_step (n : Z) (tr : list event) :
  (0 <= n)%Z ->
  run_loop get_matrix args npr tpp (n + 1) tr =
  match run_loop get_matrix args npr tpp n tr with
  | (Ok st, tr') => loop_body get_matrix args npr tpp (start_index args + n) st tr'
  | (Raise e, tr') => (Raise e, tr')
  end.
Proof.
  intros Hn. unfold run_loop.
  rewrite Z.add_assoc, py_range_snoc, for_each_app by lia.
  destruct (for_each _ _ _ tr) as [[st|e] tr']; [|reflexivity].
  cbn [for_each]. unfold io_bind, io_ret.
  now destruct (loop_body _ _ _ _ _ st tr') as [[st'|e'] tr''].
Qed.

Lemma exported_after_inside (n : Z) :
  (n mod tpp <> 0)%Z ->
  exported_after get_matrix args npr tpp (n + 1) = exported_after get_matrix args npr tpp n.
Proof.
  intros Hm. unfold exported_after.
  replace (n + 1 - 1)%Z with n by lia.
  now rewrite (div_pred_inside n tpp capacity_positive Hm).
Qed.

Lemma exported_after_rollover (n : Z) :
  (1 <= n)%Z -> (n mod tpp = 0)%Z ->
  exported_after get_matrix args npr tpp (n + 1) =
  exported_after get_matrix args npr tpp n
  ++ exports_range get_matrix args npr tpp ((n - 1) / tpp) ((n - 1) / tpp * tpp) n.
Proof.
  intros Hn Hm. unfold exported_after.
  destruct (div_pred_multiple n tpp capacity_positive Hn Hm) as [E1 E2].
  replace (n + 1 - 1)%Z with n by lia.
  assert (Hk : (0 <= (n - 1) / tpp)%Z) by (apply Z.div_pos; lia).
  replace (n / tpp)%Z with ((n - 1) / tpp + 1)%Z by lia.
  rewrite py_range_snoc, flat_map_app by lia.
  cbn [flat_map]. rewrite app_nil_r.
  replace (((n - 1) / tpp + 1) * tpp)%Z with n by lia.
  reflexivity.
Qed.

(** The state and the trace once [n] tags have been handled. *)
Lemma run_loop_after (m : nat) (tr : list event) :
  run_loop get_matrix args npr tpp (Z.of_nat m) tr =
  (Ok (state_after get_matrix args npr tpp (Z.of_nat m)),
   tr ++ exported_after get_matrix args npr tpp (Z.of_nat m)).
Proof.
  assert (Hc : tpp <> 0%Z) by lia.
  induction m as [|m IH].
  - cbn [Z.of_nat]. unfold run_loop, exported_after.
    rewrite (py_range_empty (start_index args)) by lia.
    rewrite (py_range_empty 0).
    + cbn. now rewrite app_nil_r.
    + pose proof (Z.div_lt_upper_bound (0 - 1) tpp 0). lia.
  - rewrite Nat2Z.inj_succ. unfold Z.succ.
    set (n := Z.of_nat m) in *. assert (Hn : (0 <= n)%Z) by lia.
    rewrite run_loop_step, IH by assumption.
    rewrite (loop_body_ok get_matrix get_matrix_nonempty args w qr_width_ok npr npc Hc).
    fold tpp.
    destruct (n mod tpp =? 0)%Z eqn:Em.
    + apply Z.eqb_eq in Em.
      destruct (Z.eq_dec n 0) as [Z0|NZ].
      * rewrite Z0. cbn [Z.add]. unfold state_after at 1 2 3.
        cbn [Z.eqb current_plate_index Z.ltb Z.compare].
        unfold state_after. cbn [Z.eqb Z.sub Z.opp Z.add Z.pos_sub].
        rewrite Z.div_0_l by lia. cbn [Z.mul Z.add].
        rewrite !(accumulated_snoc _ 0 0), !accumulated_empty by lia.
        unfold exported_after. cbn [Z.sub Z.opp Z.add Z.pos_sub].
        rewrite Z.div_0_l by lia.
        rewrite (py_range_empty 0 (-1 / tpp)).
        -- reflexivity.
        -- pose proof (Z.div_lt_upper_bound (-1) tpp 0). lia.
      * assert (H1 : (1 <= n)%Z) by lia.
        destruct (div_pred_multiple n tpp capacity_positive H1 Em) as [E1 E2].
        assert (Hk : (0 <= (n - 1) / tpp)%Z) by (apply Z.div_pos; lia).
        rewrite exported_after_rollover by assumption.
        unfold state_after.
        destruct (Z.eqb_spec n 0) as [|_]; [contradiction|].
        destruct (Z.eqb_spec (n + 1) 0) as [|_]; [lia|].
        cbn [current_plate_index build_plate_body build_plate_colored].
        destruct (Z.ltb_spec 0 ((n - 1) / tpp + 1)) as [_|]; [|lia].
        replace (n + 1 - 1)%Z with n by lia.
        replace (n / tpp)%Z with ((n - 1) / tpp + 1)%Z in * by lia.
        rewrite E2.
        rewrite !(accumulated_snoc _ n n), !(accumulated_empty _ n n) by lia.
        unfold exports_range. rewrite <- !app_assoc. reflexivity.
    + apply Z.eqb_neq in Em.
      assert (H1 : (1 <= n)%Z).
      { destruct (Z.eq_dec n 0) as [Z0|]; [|lia]. rewrite Z0, Z.mod_0_l in Em; lia. }
      rewrite exported_after_inside by assumption.
      unfold state_after.
      destruct (Z.eqb_spec n 0) as [|_]; [lia|].
      destruct (Z.eqb_spec (n + 1) 0) as [|_]; [lia|].
      cbn [current_plate_index build_plate_body build_plate_colored].
      replace (n + 1 - 1)%Z with n by lia.
      rewrite <- (div_pred_inside n tpp capacity_positive Em).
      pose proof (div_mul_le (n - 1) tpp capacity_positive).
      rewrite !accumulated_snoc by lia.
      reflexivity.
Qed.

End Invariant.

(** ** A whole run *)

Section WholeRun.

Variable get_matrix : string -> list (list bool).
Hypothesis get_matrix_nonempty : forall data, get_matrix data <> [].

Variable args : Args.
Variable w : Z.
Hypothesis qr_width_ok : main_qr_width args = Ok w.

Variables npr npc : Z.

Hypothesis num_per_row_ok : num_per_row args = Ok npr.
Hypothesis num_per_column_ok : num_per_column args = Ok npc.

Let tpp : Z := (npr * npc)%Z.
Let n : Z := (end_index args - start_index args + 1)%Z.

Lemma plate_exports_full (k : Z) :
  (1 <= tpp)%Z -> (0 <= k < (n - 1) / tpp)%Z ->
  plate_exports get_matrix args npr tpp n k =
  exports_range get_matrix args npr tpp k (k * tpp) ((k + 1) * tpp).
Proof.
  intros Hc Hk. unfold plate_exports, exports_range.
  pose proof (div_mul_le (n - 1) tpp Hc) as L.
  assert (((k + 1) * tpp <= (n - 1) / tpp * tpp)%Z)
    by (apply Z.mul_le_mono_nonneg_r; lia).
  now rewrite Z.min_r by lia.
Qed.

Lemma plate_exports_last :
  (1 <= tpp)%Z ->
  plate_exports get_matrix args npr tpp n ((n - 1) / tpp) =
  exports_range get_matrix args npr tpp ((n - 1) / tpp) ((n - 1) / tpp * tpp) n.
Proof.
  intros Hc. unfold plate_exports, exports_range.
  pose proof (Z.mul_succ_div_gt (n - 1) tpp ltac:(lia)) as G.
  unfold Z.succ in G.
  now rewrite Z.min_l by lia.
Qed.

(** A run over an empty range: the loop body never runs. *)
Lemma main_empty_range (tr : list event) :
  (end_index args < start_index args)%Z ->
  main get_matrix args tr =
  (Ok tt, tr ++ [Unlink_glob (output_dir args) "*"; Mkdir (output_dir args);
                 Set_global_fn 100; Unlink_glob (output_dir args) "*.scad"]).
Proof.
  intros He. unfold main, prepare_output_directory, io_bind, emit, io_lift.
  rewrite num_per_row_ok, num_per_column_ok.
  rewrite py_range_empty by lia. cbn.
  now rewrite <- !app_assoc.
Qed.

(** A run over a non-empty range with a positive capacity. *)
Lemma main_trace (tr : list event) :
  (1 <= tpp)%Z -> (start_index args <= end_index args)%Z ->
  main get_matrix args tr =
  (Ok tt,
   tr ++ [Unlink_glob (output_dir args) "*"; Mkdir (output_dir args); Set_global_fn 100]
      ++ flat_map (plate_exports get_matrix args npr tpp n) (py_range 0 (plate_count n tpp))
      ++ [Unlink_glob (output_dir args) "*.scad"]).
Proof.
  intros Hc Hr. unfold main, prepare_output_directory, emit.
  unfold io_bind at 1 2 3 4 5 6. unfold io_lift.
  rewrite num_per_row_ok, num_per_column_ok.
  assert (Hn : (1 <= n)%Z) by (unfold n; lia).
  pose proof (run_loop_after get_matrix get_matrix_nonempty args w qr_width_ok npr npc Hc
                (Z.to_nat n)
                (((tr ++ [Unlink_glob (output_dir args) "*"]) ++ [Mkdir (output_dir args)])
                 ++ [Set_global_fn 100])) as R.
  rewrite Z2Nat.id in R by lia. unfold run_loop in R.
  replace (start_index args + n)%Z with (end_index args + 1)%Z in R by (unfold n; lia).
  fold tpp. fold tpp in R. rewrite R. clear R.
  unfold state_after. destruct (Z.eqb_spec n 0) as [|_]; [lia|].
  assert (Hk : (0 <= (n - 1) / tpp)%Z) by (apply Z.div_pos; lia).
  unfold io_bind, save_plate, emit, io_bind.
  cbn [current_plate_index build_plate_body build_plate_colored].
  destruct (Z.ltb_spec 0 ((n - 1) / tpp + 1)) as [_|]; [|lia].
  f_equal. rewrite <- !app_assoc. f_equal. cbn [app]. do 3 f_equal.
  rewrite plate_count_pred, py_range_snoc, flat_map_app by lia.
  cbn [flat_map]. rewrite app_nil_r, plate_exports_last by assumption.
  unfold exported_after, exports_range. rewrite <- !app_assoc. cbn [app].
  f_equal. rewrite !flat_map_concat_map. f_equal.
  apply map_ext_in. intros k Hin. apply in_py_range in Hin.
  symmetry. now apply plate_exports_full.
Qed.

End WholeRun.

(** ** The plate assignment *)

Lemma py_range_cons (a b : Z) : (a < b)%Z -> py_range a b = a :: py_range (a + 1) b.
Proof.
  intros H. unfold py_range.
  replace (Z.to_nat (b - a)) with (S (Z.to_nat (b - (a + 1)))) by lia.
  cbn [seq map]. rewrite <- seq_shift, map_map. f_equal; [lia|].
  apply map_ext. intros k. lia.
Qed.

Lemma state_after_last (get_matrix : string -> list (list bool)) (args : Args)
    (npr tpp p : Z) :
  (1 <= tpp)%Z -> (0 <= p)%Z ->
  state_after get_matrix args npr tpp (p + 1) =
  mkPlate (p / tpp + 1)
    (add (accumulated (placed_body get_matrix args npr tpp) (p / tpp * tpp) p)
         (placed_body get_matrix args npr tpp p))
    (add (accumulated (placed_colored get_matrix args npr tpp) (p / tpp * tpp) p)
         (placed_colored get_matrix args npr tpp p)).
Proof.
  intros Hc Hp. unfold state_after.
  destruct (Z.eqb_spec (p + 1) 0) as [|_]; [lia|].
  replace (p + 1 - 1)%Z with p by lia.
  pose proof (div_mul_le p tpp Hc).
  now rewrite !accumulated_snoc by lia.
Qed.

Lemma assignment_closed_form (get_matrix : string -> list (list bool)) (args : Args)
    (w npr npc p : Z) :
  (forall data, get_matrix data <> []) ->
  main_qr_width args = Ok w ->
  (1 <= npr * npc)%Z -> (0 <= p)%Z ->
  assignment get_matrix args npr (npr * npc) p =
  Ok ((p / (npr * npc))%Z, ((p mod (npr * npc)) / npr)%Z, ((p mod (npr * npc)) mod npr)%Z).
Proof.
  intros Hne Hw Hc Hp. unfold assignment.
  pose proof (run_loop_after get_matrix Hne args w Hw npr npc Hc (Z.to_nat (p + 1)) []) as R.
  rewrite Z2Nat.id in R by lia. rewrite R.
  rewrite state_after_last by assumption.
  rewrite grid_slot_ok by lia.
  cbn [result_bind current_plate_index fst snd]. do 3 f_equal. lia.
Qed.

(** With positive dimensions the float quotient of line 140 is not
    negative, so that [int] truncates it to its floor. *)
Lemma num_per_row_floor (args : Args) (npr : Z) :
  plate_config_positive args -> num_per_row args = Ok npr ->
  result_bind
    (fl_truediv (py_float (build_plate_width args))
       (fl_add (py_float (token_width args)) (py_float (build_plate_spacing args))))
    py_floor = Ok npr
  /\ (0 <= npr)%Z.
Proof.
  unfold plate_config_positive, num_per_row. intros (Hw & _ & Hs & Htw & _) H.
  destruct (fl_truediv _ _) as [c|e] eqn:E; cbn [result_bind] in *; [|discriminate].
  apply py_int_floor; [|exact H].
  apply (fl_truediv_nonneg _ _ _) with (3 := E).
  - apply round64_nonneg. lra.
  - apply fl_add_nonneg; apply round64_nonneg; lra.
Qed.

Lemma num_per_column_floor (args : Args) (npc : Z) :
  plate_config_positive args -> num_per_column args = Ok npc ->
  result_bind
    (fl_truediv (py_float (build_plate_height args))
       (fl_add (py_float (token_height args)) (py_float (build_plate_spacing args))))
    py_floor = Ok npc
  /\ (0 <= npc)%Z.
Proof.
  unfold plate_config_positive, num_per_column. intros (_ & Hh & Hs & _ & Hth) H.
  destruct (fl_truediv _ _) as [c|e] eqn:E; cbn [result_bind] in *; [|discriminate].
  apply py_int_floor; [|exact H].
  apply (fl_truediv_nonneg _ _ _) with (3 := E).
  - apply round64_nonneg. lra.
  - apply fl_add_nonneg; apply round64_nonneg; lra.
Qed.

(** With positive dimensions both counts are non-negative, so a positive
    capacity makes both positive. *)
Lemma counts_positive (args : Args) (npr npc : Z) :
  plate_config_positive args ->
  num_per_row args = Ok npr -> num_per_column args = Ok npc ->
  (1 <= npr * npc)%Z -> (1 <= npr)%Z /\ (1 <= npc)%Z.
Proof.
  intros Hpos Hr Hc Hcap.
  destruct (num_per_row_floor args npr Hpos Hr) as [_ H0r].
  destruct (num_per_column_floor args npc Hpos Hc) as [_ H0c].
  nia.
Qed.

(** C1 (amended).  For a plate configuration with positive dimensions,
    let [tokens_per_row] and [tokens_per_column] be the counts [main]
    computes, let the capacity
    [tokens_per_plate = tokens_per_row * tokens_per_column] be at least 1
    and let [math.floor] return the width of the QR code.
    Then [tokens_per_row = floor(plate_width / (token_width + spacing))]
    and [tokens_per_column = floor(plate_height / (token_height + spacing))],
    the quotient and the sum being the float operations of the program;
    the tag at sequence position [p >= 0] is put on plate
    [p // tokens_per_plate] (counted from 0), in row
    [(p % tokens_per_plate) // tokens_per_row] and column
    [(p % tokens_per_plate) % tokens_per_row], and both of its solids are
    moved by [(column * (token_width + spacing), row * (token_height + spacing), 0)]
    before they are added to the accumulators of that plate. *)
Theorem plate_assignment (get_matrix : string -> list (list bool)) (args : Args)
    (tokens_per_row tokens_per_column qr_width p : Z) :
  (forall data, get_matrix data <> []) ->
  plate_config_positive args ->
  num_per_row args = Ok tokens_per_row ->
  num_per_column args = Ok tokens_per_column ->
  main_qr_width args = Ok qr_width ->
  let tokens_per_plate := (tokens_per_row * tokens_per_column)%Z in
  (1 <= tokens_per_plate)%Z -> (0 <= p)%Z ->
  let row := ((p mod tokens_per_plate) / tokens_per_row)%Z in
  let column := ((p mod tokens_per_plate) mod tokens_per_row)%Z in
  let dx := inject_Z column * (token_width args + build_plate_spacing args) in
  let dy := inject_Z row * (token_height args + build_plate_spacing args) in
  result_bind
    (fl_truediv (py_float (build_plate_width args))
       (fl_add (py_float (token_width args)) (py_float (build_plate_spacing args))))
    py_floor = Ok tokens_per_row /\
  result_bind
    (fl_truediv (py_float (build_plate_height args))
       (fl_add (py_float (token_height args)) (py_float (build_plate_spacing args))))
    py_floor = Ok tokens_per_column /\
  assignment get_matrix args tokens_per_row tokens_per_plate p =
    Ok ((p / tokens_per_plate)%Z, row, column) /\
  exists body colored tr,
    run_loop get_matrix args tokens_per_row tokens_per_plate (p + 1) [] =
    (Ok (mkPlate (p / tokens_per_plate + 1)
           (add body (translate dx dy 0 (tag_body get_matrix args (start_index args + p))))
           (add colored
              (translate dx dy 0 (tag_colored get_matrix args (start_index args + p))))),
     tr).
Proof.
  intros Hne Hpos Hr Hc Hw tpp Hcap Hp row column dx dy.
  split; [now apply num_per_row_floor|].
  split; [now apply num_per_column_floor|].
  split; [now apply (assignment_closed_form get_matrix args qr_width)|].
  pose proof (run_loop_after get_matrix Hne args qr_width Hw tokens_per_row tokens_per_column
                Hcap (Z.to_nat (p + 1)) []) as R.
  rewrite Z2Nat.id in R by lia. fold tpp in R.
  rewrite state_after_last in R by assumption.
  eexists _, _, _. exact R.
Qed.

(** The tag at position 7 of a default run (four by four tokens per
    plate) is on plate 0, row 1, column 3. *)
Lemma plate_assignment_witness :
  assignment one_module_matrix default_args 4 16 7 = Ok (0, 1, 3)%Z.
Proof.
  assert (Hne : forall data, one_module_matrix data <> []) by (intros data; discriminate).
  assert (Hpos : plate_config_positive default_args) by (repeat split; reflexivity).
  assert (Hr : num_per_row default_args = Ok 4%Z) by (vm_compute; reflexivity).
  assert (Hc : num_per_column default_args = Ok 4%Z) by (vm_compute; reflexivity).
  assert (Hw : main_qr_width default_args = Ok 44%Z) by (vm_compute; reflexivity).
  assert (Hcap : (1 <= 4 * 4)%Z) by lia.
  assert (Hp : (0 <= 7)%Z) by lia.
  destruct (plate_assignment one_module_matrix default_args 4 4 44 7 Hne Hpos Hr Hc Hw Hcap Hp)
    as (_ & _ & H & _).
  exact H.
Defined.

(** With [--qr-border 1e308] four by four tokens fit the plate, but twice
    the border overflows and [math.floor] raises: no position is given a
    slot.  With [--token-width 1e-17] the float sum of width and spacing
    is the spacing: [main] counts 254 tokens per row, where the quotient
    of the exact values has floor 253, and puts position 253 in row 0,
    column 253, where 253 tokens per row would give row 1, column 0. *)
Lemma plate_assignment_not_total :
  plate_config_positive (parse_args huge_border_command_line) /\
  num_per_row (parse_args huge_border_command_line) = Ok 4%Z /\
  num_per_column (parse_args huge_border_command_line) = Ok 4%Z /\
  assignment one_module_matrix (parse_args huge_border_command_line) 4 (4 * 4) 0
  = Raise OverflowError /\
  plate_config_positive (parse_args tiny_token_command_line) /\
  num_per_row (parse_args tiny_token_command_line) = Ok 254%Z /\
  num_per_column (parse_args tiny_token_command_line) = Ok 4%Z /\
  Qfloor (build_plate_width (parse_args tiny_token_command_line)
          / (token_width (parse_args tiny_token_command_line)
             + build_plate_spacing (parse_args tiny_token_command_line))) = 253%Z /\
  assignment one_module_matrix (parse_args tiny_token_command_line) 254 (254 * 4) 253
  = Ok (0, 0, 253)%Z /\
  ((253 mod (253 * 4)) / 253 = 1 /\ (253 mod (253 * 4)) mod 253 = 0)%Z.
Proof.
  split; [repeat split; reflexivity|].
  do 3 (split; [vm_compute; reflexivity|]).
  split; [repeat split; reflexivity|].
  do 4 (split; [vm_compute; reflexivity|]).
  split; reflexivity.
Qed.




(** ** File names *)

Lemma to_int_not_nil (i : Z) :
  Z.to_int i <> Decimal.Pos Decimal.Nil /\ Z.to_int i <> Decimal.Neg Decimal.Nil.
Proof.
  destruct i as [|q|q]; cbn; split; try discriminate;
    intros H; injection H as H; now apply DecimalPos.Unsigned.to_uint_nonnil in H.
Qed.

Lemma py_str_injective (i j : Z) : py_str i = py_str j -> i = j.
Proof.
  unfold py_str. intros H.
  destruct (to_int_not_nil i) as [A B], (to_int_not_nil j) as [C D].
  pose proof (NilZero.isi _ A B) as E1. pose proof (NilZero.isi _ C D) as E2.
  rewrite H in E1. rewrite E1 in E2. injection E2 as E2.
  rewrite <- (DecimalZ.of_to i), <- (DecimalZ.of_to j). now rewrite E2.
Qed.

Lemma append_length (a b : string) :
  String.length (String.append a b) = (String.length a + String.length b)%nat.
Proof. induction a as [|c a IH]; cbn; [reflexivity|]. now rewrite IH. Qed.

Lemma append_cancel_l (s a b : string) :
  String.append s a = String.append s b -> a = b.
Proof.
  induction s as [|c s IH]; cbn; intros H; [assumption|].
  injection H as H. auto.
Qed.

Lemma append_cancel_r (t a b : string) :
  String.append a t = String.append b t -> a = b.
Proof.
  revert b. induction a as [|c a IH]; intros [|d b] H; cbn in *.
  - reflexivity.
  - apply (f_equal String.length) in H. cbn in H. rewrite append_length in H. lia.
  - apply (f_equal String.length) in H. cbn in H. rewrite append_length in H. lia.
  - injection H as -> H. f_equal. auto.
Qed.

(** Different plate counters give different files, and a body file is
    never a colored file. *)
Lemma export_paths_distinct (dir : string) (j k : Z) :
  (path_join dir (body_file j) = path_join dir (body_file k) -> j = k) /\
  (path_join dir (colored_file j) = path_join dir (colored_file k) -> j = k) /\
  path_join dir (body_file j) <> path_join dir (colored_file k).
Proof.
  unfold path_join, body_file, colored_file. repeat split.
  - intros H. do 3 apply append_cancel_l in H. apply append_cancel_r in H.
    now apply py_str_injective.
  - intros H. do 3 apply append_cancel_l in H. apply append_cancel_r in H.
    now apply py_str_injective.
  - intros H. do 2 apply append_cancel_l in H. cbn in H. discriminate.
Qed.

(** ** The batch runner *)

Lemma plate_exports_count (get_matrix : string -> list (list bool)) (args : Args)
    (npr c n k : Z) :
  (1 <= c)%Z -> (1 <= n)%Z -> (0 <= k < plate_count n c)%Z ->
  let size := if (k <? plate_count n c - 1)%Z then c
              else (n - (plate_count n c - 1) * c)%Z in
  (1 <= size <= c)%Z /\
  exists body colored,
    plate_exports get_matrix args npr c n k =
    [ Save_as_stl (path_join (output_dir args) (body_file (k + 1))) body;
      Save_as_stl (path_join (output_dir args) (colored_file (k + 1))) colored ] /\
    Z.of_nat (tag_count body) = size /\ Z.of_nat (tag_count colored) = size.
Proof.
  intros Hc Hn Hk size.
  rewrite plate_count_pred in Hk by assumption.
  assert (Es : size = (Z.min n ((k + 1) * c) - k * c)%Z /\ (1 <= size <= c)%Z).
  { unfold size. rewrite plate_count_pred by assumption.
    pose proof (div_mul_le (n - 1) c Hc) as L.
    pose proof (Z.mul_succ_div_gt (n - 1) c ltac:(lia)) as G. unfold Z.succ in G.
    destruct (Z.ltb_spec k ((n - 1) / c + 1 - 1)) as [Hlt|Hge].
    - assert (((k + 1) * c <= (n - 1) / c * c)%Z)
        by (apply Z.mul_le_mono_nonneg_r; lia).
      rewrite Z.min_r by lia. lia.
    - replace k with ((n - 1) / c)%Z in * by lia.
      rewrite Z.min_l by lia. lia. }
  destruct Es as [Es Hs]. split; [exact Hs|].
  unfold plate_exports. eexists _, _. split; [reflexivity|].
  rewrite !tag_count_accumulated. lia.
Qed.

(** C2 (amended).  A run over [start_index .. end_index] with [start_index <= end_index]
    and plate capacity [c >= 1], in which [math.floor] returns the width
    of the QR code, saves, between clearing the directory and
    removing the scene files, exactly the plates [1 .. ceil(n / c)] for
    [n = end_index - start_index + 1] tags: for each plate one body mesh
    and one colored mesh, named with the plate counter, under pairwise
    distinct paths.  Every plate but the last has received [c] tags, the
    last one the remaining [n - (plates - 1) * c] (between 1 and [c]).
    When [end_index < start_index] nothing is saved and nothing is raised. *)
Theorem batch_exports (get_matrix : string -> list (list bool)) (args : Args)
    (npr npc qr_width : Z) (tr : list event) :
  (forall data, get_matrix data <> []) ->
  num_per_row args = Ok npr -> num_per_column args = Ok npc ->
  let c := (npr * npc)%Z in
  let n := (end_index args - start_index args + 1)%Z in
  let plates := plate_count n c in
  ((1 <= c)%Z -> (start_index args <= end_index args)%Z ->
   main_qr_width args = Ok qr_width ->
   plates = Qceiling (inject_Z n / inject_Z c) /\
   main get_matrix args tr =
     (Ok tt,
      tr ++ [Unlink_glob (output_dir args) "*"; Mkdir (output_dir args); Set_global_fn 100]
         ++ flat_map (plate_exports get_matrix args npr c n) (py_range 0 plates)
         ++ [Unlink_glob (output_dir args) "*.scad"]) /\
   (forall k, (0 <= k < plates)%Z ->
      let size := if (k <? plates - 1)%Z then c else (n - (plates - 1) * c)%Z in
      (1 <= size <= c)%Z /\
      exists body colored,
        plate_exports get_matrix args npr c n k =
        [ Save_as_stl (path_join (output_dir args) (body_file (k + 1))) body;
          Save_as_stl (path_join (output_dir args) (colored_file (k + 1))) colored ] /\
        Z.of_nat (tag_count body) = size /\ Z.of_nat (tag_count colored) = size) /\
   (forall j k,
      (path_join (output_dir args) (body_file j)
       = path_join (output_dir args) (body_file k) -> j = k) /\
      (path_join (output_dir args) (colored_file j)
       = path_join (output_dir args) (colored_file k) -> j = k) /\
      path_join (output_dir args) (body_file j)
      <> path_join (output_dir args) (colored_file k))) /\
  ((end_index args < start_index args)%Z ->
   main get_matrix args tr =
     (Ok tt,
      tr ++ [Unlink_glob (output_dir args) "*"; Mkdir (output_dir args);
             Set_global_fn 100; Unlink_glob (output_dir args) "*.scad"]) /\
   exports (snd (main get_matrix args tr)) = exports tr).
Proof.
  intros Hne Hr Hcol c n plates. split.
  - intros Hc Hrange Hw. split; [now apply plate_count_ceiling|].
    split; [now apply (main_trace get_matrix Hne args qr_width)|].
    split.
    + intros k Hk. apply plate_exports_count; [assumption|unfold n; lia|assumption].
    + intros j k. apply export_paths_distinct.
  - intros Hempty.
    rewrite (main_empty_range get_matrix args npr npc Hr Hcol tr Hempty).
    split; [reflexivity|].
    cbn [snd]. unfold exports. rewrite flat_map_app. cbn. now rewrite app_nil_r.
Qed.

(** Thirteen tags at six per plate: three plates, holding 6, 6 and 1
    tags, each saved as a body and a colored mesh. *)
Lemma batch_exports_witness :
  plate_count 13 6 = 3%Z /\
  map (fun e => (fst e, tag_count (snd e)))
    (exports (snd (main one_module_matrix six_per_plate_args []))) =
  [ ("output/build_plate_body_1.stl", 6%nat);
    ("output/build_plate_colored_1.stl", 6%nat);
    ("output/build_plate_body_2.stl", 6%nat);
    ("output/build_plate_colored_2.stl", 6%nat);
    ("output/build_plate_body_3.stl", 1%nat);
    ("output/build_plate_colored_3.stl", 1%nat) ].
Proof.
  assert (Hne : forall data, one_module_matrix data <> []) by (intros data; discriminate).
  assert (Hr : num_per_row six_per_plate_args = Ok 3%Z) by (vm_compute; reflexivity).
  assert (Hc : num_per_column six_per_plate_args = Ok 2%Z) by (vm_compute; reflexivity).
  assert (Hw : main_qr_width six_per_plate_args = Ok 74%Z) by (vm_compute; reflexivity).
  destruct (batch_exports one_module_matrix six_per_plate_args 3 2 74 [] Hne Hr Hc) as [H _].
  assert (Hcap : (1 <= 3 * 2)%Z) by lia.
  assert (Hrange : (start_index six_per_plate_args <= end_index six_per_plate_args)%Z)
    by (cbn; lia).
  destruct (H Hcap Hrange Hw) as (_ & Hmain & _).
  split; [reflexivity|].
  rewrite Hmain. vm_compute. reflexivity.
Defined.

(** With [--end-index 20 --qr-border 1e308] the capacity is 16 and the
    range holds 20 tags, which makes two plates; but twice the border
    overflows, [math.floor] raises [OverflowError] in the first
    iteration and the run saves nothing. *)
Lemma batch_stops_on_overflow :
  num_per_row (parse_args huge_border_command_line) = Ok 4%Z /\
  num_per_column (parse_args huge_border_command_line) = Ok 4%Z /\
  (start_index (parse_args huge_border_command_line)
   <= end_index (parse_args huge_border_command_line))%Z /\
  plate_count (end_index (parse_args huge_border_command_line)
               - start_index (parse_args huge_border_command_line) + 1) (4 * 4) = 2%Z /\
  main one_module_matrix (parse_args huge_border_command_line) [] =
    (Raise OverflowError, [Unlink_glob "output" "*"; Mkdir "output"; Set_global_fn 100]) /\
  exports (snd (main one_module_matrix (parse_args huge_border_command_line) [])) = [].
Proof.
  split; [vm_compute; reflexivity|].
  split; [vm_compute; reflexivity|].
  split; [cbn; lia|].
  repeat split; vm_compute; reflexivity.
Qed.

(** ** A zero capacity *)

(** C3 (amended).  When the capacity [tokens_per_row * tokens_per_column]
    is zero, [main] has already cleared and created the output directory
    when it reaches the loop; with a non-empty index range the first
    iteration then raises [ZeroDivisionError], before any solid is built
    and before anything is saved, so the run ends at once; with an empty
    range the run completes and saves nothing. *)
Theorem zero_capacity_run (get_matrix : string -> list (list bool)) (args : Args)
    (npr npc : Z) (tr : list event) :
  num_per_row args = Ok npr -> num_per_column args = Ok npc ->
  (npr * npc = 0)%Z ->
  ((start_index args <= end_index args)%Z ->
   main get_matrix args tr =
     (Raise ZeroDivisionError,
      tr ++ [Unlink_glob (output_dir args) "*"; Mkdir (output_dir args);
             Set_global_fn 100])) /\
  ((end_index args < start_index args)%Z ->
   main get_matrix args tr =
     (Ok tt,
      tr ++ [Unlink_glob (output_dir args) "*"; Mkdir (output_dir args);
             Set_global_fn 100; Unlink_glob (output_dir args) "*.scad"])).
Proof.
  intros Hr Hc Hz. split.
  - intros Hrange. unfold main, prepare_output_directory, emit.
    unfold io_bind at 1 2 3 4 5 6. unfold io_lift.
    rewrite Hr, Hc, Hz, py_range_cons by lia.
    cbn [for_each]. unfold io_bind at 2. unfold loop_body, io_bind at 1, io_lift at 1.
    unfold py_mod. cbn [Z.eqb]. unfold io_bind. now rewrite <- !app_assoc.
  - intros Hempty. now apply (main_empty_range get_matrix args npr npc).
Qed.

Lemma zero_capacity_run_witness :
  main one_module_matrix wide_token_args [] =
  (Raise ZeroDivisionError,
   [Unlink_glob "output" "*"; Mkdir "output"; Set_global_fn 100]).
Proof.
  assert (Hr : num_per_row wide_token_args = Ok 0%Z) by (vm_compute; reflexivity).
  assert (Hc : num_per_column wide_token_args = Ok 4%Z) by (vm_compute; reflexivity).
  assert (Hz : (0 * 4 = 0)%Z) by reflexivity.
  destruct (zero_capacity_run one_module_matrix wide_token_args 0 4 [] Hr Hc Hz) as [H _].
  apply H. cbn. lia.
Defined.

(** With [--token-width 300] the capacity is zero; the run raises the
    arithmetic error of the first [%], after the output directory has
    been cleared and created: it does not reject the configuration
    first. *)
Lemma zero_capacity_not_rejected_first :
  num_per_row wide_token_args = Ok 0%Z /\
  num_per_column wide_token_args = Ok 4%Z /\
  main one_module_matrix wide_token_args [] =
    (Raise ZeroDivisionError,
     [Unlink_glob "output" "*"; Mkdir "output"; Set_global_fn 100]) /\
  ~ rejects_configuration_first (main one_module_matrix wide_token_args []).
Proof.
  assert (E : main one_module_matrix wide_token_args [] =
              (Raise ZeroDivisionError,
               [Unlink_glob "output" "*"; Mkdir "output"; Set_global_fn 100]))
    by (vm_compute; reflexivity).
  repeat split; try (vm_compute; reflexivity); try exact E.
  rewrite E. intros [_ Hdir].
  apply (Hdir (Mkdir "output")). cbn. auto.
Qed.

(** ** The text font *)

(** C10.  Two argument sets that differ only in [text_font] give the
    same run (the same saved solids under the same names, hence the same
    plate accumulators) and, for every tag, the same text relief, the
    same colored overlay and the same carved body; the text relief is
    always drawn in the font "Helvetica". *)
Theorem text_font_ignored (get_matrix : string -> list (list bool)) (a b : Args) :
  same_except_text_font a b ->
  (forall tr, main get_matrix a tr = main get_matrix b tr) /\
  (forall i,
     add_text (tag_text i) (text_size a) (colored_print_depth a)
     = add_text (tag_text i) (text_size b) (colored_print_depth b) /\
     tag_colored get_matrix a i = tag_colored get_matrix b i /\
     tag_body get_matrix a i = tag_body get_matrix b i) /\
  (forall data size depth,
     add_text data size depth
     = color "black" (linear_extrude depth (text data size "center" "top" "Helvetica"))).
Proof.
  intros H. destruct a, b. unfold same_except_text_font in H. cbn in H.
  decompose [and] H. subst.
  split; [reflexivity|]. split; [|reflexivity].
  intros i. repeat split.
Qed.

Lemma text_font_ignored_witness :
  main one_module_matrix default_args [] = main one_module_matrix courier_args [].
Proof.
  assert (H : same_except_text_font default_args courier_args)
    by (repeat split; reflexivity).
  destruct (text_font_ignored one_module_matrix default_args courier_args H) as [Hmain _].
  apply Hmain.
Defined.

(** ** Point sets *)

Lemma same_point_refl (p : point) : same_point p p.
Proof. destruct p as [[x y] z]. cbn. repeat split; reflexivity. Qed.

Lemma same_point_sym (p q : point) : same_point p q -> same_point q p.
Proof.
  destruct p as [[x y] z], q as [[x' y'] z']. cbn.
  intros (A & B & C). repeat split; symmetry; assumption.
Qed.

Lemma same_point_trans (p q r : point) :
  same_point p q -> same_point q r -> same_point p r.
Proof.
  destruct p as [[x y] z], q as [[x' y'] z'], r as [[x'' y''] z'']. cbn.
  intros (A & B & C) (A' & B' & C'). repeat split; etransitivity; eassumption.
Qed.

Lemma in_box_same_point (lo hi p q : point) :
  same_point p q -> in_box lo hi p -> in_box lo hi q.
Proof.
  destruct lo as [[x0 y0] z0], hi as [[x1 y1] z1], p as [[x y] z], q as [[x' y'] z'].
  cbn. intros (A & B & C) H. lra.
Qed.

Lemma in_cylinder_same_point (cx cy z0 r h : Q) (p q : point) :
  same_point p q -> in_cylinder cx cy z0 r h p -> in_cylinder cx cy z0 r h q.
Proof.
  destruct p as [[x y] z], q as [[x' y'] z']. cbn.
  intros (A & B & C) [H1 H2]. rewrite <- A, <- B, <- C. split; assumption.
Qed.

Lemma convex_hull_same_point (A : pointset) (p q : point) :
  same_point p q -> convex_hull A p -> convex_hull A q.
Proof.
  intros E H. destruct H as [p0 p Hp Hq | p1 p2 p t H1 H2 Ht Hr].
  - apply (hull_in A p0); [assumption|].
    apply (same_point_trans _ p); [now apply same_point_sym | assumption].
  - apply (hull_mix A p1 p2 q t); try assumption.
    apply (same_point_trans _ p); [now apply same_point_sym | assumption].
Qed.

Lemma convex_hull_subset (A B : pointset) :
  subset A B -> subset (convex_hull A) (convex_hull B).
Proof.
  intros HAB p H. induction H as [p0 p Hp Hq | p1 p2 p t _ IH1 _ IH2 Ht Hr].
  - apply (hull_in B p0); [now apply HAB | assumption].
  - now apply (hull_mix B p1 p2 p t).
Qed.

Lemma convex_hull_same_set (A B : pointset) :
  same_set A B -> same_set (convex_hull A) (convex_hull B).
Proof.
  intros HAB p. split; apply convex_hull_subset; intros q Hq; now apply HAB.
Qed.

(** A box is convex: it contains the hull of every set it contains. *)
Lemma convex_hull_in_box (A : pointset) (lo hi : point) :
  subset A (in_box lo hi) -> subset (convex_hull A) (in_box lo hi).
Proof.
  intros HA p H. induction H as [p0 p Hp Hq | p1 p2 p t _ IH1 _ IH2 Ht Hr].
  - apply (in_box_same_point lo hi p0); [now apply same_point_sym | now apply HA].
  - apply (in_box_same_point lo hi (mix t p1 p2)); [now apply same_point_sym|].
    clear Hr. destruct lo as [[x0 y0] z0], hi as [[x1 y1] z1].
    destruct p1 as [[a1 b1] c1], p2 as [[a2 b2] c2]. cbn in *.
    repeat split; nra.
Qed.

Lemma square_nonneg (a : Q) : 0 <= a * a.
Proof. nra. Qed.

Lemma square_bound (a r : Q) : 0 <= r -> a * a <= r * r -> - r <= a <= r.
Proof.
  intros Hr H. split; apply Qnot_lt_le; intros C.
  - assert (r * r < a * a) by nra. lra.
  - assert (r * r < a * a) by nra. lra.
Qed.

(** A cylinder lies in the box round it. *)
Lemma in_cylinder_in_box (cx cy z0 r h : Q) :
  0 <= r ->
  subset (in_cylinder cx cy z0 r h)
         (in_box (cx - r, cy - r, z0) (cx + r, cy + r, z0 + h)).
Proof.
  intros Hr [[x y] z]. cbn. intros [H1 H2].
  pose proof (square_nonneg (y - cy)) as Hy.
  pose proof (square_nonneg (x - cx)) as Hx.
  destruct (square_bound (x - cx) r Hr ltac:(lra)).
  destruct (square_bound (y - cy) r Hr ltac:(lra)).
  repeat split; lra.
Qed.

(** ** The meaning of the solids the program builds *)

Section Geometry.

Variable glyphs : string -> Q -> string -> string -> string -> Q -> Q -> Prop.

Local Abbreviation D := (denote glyphs).

(** The meaning of a solid does not tell equal rationals apart. *)
Lemma denote_same_point (s : solid) :
  glyphs_respect_equality glyphs ->
  forall p q, same_point p q -> D s p -> D s q.
Proof.
  intros G. induction s as
    [a b c | r h | data size ha va f | height child IH | dx dy dz child IH
    | child IH | | a IHa b IHb | a IHa b IHb | a IHa b IHb | c child IH];
    intros p q E; cbn [denote].
  - now apply in_box_same_point.
  - now apply in_cylinder_same_point.
  - destruct p as [[x y] z], q as [[x' y'] z']. destruct E as (Ex & Ey & Ez).
    intros [H1 H2]. split; [now apply (G _ _ _ _ _ x y) | now rewrite <- Ez].
  - destruct p as [[x y] z], q as [[x' y'] z']. destruct E as (Ex & Ey & Ez).
    intros [H1 H2]. split; [|lra].
    apply (IH (x, y, 0)); [|assumption]. cbn. repeat split; lra.
  - destruct p as [[x y] z], q as [[x' y'] z']. destruct E as (Ex & Ey & Ez).
    cbn. apply IH. cbn. repeat split; lra.
  - destruct p as [[x y] z], q as [[x' y'] z']. destruct E as (Ex & Ey & Ez).
    apply IH. cbn. repeat split; lra.
  - trivial.
  - intros [H|H]; [left; now apply (IHa p) | right; now apply (IHb p)].
  - intros [H1 H2]. split; [now apply (IHa p)|].
    intros H. apply H2. apply (IHb q); [now apply same_point_sym | assumption].
  - now apply convex_hull_same_point.
  - now apply IH.
Qed.

Lemma denote_main_core (w h d r : Q) :
  same_set (D (main_core w h d r)) (core_prism w h d r).
Proof.
  intros [[x y] z]. unfold core_prism. cbn. lra.
Qed.

Lemma denote_corner (w h d r : Q) (k : nat) :
  (k < 4)%nat ->
  same_set (D (corner w h d r k)) (corner_disc w h d r k).
Proof.
  intros Hk [[x y] z].
  destruct k as [|[|[|[|k]]]]; try lia; cbn;
    (split; intros [H1 H2]; (split; [|lra]);
     (eapply Qle_trans; [|exact H1]); apply Qle_lteq; right; ring).
Qed.

Lemma denote_edge (w h d r : Q) (j k : nat) :
  (j < 4)%nat -> (k < 4)%nat ->
  same_set (D (hull (corner w h d r j) (corner w h d r k))) (edge_panel w h d r j k).
Proof.
  intros Hj Hk. cbn [denote]. unfold edge_panel.
  apply convex_hull_same_set. intros q.
  pose proof (denote_corner w h d r j Hj q). pose proof (denote_corner w h d r k Hk q).
  tauto.
Qed.

(** The body before the hole is cut is the rounded rectangle. *)
Lemma denote_combined_shape (w h d r : Q) :
  same_set (D (combined_shape w h d r)) (rounded_rectangle w h d r).
Proof.
  intros p. unfold combined_shape, rounded_edges, rounded_rectangle.
  cbn [fold_left]. cbn [denote].
  pose proof (denote_main_core w h d r p) as C.
  pose proof (denote_edge w h d r 0 1 ltac:(lia) ltac:(lia) p) as E0.
  pose proof (denote_edge w h d r 1 2 ltac:(lia) ltac:(lia) p) as E1.
  pose proof (denote_edge w h d r 2 3 ltac:(lia) ltac:(lia) p) as E2.
  pose proof (denote_edge w h d r 3 0 ltac:(lia) ltac:(lia) p) as E3.
  cbn [denote] in E0, E1, E2, E3. tauto.
Qed.

Lemma corner_disc_in_box (w h d r : Q) (k : nat) :
  0 <= r -> 2 * r <= w -> 2 * r <= h ->
  subset (corner_disc w h d r k) (in_box (0, 0, 0) (w, h, d)).
Proof.
  intros Hr Hw Hh p Hp.
  destruct k as [|[|[|k]]]; cbn [corner_disc] in Hp;
    apply in_cylinder_in_box in Hp; try assumption;
    destruct p as [[x y] z]; cbn in *; lra.
Qed.

Lemma edge_panel_in_box (w h d r : Q) (j k : nat) :
  0 <= r -> 2 * r <= w -> 2 * r <= h ->
  subset (edge_panel w h d r j k) (in_box (0, 0, 0) (w, h, d)).
Proof.
  intros Hr Hw Hh. unfold edge_panel. apply convex_hull_in_box.
  intros q [H|H]; [now apply (corner_disc_in_box w h d r j) | now apply (corner_disc_in_box w h d r k)].
Qed.

Lemma corner_disc_in_body (w h d r : Q) (k : nat) :
  (k < 4)%nat -> subset (corner_disc w h d r k) (rounded_rectangle w h d r).
Proof.
  intros Hk p Hp. unfold rounded_rectangle, edge_panel.
  destruct k as [|[|[|[|k]]]]; [| | | |lia].
  - right; left. apply (hull_in _ p); [now left | apply same_point_refl].
  - right; left. apply (hull_in _ p); [now right | apply same_point_refl].
  - right; right; left. apply (hull_in _ p); [now right | apply same_point_refl].
  - right; right; right; left. apply (hull_in _ p); [now right | apply same_point_refl].
Qed.

End Geometry.

(** ** The rounded body *)

Lemma on_corner_disc (cx cy r d x y z : Q) :
  (x - cx) * (x - cx) + (y - cy) * (y - cy) == r * r -> 0 <= z <= d ->
  in_cylinder cx cy 0 r d (x, y, z).
Proof. intros E Hz. cbn. split; [rewrite E; apply Qle_refl | lra]. Qed.

(** C9.  For positive dimensions and [0 < corner_radius < min(width, height) / 2],
    the body built before the hole is cut is the union of the core prism
    from [(r, r, 0)] to [(width - r, height - r, depth)] with the convex
    hulls of the four pairs of neighbouring corner cylinders of radius
    [r] standing on the inset corners; its bounding box is
    [(0, 0, 0) .. (width, height, depth)]; it contains the core prism and
    has a point outside it. *)
Theorem rounded_body_shape
    (glyphs : string -> Q -> string -> string -> string -> Q -> Q -> Prop)
    (width height depth radius : Q) :
  0 < width -> 0 < height -> 0 < depth -> 0 < radius ->
  radius < Qmin width height / 2 ->
  let body := denote glyphs (combined_shape width height depth radius) in
  let core := core_prism width height depth radius in
  same_set (denote glyphs (main_core width height depth radius)) core /\
  same_set body (rounded_rectangle width height depth radius) /\
  bounding_box body (0, 0, 0) (width, height, depth) /\
  subset core body /\
  (exists p, body p /\ ~ core p).
Proof.
  intros Hw Hh Hd Hr Hmin body core.
  pose proof (Q.le_min_l width height) as Ml.
  pose proof (Q.le_min_r width height) as Mr.
  assert (H2w : 2 * radius < width).
  { apply (Qmult_lt_r _ _ 2) in Hmin; [|lra].
    setoid_replace (Qmin width height / 2 * 2) with (Qmin width height) in Hmin
      by (field; discriminate).
    lra. }
  assert (H2h : 2 * radius < height).
  { apply (Qmult_lt_r _ _ 2) in Hmin; [|lra].
    setoid_replace (Qmin width height / 2 * 2) with (Qmin width height) in Hmin
      by (field; discriminate).
    lra. }
  pose proof (denote_combined_shape glyphs width height depth radius) as B.
  assert (In : forall k p, (k < 4)%nat -> corner_disc width height depth radius k p -> body p).
  { intros k p Hk Hp. apply B. now apply (corner_disc_in_body width height depth radius k). }
  split; [apply denote_main_core|]. split; [exact B|]. split; [|split].
  - cbn [bounding_box]. split; [|repeat split].
    + intros p Hp. apply B in Hp.
      destruct Hp as [Hp|[Hp|[Hp|[Hp|Hp]]]];
        try (apply (edge_panel_in_box width height depth radius) in Hp;
             [exact Hp | lra | lra | lra]).
      destruct p as [[x y] z]. unfold core_prism in Hp. cbn in *. lra.
    + exists radius, 0. apply (In 0%nat); [lia|].
      apply on_corner_disc; [ring | lra].
    + exists radius, 0. apply (In 1%nat); [lia|].
      apply on_corner_disc; [ring | lra].
    + exists radius, 0. apply (In 0%nat); [lia|].
      apply on_corner_disc; [ring | lra].
    + exists radius, 0. apply (In 3%nat); [lia|].
      apply on_corner_disc; [ring | lra].
    + exists radius, radius. apply (In 0%nat); [lia|].
      cbn. split; [|lra]. setoid_replace (radius - radius) with 0 by ring. nra.
    + exists radius, radius. apply (In 0%nat); [lia|].
      cbn. split; [|lra]. setoid_replace (radius - radius) with 0 by ring. nra.
  - intros p Hp. apply B. now left.
  - exists (radius, 0, 0). split.
    + apply (In 0%nat); [lia|]. apply on_corner_disc; [ring | lra].
    + unfold core, core_prism. cbn. lra.
Qed.

(** The default token: 50 by 60 by 3 with corner radius 4. *)
Lemma rounded_body_shape_witness :
  bounding_box (denote square_glyphs (combined_shape 50 60 3 4)) (0, 0, 0) (50, 60, 3).
Proof.
  assert (Hw : 0 < 50) by reflexivity.
  assert (Hh : 0 < 60) by reflexivity.
  assert (Hd : 0 < 3) by reflexivity.
  assert (Hr : 0 < 4) by reflexivity.
  assert (Hmin : 4 < Qmin 50 60 / 2) by reflexivity.
  destruct (rounded_body_shape square_glyphs 50 60 3 4 Hw Hh Hd Hr Hmin)
    as (_ & _ & H & _).
  exact H.
Defined.

(** ** The mounting hole *)

Lemma denote_keychain_hole
    (glyphs : string -> Q -> string -> string -> string -> Q -> Q -> Prop)
    (w h d hr ho : Q) :
  same_set (denote glyphs (keychain_hole w h d hr ho))
           (in_cylinder (w - (ho + hr)) (h - ho - hr * 2 + 1) 0 hr (d + 2)).
Proof.
  intros [[x y] z]. cbn.
  split; intros [H1 H2]; (split; [|lra]);
    (eapply Qle_trans; [|exact H1]); apply Qle_lteq; right; ring.
Qed.

(** C5 (amended).  For every parameter set the solid that is subtracted
    from the rounded body is an upright cylinder of radius [hole_radius]
    and height [depth + 2] whose axis is [hole_offset + hole_radius] away
    from the edge [x = width], so that the rim of the hole, not its axis,
    is [hole_offset] away from that edge. *)
Theorem keychain_hole_shape
    (glyphs : string -> Q -> string -> string -> string -> Q -> Q -> Prop)
    (width height depth radius hole_radius hole_offset : Q) :
  create_keychain_body width height depth radius hole_radius hole_offset =
    Ok (color "white"
          (sub (combined_shape width height depth radius)
               (keychain_hole width height depth hole_radius hole_offset))) /\
  exists cx cy z0,
    same_set (denote glyphs (keychain_hole width height depth hole_radius hole_offset))
             (in_cylinder cx cy z0 hole_radius (depth + 2)) /\
    width - cx == hole_offset + hole_radius.
Proof.
  split; [reflexivity|].
  exists (width - (hole_offset + hole_radius)), (height - hole_offset - hole_radius * 2 + 1), 0.
  split; [apply denote_keychain_hole | ring].
Qed.

(** On the default token the axis of the hole stands on [(44, 52)], which
    is 6 from the edge [x = 50], and the hole starts at [z = 0]; it is not
    the hole the design describes. *)
Lemma keychain_hole_not_as_designed :
  same_set (denote square_glyphs (keychain_hole 50 60 3 3 3)) (in_cylinder 44 52 0 3 5) /\
  ~ hole_as_designed (denote square_glyphs (keychain_hole 50 60 3 3 3)) 50 60 3 3 3.
Proof.
  assert (A : same_set (denote square_glyphs (keychain_hole 50 60 3 3 3))
                       (in_cylinder 44 52 0 3 5)).
  { intros p. rewrite (denote_keychain_hole square_glyphs 50 60 3 3 3 p).
    destruct p as [[x y] z]. cbn. split; intros [H1 H2]; (split; [|lra]);
      (eapply Qle_trans; [|exact H1]); apply Qle_lteq; right; ring. }
  split; [exact A|].
  intros (cx & cy & z0 & h & S & Hh & Hx & Hy & Hz).
  assert (P : in_cylinder cx cy z0 3 h (50, 57, z0)).
  { cbn. split; [|lra].
    setoid_replace cx with 47 by lra. setoid_replace cy with 57 by lra. lra. }
  apply S, A in P. cbn in P. lra.
Qed.

(** ** No guard in the body builder *)

(** C4 (amended).  For every parameter set, also when
    [hole_radius + hole_offset >= min(width, height) / 2] or
    [corner_radius >= min(width, height) / 2], the rounded-body builder
    raises nothing: it returns the rounded body with the hole cylinder
    subtracted. *)
Theorem create_keychain_body_unguarded
    (glyphs : string -> Q -> string -> string -> string -> Q -> Q -> Prop)
    (width height depth radius hole_radius hole_offset : Q) :
  exists body,
    create_keychain_body width height depth radius hole_radius hole_offset = Ok body /\
    same_set (denote glyphs body)
      (fun p => rounded_rectangle width height depth radius p
                /\ ~ denote glyphs (keychain_hole width height depth hole_radius hole_offset) p).
Proof.
  eexists. split; [reflexivity|]. intros p. cbn [denote].
  pose proof (denote_combined_shape glyphs width height depth radius p) as B.
  tauto.
Qed.

(** A hole with [hole_radius + hole_offset = min(width, height) / 2] and
    a corner radius of [min(width, height) / 2] are both accepted; the
    first hole reaches outside the body. *)
Lemma boundary_hole_accepted :
  20 + 5 == Qmin 50 60 / 2 /\
  ~ (exists e, create_keychain_body 50 60 3 4 20 5 = Raise e) /\
  (exists body, create_keychain_body 50 60 3 4 20 5 = Ok body) /\
  (exists p, denote square_glyphs (keychain_hole 50 60 3 20 5) p
             /\ ~ in_box (0, 0, 0) (50, 60, 3) p) /\
  25 == Qmin 50 60 / 2 /\
  (exists body, create_keychain_body 50 60 3 25 3 3 = Ok body).
Proof.
  split; [reflexivity|]. split; [intros [e H]; discriminate|].
  split; [eexists; reflexivity|]. split.
  - exists (25, - (3), 1). split.
    + apply denote_keychain_hole. cbn. split; lra.
    + cbn. lra.
  - split; [reflexivity | eexists; reflexivity].
Qed.

(** ** The QR relief *)

Section Relief.

Variable glyphs : string -> Q -> string -> string -> string -> Q -> Q -> Prop.

Local Abbreviation D := (denote glyphs).

Lemma denote_qr_pixel (pixel_size depth : Q) (row col : nat) :
  same_set (D (qr_pixel pixel_size depth (Z.of_nat col) (Z.of_nat row)))
           (module_prism pixel_size depth row col).
Proof.
  intros [[x y] z]. unfold module_prism. cbn. lra.
Qed.

Lemma denote_qr_row_loop (pixel_size depth : Q) (row : nat) (cells : list bool) :
  forall (x : nat) (model : solid) (p : point),
    D (qr_row_loop pixel_size depth (Z.of_nat row) (Z.of_nat x) cells model) p <->
    D model p \/
    exists j, nth j cells false = true /\ module_prism pixel_size depth row (x + j) p.
Proof.
  induction cells as [|cell rest IH]; intros x model p; cbn [qr_row_loop].
  - split; [now left|]. intros [H|(j & Hj & _)]; [assumption|].
    now destruct j.
  - replace (Z.of_nat x + 1)%Z with (Z.of_nat (S x)) by lia.
    rewrite IH. split.
    + intros [H|(j & Hj & Hp)].
      * destruct cell; cbn [denote] in H.
        -- destruct H as [H|H]; [now left|]. right. exists 0%nat.
           split; [reflexivity|]. rewrite Nat.add_0_r. now apply denote_qr_pixel.
        -- now left.
      * right. exists (S j). split; [exact Hj|].
        now replace (x + S j)%nat with (S x + j)%nat by lia.
    + intros [H|(j & Hj & Hp)].
      * left. destruct cell; cbn [denote]; [now left | assumption].
      * destruct j as [|j].
        -- left. cbn [nth] in Hj. subst cell. cbn [denote]. right.
           rewrite Nat.add_0_r in Hp. now apply denote_qr_pixel.
        -- right. exists j. split; [exact Hj|].
           now replace (S x + j)%nat with (x + S j)%nat by lia.
Qed.

Lemma denote_qr_matrix_loop (pixel_size depth : Q) (matrix : list (list bool)) :
  forall (y : nat) (model : solid) (p : point),
    D (qr_matrix_loop pixel_size depth (Z.of_nat y) matrix model) p <->
    D model p \/
    exists i j, cell_at matrix i j = true /\ module_prism pixel_size depth (y + i) j p.
Proof.
  induction matrix as [|cells rest IH]; intros y model p; cbn [qr_matrix_loop].
  - split; [now left|]. intros [H|(i & j & Hij & _)]; [assumption|].
    unfold cell_at in Hij. destruct i, j; discriminate.
  - replace (Z.of_nat y + 1)%Z with (Z.of_nat (S y)) by lia.
    rewrite IH. change 0%Z with (Z.of_nat 0). rewrite denote_qr_row_loop. split.
    + intros [[H|(j & Hj & Hp)]|(i & j & Hij & Hp)].
      * now left.
      * right. exists 0%nat, j. split; [exact Hj|]. now rewrite Nat.add_0_r.
      * right. exists (S i), j. split; [exact Hij|].
        now replace (y + S i)%nat with (S y + i)%nat by lia.
    + intros [H|(i & j & Hij & Hp)].
      * now left; left.
      * destruct i as [|i].
        -- left; right. exists j. split; [exact Hij|]. now rewrite Nat.add_0_r in Hp.
        -- right. exists i, j. split; [exact Hij|].
           now replace (S y + i)%nat with (y + S i)%nat by lia.
Qed.

End Relief.

Lemma cell_at_inside (n : nat) (matrix : list (list bool)) (row col : nat) :
  square n matrix -> cell_at matrix row col = true -> (row < n)%nat /\ (col < n)%nat.
Proof.
  intros [Hlen Hrows] H. unfold cell_at in H.
  destruct (Nat.lt_ge_cases row n) as [Hr|Hr].
  - split; [exact Hr|].
    destruct (Nat.lt_ge_cases col n) as [Hc|Hc]; [exact Hc|].
    rewrite Forall_forall in Hrows.
    assert (Hin : In (nth row matrix []) matrix) by (apply nth_In; lia).
    apply Hrows in Hin. rewrite nth_overflow in H by lia. discriminate.
  - rewrite (nth_overflow matrix) in H by lia. destruct col; discriminate.
Qed.

Lemma inject_Z_of_nat_bound (k n : nat) :
  (k < n)%nat -> 0 <= inject_Z (Z.of_nat k) /\ inject_Z (Z.of_nat k) + 1 <= inject_Z (Z.of_nat n).
Proof.
  intros H. split.
  - change 0 with (inject_Z 0). rewrite <- Zle_Qle. lia.
  - change 1 with (inject_Z 1). rewrite <- inject_Z_plus, <- Zle_Qle. lia.
Qed.

Lemma inject_Z_of_nat_pred (n : nat) :
  (1 <= n)%nat -> inject_Z (Z.of_nat (n - 1)) + 1 == inject_Z (Z.of_nat n).
Proof.
  intros H. change 1 with (inject_Z 1). rewrite <- inject_Z_plus.
  now replace (Z.of_nat (n - 1) + 1)%Z with (Z.of_nat n) by lia.
Qed.

(** A module prism lies between the origin and [n] cells. *)
Lemma module_prism_in_box (cell_size depth width : Q) (n row col : nat) :
  0 <= cell_size -> cell_size * inject_Z (Z.of_nat n) == width ->
  (row < n)%nat -> (col < n)%nat ->
  subset (module_prism cell_size depth row col) (in_box (0, 0, 0) (width, width, depth)).
Proof.
  intros Hc Hw Hrow Hcol [[x y] z]. unfold module_prism. cbn.
  destruct (inject_Z_of_nat_bound row n Hrow) as [R0 R1].
  destruct (inject_Z_of_nat_bound col n Hcol) as [C0 C1].
  set (r := inject_Z (Z.of_nat row)) in *. set (c := inject_Z (Z.of_nat col)) in *.
  set (N := inject_Z (Z.of_nat n)) in *.
  intros H.
  assert (0 <= r * cell_size) by nra. assert (0 <= c * cell_size) by nra.
  assert (r * cell_size + cell_size <= width) by nra.
  assert (c * cell_size + cell_size <= width) by nra.
  lra.
Qed.

(** The origin corner of a module prism belongs to it. *)
Lemma module_prism_origin (cell_size depth : Q) (row col : nat) (z : Q) :
  0 <= cell_size -> 0 <= z <= depth ->
  module_prism cell_size depth row col
    (inject_Z (Z.of_nat col) * cell_size, inject_Z (Z.of_nat row) * cell_size, z).
Proof. intros Hc Hz. unfold module_prism. cbn. lra. Qed.

(** C6.  For an [n] by [n] matrix with [n >= 1], a positive target width
    and a positive depth, the relief is returned and is the union, over
    the true cells [(row, col)], of the prisms of size
    [cell_size x cell_size x depth] with origin
    [(col * cell_size, row * cell_size, 0)], where
    [cell_size = target_width / n].  If the first and last row and the
    first and last column hold a true cell its bounding box is
    [(0, 0, 0) .. (target_width, target_width, depth)], and it is empty
    exactly when the matrix has no true cell. *)
Theorem qr_relief_shape
    (glyphs : string -> Q -> string -> string -> string -> Q -> Q -> Prop)
    (matrix : list (list bool)) (n : nat) (target_width depth : Q) :
  square n matrix -> (1 <= n)%nat -> 0 < target_width -> 0 < depth ->
  let cell_size := target_width / inject_Z (Z.of_nat n) in
  exists relief,
    qr_matrix_to_3d_model matrix target_width depth = Ok relief /\
    same_set (denote glyphs relief)
      (fun p => exists row col,
                  cell_at matrix row col = true
                  /\ module_prism cell_size depth row col p) /\
    ((exists col, cell_at matrix 0 col = true) ->
     (exists col, cell_at matrix (n - 1) col = true) ->
     (exists row, cell_at matrix row 0 = true) ->
     (exists row, cell_at matrix row (n - 1) = true) ->
     bounding_box (denote glyphs relief) (0, 0, 0) (target_width, target_width, depth)) /\
    ((forall p, ~ denote glyphs relief p) <->
     (forall row col, cell_at matrix row col = false)).
Proof.
  intros Hsq Hn Hw Hd cell_size.
  pose proof Hsq as [Hlen _].
  assert (HN : 0 < inject_Z (Z.of_nat n))
    by (change 0 with (inject_Z 0); rewrite <- Zlt_Qlt; lia).
  assert (Hcell : 0 < cell_size) by (apply Qlt_shift_div_l; lra).
  assert (Hmul : cell_size * inject_Z (Z.of_nat n) == target_width)
    by (unfold cell_size; field; lra).
  assert (Hok : qr_matrix_to_3d_model matrix target_width depth =
                Ok (color "black" (qr_matrix_loop cell_size depth 0 matrix union_nil))).
  { unfold qr_matrix_to_3d_model. rewrite Hlen, py_truediv_ok by lra. reflexivity. }
  clearbody cell_size.
  exists (color "black" (qr_matrix_loop cell_size depth 0 matrix union_nil)).
  assert (Char : same_set
            (denote glyphs (color "black" (qr_matrix_loop cell_size depth 0 matrix union_nil)))
            (fun p => exists row col,
                        cell_at matrix row col = true
                        /\ module_prism cell_size depth row col p)).
  { intros p. cbn [denote]. change 0%Z with (Z.of_nat 0).
    rewrite denote_qr_matrix_loop. cbn [denote Nat.add]. tauto. }
  assert (Origin : forall row col z,
            cell_at matrix row col = true -> 0 <= z <= depth ->
            denote glyphs (color "black" (qr_matrix_loop cell_size depth 0 matrix union_nil))
              (inject_Z (Z.of_nat col) * cell_size, inject_Z (Z.of_nat row) * cell_size, z)).
  { intros row col z Hcell_at Hz. apply Char. exists row, col.
    split; [exact Hcell_at|]. apply module_prism_origin; lra. }
  split; [|split; [exact Char|split]].
  - exact Hok.
  - intros (c0 & Htop) (c1 & Hbottom) (r0 & Hleft) (r1 & Hright).
    pose proof (inject_Z_of_nat_pred n Hn) as Hpred.
    cbn [bounding_box]. split; [|repeat split].
    + intros p Hp. apply Char in Hp. destruct Hp as (row & col & Hcell_at & Hp).
      destruct (cell_at_inside n matrix row col Hsq Hcell_at) as [Hr Hc].
      apply (module_prism_in_box cell_size depth target_width n row col);
        [lra | assumption | assumption | assumption | assumption].
    + exists (inject_Z (Z.of_nat r0) * cell_size), 0.
      apply Char. exists r0, 0%nat. split; [exact Hleft|].
      unfold module_prism. cbn. change (inject_Z 0) with 0. lra.
    + exists (inject_Z (Z.of_nat r1) * cell_size), 0.
      apply Char. exists r1, (n - 1)%nat. split; [exact Hright|].
      unfold module_prism. cbn.
      set (m := inject_Z (Z.of_nat (n - 1))) in *.
      assert (m * cell_size + cell_size == target_width) by nra.
      lra.
    + exists (inject_Z (Z.of_nat c0) * cell_size), 0.
      apply Char. exists 0%nat, c0. split; [exact Htop|].
      unfold module_prism. cbn. change (inject_Z 0) with 0. lra.
    + exists (inject_Z (Z.of_nat c1) * cell_size), 0.
      apply Char. exists (n - 1)%nat, c1. split; [exact Hbottom|].
      unfold module_prism. cbn.
      set (m := inject_Z (Z.of_nat (n - 1))) in *.
      assert (m * cell_size + cell_size == target_width) by nra.
      lra.
    + exists (inject_Z (Z.of_nat c0) * cell_size), (inject_Z (Z.of_nat 0) * cell_size).
      apply Origin; [exact Htop | lra].
    + exists (inject_Z (Z.of_nat c0) * cell_size), (inject_Z (Z.of_nat 0) * cell_size).
      apply Origin; [exact Htop | lra].
  - split.
    + intros Hempty row col.
      destruct (cell_at matrix row col) eqn:E; [|reflexivity].
      exfalso. apply (Hempty (inject_Z (Z.of_nat col) * cell_size,
                              inject_Z (Z.of_nat row) * cell_size, 0)).
      apply Origin; [exact E | lra].
    + intros Hnone p Hp. apply Char in Hp. destruct Hp as (row & col & Hcell_at & _).
      rewrite Hnone in Hcell_at. discriminate.
Qed.

(** A two by two matrix with its diagonal set, 10 wide and 1 deep. *)
Lemma qr_relief_shape_witness :
  exists relief,
    qr_matrix_to_3d_model [[true; false]; [false; true]] 10 1 = Ok relief /\
    bounding_box (denote square_glyphs relief) (0, 0, 0) (10, 10, 1).
Proof.
  assert (Hsq : square 2 [[true; false]; [false; true]])
    by (split; [reflexivity | repeat constructor]).
  assert (Hn : (1 <= 2)%nat) by lia.
  assert (Hw : 0 < 10) by reflexivity.
  assert (Hd : 0 < 1) by reflexivity.
  destruct (qr_relief_shape square_glyphs [[true; false]; [false; true]] 2 10 1 Hsq Hn Hw Hd)
    as (relief & Hok & _ & Hbox & _).
  exists relief. split; [exact Hok|].
  apply Hbox; [exists 0%nat | exists 1%nat | exists 0%nat | exists 1%nat]; reflexivity.
Defined.

(** ** The overlays *)

Lemma square_glyphs_respect_equality : glyphs_respect_equality square_glyphs.
Proof.
  intros data size halign valign font x y x' y' Ex Ey. unfold square_glyphs. lra.
Qed.

(** Moving the points of a solid: equal coordinates give the same
    membership. *)
Lemma denote_coordinates
    (glyphs : string -> Q -> string -> string -> string -> Q -> Q -> Prop) (s : solid)
    (x y z x' y' z' : Q) :
  glyphs_respect_equality glyphs ->
  x == x' -> y == y' -> z == z' ->
  denote glyphs s (x, y, z) <-> denote glyphs s (x', y', z').
Proof.
  intros G Ex Ey Ez. split; apply denote_same_point; try assumption; cbn;
    repeat split; try assumption; symmetry; assumption.
Qed.

(** C7 (amended).  The X mirror is an involution.  The overlay
    [assemble_colored_components] returns is the front overlay plus the
    back overlay; mirroring the back overlay a second time gives its
    geometry before the mirror: the two source reliefs, each moved by a
    translation.  Each of them is the matching part of the front overlay
    moved by a translation, the QR relief by
    [(- token_width, 0, - (token_depth - colored_print_depth))] and the
    text relief by [(- 2 * text_offset, 0, - (token_depth - colored_print_depth))];
    the re-mirrored back overlay as a whole is the front overlay moved by
    one translation when [token_width = 2 * text_offset]. *)
Theorem back_overlay_mirror
    (glyphs : string -> Q -> string -> string -> string -> Q -> Q -> Prop)
    (qr_model text_model : solid) (args : Args) (text_offset : Q) :
  glyphs_respect_equality glyphs ->
  let D := denote glyphs in
  let lift := token_depth args - colored_print_depth args in
  let text_y := token_height args - text_border args in
  (forall s, same_set (D (mirrorX (mirrorX s))) (D s)) /\
  exists front back,
    assemble_colored_components qr_model text_model args text_offset = add front back /\
    same_set (D front)
      (fun p => moved (qr_border args, qr_border args, lift) (D qr_model) p
                \/ moved (text_offset, text_y, lift) (D text_model) p) /\
    same_set (D (mirrorX back))
      (fun p => moved (- (token_width args - qr_border args), qr_border args, 0) (D qr_model) p
                \/ moved (- text_offset, text_y, 0) (D text_model) p) /\
    same_set (D (mirrorX back))
      (fun p => moved (- token_width args, 0, - lift)
                  (moved (qr_border args, qr_border args, lift) (D qr_model)) p
                \/ moved (- (2 * text_offset), 0, - lift)
                     (moved (text_offset, text_y, lift) (D text_model)) p) /\
    (token_width args == 2 * text_offset ->
     same_set (D (mirrorX back)) (moved (- token_width args, 0, - lift) (D front))).
Proof.
  intros G D lift text_y. subst D lift text_y.
  split.
  { intros s [[x y] z]. cbn. apply denote_coordinates; [assumption|ring|reflexivity|reflexivity]. }
  exists (front_colored qr_model text_model args text_offset),
         (back_colored qr_model text_model args text_offset).
  split; [reflexivity|].
  split; [|split; [|split]].
  - intros [[x y] z]. cbn.
    split; (intros [H|H]; [left|right]; revert H; apply denote_coordinates;
            try assumption; ring).
  - intros [[x y] z]. cbn.
    split; (intros [H|H]; [left|right]; revert H; apply denote_coordinates;
            try assumption; ring).
  - intros [[x y] z]. cbn.
    split; (intros [H|H]; [left|right]; revert H; apply denote_coordinates;
            try assumption; ring).
  - intros E [[x y] z]. cbn.
    split; (intros [H|H]; [left|right]; revert H; apply denote_coordinates;
            try assumption; try ring; rewrite E; ring).
Qed.

(** The overlays of a default token with a unit cube for the QR relief. *)
Lemma back_overlay_mirror_witness :
  exists front back,
    assemble_colored_components (cube 1 1 1) (add_text "T-1" 7 (6 # 10)) default_args (22 # 1)
    = add front back /\
    same_set
      (denote square_glyphs (mirrorX back))
      (fun p =>
         moved (- (50 - 3), 3, 0) (denote square_glyphs (cube 1 1 1)) p
         \/ moved (- (22 # 1), 60 - 3, 0)
              (denote square_glyphs (add_text "T-1" 7 (6 # 10))) p).
Proof.
  destruct (back_overlay_mirror square_glyphs (cube 1 1 1) (add_text "T-1" 7 (6 # 10))
              default_args (22 # 1) square_glyphs_respect_equality)
    as (_ & front & back & E & _ & H & _).
  exists front, back. split; [exact E | exact H].
Defined.

(** On the default token, with a QR code of one module and a square for
    the text, the overlay of tag 1 is the front overlay plus the back
    overlay, and no translation maps the front overlay onto the back
    overlay mirrored again: it would have to move the QR relief by 50
    and the text relief by 44. *)
Lemma back_overlay_not_a_translate :
  tag_colored one_module_matrix default_args 1 =
    add (front_colored (tag_qr_model one_module_matrix default_args 1)
           (add_text (tag_text 1) 7 (6 # 10)) default_args ((50 - 3 - 3) / 2))
        (back_colored (tag_qr_model one_module_matrix default_args 1)
           (add_text (tag_text 1) 7 (6 # 10)) default_args ((50 - 3 - 3) / 2)) /\
  ~ exists v,
      same_set
        (denote square_glyphs
           (mirrorX (back_colored (tag_qr_model one_module_matrix default_args 1)
                       (add_text (tag_text 1) 7 (6 # 10)) default_args ((50 - 3 - 3) / 2))))
        (moved v
           (denote square_glyphs
              (front_colored (tag_qr_model one_module_matrix default_args 1)
                 (add_text (tag_text 1) 7 (6 # 10)) default_args ((50 - 3 - 3) / 2)))).
Proof.
  split; [reflexivity|].
  intros [[[vx vy] vz] H].
  assert (Ew : tag_qr_width default_args = 44%Z) by (vm_compute; reflexivity).
  unfold tag_qr_model in H. rewrite Ew in H.
  pose proof (proj1 (H (- (47), 3, 0))) as H1.
  pose proof (proj1 (H (- (3), 3, 0))) as H2.
  pose proof (proj1 (H (- (22), 57, 0))) as H3.
  cbn in H1, H2, H3. unfold square_glyphs in H1, H2, H3.
  change (inject_Z 44) with 44 in H1, H2, H3.
  change (inject_Z 1) with 1 in H1, H2, H3.
  change (inject_Z 0) with 0 in H1, H2, H3.
  assert (E44 : 44 / 1 == 44) by reflexivity.
  assert (E22 : (50 - 3 - 3) / 2 == 22) by reflexivity.
  rewrite E44 in H1, H2, H3. rewrite E22 in H1, H2, H3.
  assert (P1 : 3 <= - (47) - vx /\ 3 <= 3 - vy).
  { destruct H1 as [[[]|Hq]|Ht]; [left; right|split; lra|split; lra].
    repeat split; lra. }
  assert (P2 : - (3) - vx <= 47).
  { destruct H2 as [[[]|Hq]|Ht]; [left; right|lra|lra].
    repeat split; lra. }
  destruct H3 as [[[]|Hq]|Ht]; [right|lra|lra].
  repeat split; lra.
Qed.

(** * Further properties of the program *)

(** ** The shape of every run *)

Lemma plate_saves_snoc (dir : string) (pairs : list (solid * solid)) :
  forall (k : Z) (body colored : solid),
    plate_saves dir k (pairs ++ [(body, colored)]) =
    plate_saves dir k pairs
    ++ [Save_as_stl (path_join dir (body_file (k + Z.of_nat (List.length pairs)))) body;
        Save_as_stl (path_join dir (colored_file (k + Z.of_nat (List.length pairs)))) colored].
Proof.
  induction pairs as [|[b c] rest IH]; intros k body colored.
  - cbn. now rewrite Z.add_0_r.
  - cbn [app plate_saves List.length]. rewrite IH. cbn [app].
    now replace (k + 1 + Z.of_nat (List.length rest))%Z
      with (k + Z.of_nat (S (List.length rest)))%Z by lia.
Qed.

Section RunShape.

Variable get_matrix : string -> list (list bool).
Variable args : Args.
Variables npr tpp : Z.
Variable tr0 : list event.

Lemma saves_agree_in_order (st : plate_state) (tr : list event) :
  saves_agree args tr0 st tr -> saves_in_order args tr0 tr.
Proof. intros (pairs & E & _). now exists pairs. Qed.

(** After the roll-over test of an iteration. *)
Lemma rollover_keeps_agreement (st : plate_state) (tr : list event) :
  saves_agree args tr0 st tr ->
  saves_agree args tr0
    (mkPlate (current_plate_index st + 1) union_nil union_nil)
    (if (0 <? current_plate_index st)%Z
     then (tr ++ [Save_as_stl (path_join (output_dir args)
                                 (body_file (current_plate_index st)))
                    (build_plate_body st)])
          ++ [Save_as_stl (path_join (output_dir args)
                             (colored_file (current_plate_index st)))
                (build_plate_colored st)]
     else tr).
Proof.
  intros (pairs & E & [[Hz Hp]|Hc]).
  - rewrite Hz. cbn [Z.ltb Z.compare]. exists []. subst pairs.
    split; [exact E|]. right. cbn. lia.
  - destruct (Z.ltb_spec 0 (current_plate_index st)) as [_|Hle]; [|lia].
    exists (pairs ++ [(build_plate_body st, build_plate_colored st)]).
    split.
    + rewrite plate_saves_snoc, E, <- !app_assoc. cbn [app].
      now replace (1 + Z.of_nat (List.length pairs))%Z with (current_plate_index st) by lia.
    + right. cbn [current_plate_index]. rewrite length_app. cbn [List.length]. lia.
Qed.

Lemma qr_code_to_3d_model_raises (data : string) (qr_width depth : Q) (e : exn) :
  qr_code_to_3d_model get_matrix data qr_width depth = Raise e -> e = ZeroDivisionError.
Proof.
  unfold qr_code_to_3d_model, qr_matrix_to_3d_model.
  destruct (py_truediv _ _) as [pixel_size|e1] eqn:E; cbn [result_bind]; [discriminate|].
  intros [= <-]. now apply py_truediv_raises in E.
Qed.

(** An iteration that raises stops on [ZeroDivisionError] or on the
    error of [math.floor]. *)
Lemma loop_body_keeps_agreement (i : Z) (st : plate_state) (tr : list event) :
  saves_agree args tr0 st tr ->
  match loop_body get_matrix args npr tpp i st tr with
  | (Ok st', tr') => saves_agree args tr0 st' tr'
  | (Raise e, tr') =>
      saves_in_order args tr0 tr'
      /\ (e = ZeroDivisionError \/ main_qr_width args = Raise e)
  end.
Proof.
  intros Inv. pose proof (rollover_keeps_agreement st tr Inv) as Roll.
  unfold loop_body.
  unfold io_bind at 1. unfold io_lift at 1.
  destruct (py_mod (i - start_index args) tpp) as [m|e] eqn:Em.
  2:{ split; [now apply (saves_agree_in_order st tr)|].
      left. now apply py_mod_raises in Em. }
  destruct (m =? 0)%Z.
  - unfold io_bind at 1. unfold io_bind at 1.
    destruct (0 <? current_plate_index st)%Z;
      unfold save_plate, io_bind, emit, io_ret, io_lift;
      (destruct (main_qr_width args) as [w|e0];
       [|split; [now apply (saves_agree_in_order _ _ Roll) | now right]]);
      (destruct (qr_code_to_3d_model _ _ _ _) as [qr_model|e1] eqn:E1;
       [|split; [now apply (saves_agree_in_order _ _ Roll)
                | left; now apply qr_code_to_3d_model_raises in E1]]);
      (destruct (grid_slot _ _ _) as [[row col]|e2] eqn:E2;
       [|split; [now apply (saves_agree_in_order _ _ Roll)
                | left; now apply grid_slot_raises in E2]]);
      cbn; destruct Roll as (pairs & E & H); exists pairs; (split; [exact E | exact H]).
  - unfold io_bind, io_ret, io_lift.
    destruct (main_qr_width args) as [w|e0];
      [|split; [now apply (saves_agree_in_order st tr) | now right]].
    destruct (qr_code_to_3d_model _ _ _ _) as [qr_model|e1] eqn:E1;
      [|split; [now apply (saves_agree_in_order st tr)
               | left; now apply qr_code_to_3d_model_raises in E1]].
    destruct (grid_slot _ _ _) as [[row col]|e2] eqn:E2;
      [|split; [now apply (saves_agree_in_order st tr)
               | left; now apply grid_slot_raises in E2]].
    cbn. destruct Inv as (pairs & E & H). exists pairs. split; [exact E | exact H].
Qed.

Lemma for_each_keeps_agreement (xs : list Z) :
  forall (st : plate_state) (tr : list event),
    saves_agree args tr0 st tr ->
    match for_each xs (loop_body get_matrix args npr tpp) st tr with
    | (Ok st', tr') => saves_agree args tr0 st' tr'
    | (Raise e, tr') =>
        saves_in_order args tr0 tr'
        /\ (e = ZeroDivisionError \/ main_qr_width args = Raise e)
    end.
Proof.
  induction xs as [|x rest IH]; intros st tr Inv; cbn [for_each].
  - exact Inv.
  - unfold io_bind. pose proof (loop_body_keeps_agreement x st tr Inv) as Step.
    destruct (loop_body get_matrix args npr tpp x st tr) as [[st'|e] tr'].
    + now apply IH.
    + exact Step.
Qed.

(** When [math.floor] raises, the first iteration stops before anything
    is saved. *)
Lemma first_iteration_stops (i : Z) (rest : list Z) (e : exn) :
  main_qr_width args = Raise e ->
  exists e',
    for_each (i :: rest) (loop_body get_matrix args npr tpp)
      (mkPlate 0 union_nil union_nil) tr0 = (Raise e', tr0)
    /\ (e' = ZeroDivisionError \/ e' = e).
Proof.
  intros Hw. cbn [for_each]. unfold io_bind at 1. unfold loop_body.
  unfold io_bind at 1. unfold io_lift at 1.
  destruct (py_mod (i - start_index args) tpp) as [m|e1] eqn:Em.
  2:{ exists e1. split; [reflexivity|]. left. now apply py_mod_raises in Em. }
  exists e. split; [|now right].
  destruct (m =? 0)%Z; cbn [current_plate_index Z.ltb Z.compare];
    unfold io_bind, io_ret, io_lift; now rewrite Hw.
Qed.

End RunShape.

(** [main], one step after the other. *)
Lemma main_steps (get_matrix : string -> list (list bool)) (args : Args) (tr : list event) :
  let tr0 := tr ++ [Unlink_glob (output_dir args) "*"; Mkdir (output_dir args);
                    Set_global_fn 100] in
  main get_matrix args tr =
  match num_per_row args with
  | Raise e => (Raise e, tr0)
  | Ok npr =>
      match num_per_column args with
      | Raise e => (Raise e, tr0)
      | Ok npc =>
          match for_each (py_range (start_index args) (end_index args + 1))
                  (loop_body get_matrix args npr (npr * npc))
                  (mkPlate 0 union_nil union_nil) tr0 with
          | (Raise e, tr1) => (Raise e, tr1)
          | (Ok st, tr1) =>
              if (0 <? current_plate_index st)%Z
              then (Ok tt,
                    tr1 ++ [Save_as_stl (path_join (output_dir args)
                                           (body_file (current_plate_index st)))
                              (build_plate_body st);
                            Save_as_stl (path_join (output_dir args)
                                           (colored_file (current_plate_index st)))
                              (build_plate_colored st);
                            Unlink_glob (output_dir args) "*.scad"])
              else (Ok tt, tr1 ++ [Unlink_glob (output_dir args) "*.scad"])
          end
      end
  end.
Proof.
  intros tr0. unfold main, prepare_output_directory, emit.
  unfold io_bind at 1 2 3 4 5 6. unfold io_lift.
  replace (((tr ++ [Unlink_glob (output_dir args) "*"]) ++ [Mkdir (output_dir args)])
           ++ [Set_global_fn 100]) with tr0
    by (unfold tr0; now rewrite <- !app_assoc).
  destruct (num_per_row args) as [npr|e]; [|reflexivity].
  destruct (num_per_column args) as [npc|e]; [|reflexivity].
  destruct (for_each _ _ _ tr0) as [[st|e] tr1]; [|reflexivity].
  destruct (0 <? current_plate_index st)%Z.
  - unfold save_plate, io_bind, emit. now rewrite <- !app_assoc.
  - reflexivity.
Qed.

(** A run that stops before the loop. *)
Lemma stops_before_loop (out : result unit * list event) (tr0 : list event) (dir : string)
    (e : exn) :
  out = (Raise e, tr0) ->
  out = (Raise ZeroDivisionError, tr0 ++ plate_saves dir 1 [])
  \/ out = (Raise ValueError, tr0) \/ out = (Raise OverflowError, tr0).
Proof.
  intros ->. cbn [plate_saves]. rewrite app_nil_r. destruct e; auto.
Qed.

(** Every run has this shape. *)
Lemma main_shape (get_matrix : string -> list (list bool)) (args : Args)
    (tr : list event) :
  let tr0 := tr ++ [Unlink_glob (output_dir args) "*"; Mkdir (output_dir args);
                    Set_global_fn 100] in
  exists pairs,
    main get_matrix args tr =
      (Ok tt, tr0 ++ plate_saves (output_dir args) 1 pairs
                  ++ [Unlink_glob (output_dir args) "*.scad"])
    \/
    main get_matrix args tr =
      (Raise ZeroDivisionError, tr0 ++ plate_saves (output_dir args) 1 pairs)
    \/
    main get_matrix args tr = (Raise ValueError, tr0)
    \/
    main get_matrix args tr = (Raise OverflowError, tr0).
Proof.
  intros tr0. rewrite main_steps. fold tr0.
  destruct (num_per_row args) as [npr|e];
    [|exists []; right; now apply stops_before_loop with (e := e)].
  destruct (num_per_column args) as [npc|e];
    [|exists []; right; now apply stops_before_loop with (e := e)].
  destruct (main_qr_width args) as [w|e] eqn:Ew.
  - assert (Init : saves_agree args tr0 (mkPlate 0 union_nil union_nil) tr0).
    { exists []. split; [cbn; now rewrite app_nil_r | left; split; reflexivity]. }
    pose proof (for_each_keeps_agreement get_matrix args npr (npr * npc)%Z tr0
                  (py_range (start_index args) (end_index args + 1)) _ _ Init) as Loop.
    destruct (for_each _ _ _ tr0) as [[st|e] tr1].
    + destruct Loop as (pairs & E1 & [[Hz Hp]|Hc]).
      * exists []. left. rewrite Hz. cbn [Z.ltb Z.compare].
        subst pairs. rewrite E1. cbn [plate_saves]. now rewrite <- !app_assoc.
      * exists (pairs ++ [(build_plate_body st, build_plate_colored st)]). left.
        destruct (Z.ltb_spec 0 (current_plate_index st)) as [_|Hle]; [|lia].
        rewrite plate_saves_snoc, E1.
        replace (1 + Z.of_nat (List.length pairs))%Z with (current_plate_index st) by lia.
        now rewrite <- !app_assoc.
    + destruct Loop as ((pairs & E1) & [He|Hr]); [subst e|rewrite Ew in Hr; discriminate].
      exists pairs. right; left. now rewrite E1.
  - destruct (py_range (start_index args) (end_index args + 1)) as [|i rest].
    + exists []. left. reflexivity.
    + destruct (first_iteration_stops get_matrix args npr (npr * npc)%Z tr0 i rest e Ew)
        as (e' & E & He).
      rewrite E. exists []. right.
      destruct He as [He|He]; subst e'; [left; cbn [plate_saves]; now rewrite app_nil_r|].
      right. unfold main_qr_width in Ew. apply py_floor_raises in Ew.
      destruct Ew as [He|He]; subst e; auto.
Qed.

(** X1.  Whatever the arguments and the encoder, a run first clears and
    creates the output directory and sets the resolution, then saves the
    plates 1, 2, ..., m for some m, each as a body mesh directly followed
    by its colored mesh, and nothing else.  It either returns, and then
    removes the scene files last, or stops and leaves them: on
    [ZeroDivisionError], after any number of plates, or on the
    [ValueError] or [OverflowError] of [int] or [math.floor], and then
    before any plate is saved. *)
Theorem every_run_shape (get_matrix : string -> list (list bool)) (args : Args)
    (tr : list event) :
  let tr0 := tr ++ [Unlink_glob (output_dir args) "*"; Mkdir (output_dir args);
                    Set_global_fn 100] in
  exists pairs,
    main get_matrix args tr =
      (Ok tt, tr0 ++ plate_saves (output_dir args) 1 pairs
                  ++ [Unlink_glob (output_dir args) "*.scad"])
    \/
    main get_matrix args tr =
      (Raise ZeroDivisionError, tr0 ++ plate_saves (output_dir args) 1 pairs)
    \/
    main get_matrix args tr = (Raise ValueError, tr0)
    \/
    main get_matrix args tr = (Raise OverflowError, tr0).
Proof. apply main_shape. Qed.

(** ** No file is saved twice *)

Lemma plate_saves_paths (dir : string) (pairs : list (solid * solid)) :
  forall (k : Z) (path : string),
    In path (map fst (exports (plate_saves dir k pairs))) ->
    exists j, (k <= j)%Z
              /\ (path = path_join dir (body_file j) \/ path = path_join dir (colored_file j)).
Proof.
  induction pairs as [|[b c] rest IH]; intros k path H; cbn in H.
  - contradiction.
  - destruct H as [H|[H|H]].
    + exists k. split; [lia | now left].
    + exists k. split; [lia | now right].
    + apply IH in H. destruct H as (j & Hj & H). exists j. split; [lia | exact H].
Qed.

Lemma plate_saves_no_duplicate (dir : string) (pairs : list (solid * solid)) :
  forall k : Z, NoDup (map fst (exports (plate_saves dir k pairs))).
Proof.
  induction pairs as [|[b c] rest IH]; intros k; cbn.
  - constructor.
  - pose proof (export_paths_distinct dir) as Dist.
    constructor; [|constructor; [|apply IH]].
    + intros [H|H].
      * symmetry in H. now apply (Dist k k) in H.
      * apply plate_saves_paths in H. destruct H as (j & Hj & [H|H]).
        -- apply (Dist k j) in H. lia.
        -- now apply (Dist k j) in H.
    + intros H. apply plate_saves_paths in H. destruct H as (j & Hj & [H|H]).
      * symmetry in H. now apply (Dist j k) in H.
      * apply (Dist k j) in H. lia.
Qed.

Lemma exports_app (a b : list event) : exports (a ++ b) = exports a ++ exports b.
Proof. unfold exports. apply flat_map_app. Qed.

(** X2.  Whatever the arguments and the encoder, and also when the run
    stops on an error, no path is saved to twice: a run never overwrites
    a mesh it has written. *)
Theorem no_file_saved_twice (get_matrix : string -> list (list bool)) (args : Args) :
  NoDup (map fst (exports (snd (main get_matrix args [])))).
Proof.
  destruct (main_shape get_matrix args []) as (pairs & [E|[E|[E|E]]]);
    rewrite E; cbn [snd]; rewrite !exports_app;
    change (exports []) with (@nil (string * solid));
    change (exports [Unlink_glob (output_dir args) "*"; Mkdir (output_dir args);
                     Set_global_fn 100]) with (@nil (string * solid));
    change (exports [Unlink_glob (output_dir args) "*.scad"]) with (@nil (string * solid));
    cbn [app]; rewrite ?app_nil_r;
    first [apply plate_saves_no_duplicate | constructor].
Qed.

(** ** Errors before and inside the loop *)

Lemma fl_truediv_zero_divisor (a b : pyfloat) :
  fl_zero b -> fl_truediv a b = Raise ZeroDivisionError.
Proof.
  destruct b as [y|t|]; cbn [fl_zero fl_truediv]; intros H; try contradiction.
  apply Qeq_bool_iff in H. now rewrite H.
Qed.

(** X3.  When the float [token_width + build_plate_spacing] is zero, the
    run raises [ZeroDivisionError] while it counts the tokens per row;
    when the tokens per row are counted and the float
    [token_height + build_plate_spacing] is zero, it raises
    [ZeroDivisionError] while it counts the tokens per column.  Both
    times the output directory has been cleared and created, the loop
    has not started and nothing is saved, whatever the index range. *)
Theorem zero_pitch_run (get_matrix : string -> list (list bool)) (args : Args)
    (tr : list event) :
  (fl_zero (fl_add (py_float (token_width args)) (py_float (build_plate_spacing args))) ->
   main get_matrix args tr =
     (Raise ZeroDivisionError,
      tr ++ [Unlink_glob (output_dir args) "*"; Mkdir (output_dir args); Set_global_fn 100]))
  /\
  (forall npr,
     num_per_row args = Ok npr ->
     fl_zero (fl_add (py_float (token_height args)) (py_float (build_plate_spacing args))) ->
     main get_matrix args tr =
       (Raise ZeroDivisionError,
        tr ++ [Unlink_glob (output_dir args) "*"; Mkdir (output_dir args);
               Set_global_fn 100])).
Proof.
  split.
  - intros H. rewrite main_steps. unfold num_per_row.
    now rewrite (fl_truediv_zero_divisor _ _ H).
  - intros npr Hr H. rewrite main_steps, Hr. unfold num_per_column.
    now rewrite (fl_truediv_zero_divisor _ _ H).
Qed.

(** [--token-width -1] on the command line. *)
Lemma zero_pitch_run_witness :
  main one_module_matrix (parse_args zero_pitch_command_line) [] =
  (Raise ZeroDivisionError, [Unlink_glob "output" "*"; Mkdir "output"; Set_global_fn 100]).
Proof.
  destruct (zero_pitch_run one_module_matrix (parse_args zero_pitch_command_line) [])
    as [H _].
  apply H. vm_compute. reflexivity.
Defined.

(** X4.  [qr_code_to_3d_model] raises exactly when the encoder returns an
    empty matrix (the pixel size is then a division by zero); on every
    other matrix, square or not, it returns a solid. *)
Theorem qr_model_raises_iff_empty (get_matrix : string -> list (list bool))
    (data : string) (qr_width depth : Q) :
  (qr_code_to_3d_model get_matrix data qr_width depth = Raise ZeroDivisionError
   <-> get_matrix data = []) /\
  (get_matrix data <> [] ->
   exists model, qr_code_to_3d_model get_matrix data qr_width depth = Ok model).
Proof.
  unfold qr_code_to_3d_model, qr_matrix_to_3d_model.
  destruct (get_matrix data) as [|row rest].
  - cbn. split; [split; [reflexivity | reflexivity] | intros H; now contradiction H].
  - assert (N : ~ inject_Z (Z.of_nat (List.length (row :: rest))) == 0)
      by (cbn [List.length]; unfold Qeq, inject_Z; cbn [Qnum Qden]; lia).
    rewrite (py_truediv_ok _ _ N). cbn [result_bind].
    split; [split; discriminate | intros _; eexists; reflexivity].
Qed.

(** X5.  When the capacity is not zero, the index range is not empty,
    [math.floor] returns the width of the QR code and the encoder returns
    an empty matrix for the first tag, the run stops on
    [ZeroDivisionError] inside the first iteration and has saved
    nothing. *)
Theorem empty_matrix_run (get_matrix : string -> list (list bool)) (args : Args)
    (npr npc qr_width : Z) (tr : list event) :
  num_per_row args = Ok npr -> num_per_column args = Ok npc ->
  main_qr_width args = Ok qr_width ->
  (npr * npc <> 0)%Z ->
  (start_index args <= end_index args)%Z ->
  get_matrix (tag_text (start_index args)) = [] ->
  main get_matrix args tr =
    (Raise ZeroDivisionError,
     tr ++ [Unlink_glob (output_dir args) "*"; Mkdir (output_dir args); Set_global_fn 100]).
Proof.
  intros Hr Hc Hw Hcap Hrange Hempty. rewrite main_steps, Hr, Hc.
  rewrite py_range_cons by lia. cbn [for_each].
  unfold io_bind at 1. unfold loop_body.
  unfold io_bind at 1. unfold io_lift at 1.
  rewrite py_mod_ok by assumption.
  replace (start_index args - start_index args)%Z with 0%Z by lia.
  rewrite Z.mod_0_l by assumption. cbn [Z.eqb Z.ltb Z.compare current_plate_index].
  unfold io_bind, io_ret, io_lift, qr_code_to_3d_model. rewrite Hw, Hempty.
  reflexivity.
Qed.

(** An encoder that returns nothing. *)
Lemma empty_matrix_run_witness :
  main (fun _ => []) default_args [] =
  (Raise ZeroDivisionError, [Unlink_glob "output" "*"; Mkdir "output"; Set_global_fn 100]).
Proof.
  apply (empty_matrix_run (fun _ => []) default_args 4 4 44 []).
  - vm_compute. reflexivity.
  - vm_compute. reflexivity.
  - vm_compute. reflexivity.
  - lia.
  - cbn. lia.
  - reflexivity.
Defined.

(** ** The errors of [int] and [math.floor] *)

(** A run in which both counts and the width of the QR code are
    computed raises nothing but [ZeroDivisionError]. *)
Lemma main_raises_zero_division (get_matrix : string -> list (list bool)) (args : Args)
    (npr npc w : Z) (tr tr' : list event) (e : exn) :
  num_per_row args = Ok npr -> num_per_column args = Ok npc ->
  main_qr_width args = Ok w ->
  main get_matrix args tr = (Raise e, tr') -> e = ZeroDivisionError.
Proof.
  intros Hr Hc Hw. rewrite main_steps, Hr, Hc.
  set (tr0 := tr ++ [Unlink_glob (output_dir args) "*"; Mkdir (output_dir args);
                     Set_global_fn 100]).
  assert (Init : saves_agree args tr0 (mkPlate 0 union_nil union_nil) tr0).
  { exists []. split; [cbn; now rewrite app_nil_r | left; split; reflexivity]. }
  pose proof (for_each_keeps_agreement get_matrix args npr (npr * npc)%Z tr0
                (py_range (start_index args) (end_index args + 1)) _ _ Init) as Loop.
  destruct (for_each _ _ _ tr0) as [[st|e0] tr1].
  - destruct (0 <? current_plate_index st)%Z; discriminate.
  - intros [= <- _]. destruct Loop as [_ [He|He]]; [exact He|].
    rewrite Hw in He. discriminate.
Qed.

(** X8.  When the token width and the QR border have a magnitude of at
    most [10 ^ 15], [math.floor] returns the width of the QR code, an
    integer of magnitude at most [3 * 10 ^ 15]: the subtraction and the
    product neither overflow nor give a NaN.  A run in which both counts
    are computed then raises nothing but [ZeroDivisionError]. *)
Theorem floor_returns_in_range (get_matrix : string -> list (list bool)) (args : Args) :
  - inject_Z (10 ^ 15) <= token_width args <= inject_Z (10 ^ 15) ->
  - inject_Z (10 ^ 15) <= qr_border args <= inject_Z (10 ^ 15) ->
  (exists w, main_qr_width args = Ok w /\ (- (3 * 10 ^ 15) <= w <= 3 * 10 ^ 15)%Z) /\
  (forall npr npc tr tr' e,
     num_per_row args = Ok npr -> num_per_column args = Ok npc ->
     main get_matrix args tr = (Raise e, tr') -> e = ZeroDivisionError).
Proof.
  intros Hw Hb.
  destruct (main_qr_width_returns args Hw Hb) as (w & Ew & Bw).
  split; [now exists w|].
  intros npr npc tr tr' e Hr Hc.
  now apply (main_raises_zero_division get_matrix args npr npc w).
Qed.

(** The default arguments: the QR code is 44 wide. *)
Lemma floor_returns_in_range_witness :
  exists w, main_qr_width default_args = Ok w /\ (- (3 * 10 ^ 15) <= w <= 3 * 10 ^ 15)%Z.
Proof.
  assert (Hw : - inject_Z (10 ^ 15) <= token_width default_args <= inject_Z (10 ^ 15))
    by (split; vm_compute; discriminate).
  assert (Hb : - inject_Z (10 ^ 15) <= qr_border default_args <= inject_Z (10 ^ 15))
    by (split; vm_compute; discriminate).
  destruct (floor_returns_in_range one_module_matrix default_args Hw Hb) as [H _].
  exact H.
Defined.

(** ** One cube per black module *)

Lemma tag_count_qr_row_loop (pixel_size depth : Q) (y : Z) (row : list bool) :
  forall (x : Z) (model : solid),
    tag_count (qr_row_loop pixel_size depth y x row model) =
    (List.length (filter (fun cell => cell) row) + tag_count model)%nat.
Proof.
  induction row as [|cell rest IH]; intros x model; cbn [qr_row_loop filter].
  - reflexivity.
  - rewrite IH. destruct cell; cbn [tag_count List.length]; lia.
Qed.

Lemma tag_count_qr_matrix_loop (pixel_size depth : Q) (matrix : list (list bool)) :
  forall (y : Z) (model : solid),
    tag_count (qr_matrix_loop pixel_size depth y matrix model) =
    (count_true matrix + tag_count model)%nat.
Proof.
  induction matrix as [|row rest IH]; intros y model;
    cbn [qr_matrix_loop count_true fold_right].
  - reflexivity.
  - rewrite IH, tag_count_qr_row_loop. fold (count_true rest). lia.
Qed.

(** X6.  On a non-empty matrix the relief is, under its colour, a union
    that has received exactly one cube per true cell: as many [+=] as the
    matrix has true cells, none for a false cell. *)
Theorem one_cube_per_module (matrix : list (list bool)) (qr_width depth : Q) :
  matrix <> [] ->
  exists body,
    qr_matrix_to_3d_model matrix qr_width depth = Ok (color "black" body) /\
    tag_count body = count_true matrix.
Proof.
  intros Hne. unfold qr_matrix_to_3d_model.
  assert (N : ~ inject_Z (Z.of_nat (List.length matrix)) == 0).
  { destruct matrix as [|row rest]; [contradiction|].
    cbn [List.length]. unfold Qeq, inject_Z. cbn [Qnum Qden]. lia. }
  rewrite (py_truediv_ok _ _ N). cbn [result_bind].
  eexists. split; [reflexivity|].
  rewrite tag_count_qr_matrix_loop. cbn [tag_count]. lia.
Qed.

Lemma one_cube_per_module_witness :
  exists body,
    qr_matrix_to_3d_model [[true; false; true]; [false; false; true]] 9 1
    = Ok (color "black" body)
    /\ tag_count body = 3%nat.
Proof.
  apply (one_cube_per_module [[true; false; true]; [false; false; true]] 9 1).
  discriminate.
Defined.

(** ** Tag texts *)

(** X7.  Different indices give different tag texts: the payload of the
    QR code and the printed label identify the index. *)
Theorem tag_text_injective (i j : Z) : tag_text i = tag_text j <-> i = j.
Proof.
  split; [|now intros ->].
  unfold tag_text. intros H. apply append_cancel_l in H. now apply py_str_injective.
Qed.

(** ** The grid on the build plate *)

(** The row and the column of a position, as rationals, lie in the grid. *)
Lemma slot_bounds (npr npc p : Z) :
  (1 <= npr)%Z -> (1 <= npc)%Z ->
  let position_index := (p mod (npr * npc))%Z in
  (0 <= inject_Z (position_index mod npr)
   /\ inject_Z (position_index mod npr) + 1 <= inject_Z npr) /\
  (0 <= inject_Z (position_index / npr)
   /\ inject_Z (position_index / npr) + 1 <= inject_Z npc).
Proof.
  intros Hr Hc position_index.
  pose proof (Z.mod_pos_bound p (npr * npc) ltac:(nia)) as B. fold position_index in B.
  pose proof (Z.mod_pos_bound position_index npr ltac:(lia)) as Bc.
  assert (Br : (0 <= position_index / npr < npc)%Z).
  { split; [apply Z.div_pos; lia | apply Z.div_lt_upper_bound; lia]. }
  change 0 with (inject_Z 0). change 1 with (inject_Z 1).
  rewrite <- !inject_Z_plus, <- !Zle_Qle. lia.
Qed.

Section OnThePlate.

Variable glyphs : string -> Q -> string -> string -> string -> Q -> Q -> Prop.
Variable get_matrix : string -> list (list bool).

(** The rounded body lies in the box of its nominal size. *)
Lemma combined_shape_in_box (w h d r : Q) :
  0 <= r -> 2 * r <= w -> 2 * r <= h ->
  subset (denote glyphs (combined_shape w h d r)) (in_box (0, 0, 0) (w, h, d)).
Proof.
  intros Hr Hw Hh p Hp. apply denote_combined_shape in Hp.
  destruct Hp as [Hp|[Hp|[Hp|[Hp|Hp]]]];
    try (now apply (edge_panel_in_box w h d r) in Hp).
  destruct p as [[x y] z]. unfold core_prism in Hp. cbn in *. lra.
Qed.

(** The carved body of a tag lies in the box of the token. *)
Lemma tag_body_in_box (args : Args) (i : Z) :
  0 <= token_corner_radius args ->
  2 * token_corner_radius args <= token_width args ->
  2 * token_corner_radius args <= token_height args ->
  subset (denote glyphs (tag_body get_matrix args i))
         (in_box (0, 0, 0)
            (token_width args, token_height args, token_depth args - (1 # 100000))).
Proof.
  intros Hr Hw Hh p Hp. unfold tag_body in Hp. cbn [denote] in Hp.
  destruct Hp as [[Hp _] _]. now apply combined_shape_in_box in Hp.
Qed.

(** The body of the tag at position [p] lies in its grid cell. *)
Lemma placed_body_in_cell (args : Args) (npr tpp p : Z) (x y z : Q) :
  0 <= token_corner_radius args ->
  2 * token_corner_radius args <= token_width args ->
  2 * token_corner_radius args <= token_height args ->
  denote glyphs (placed_body get_matrix args npr tpp p) (x, y, z) ->
  let dx := x_offset args ((p mod tpp) mod npr) in
  let dy := y_offset args ((p mod tpp) / npr) in
  dx <= x <= dx + token_width args /\ dy <= y <= dy + token_height args
  /\ 0 <= z <= token_depth args - (1 # 100000).
Proof.
  intros Hr Hw Hh Hp dx dy. unfold placed_body, placed in Hp. cbn [denote moved] in Hp.
  apply (tag_body_in_box args _ Hr Hw Hh) in Hp. fold dx dy in Hp. cbn in Hp. lra.
Qed.

End OnThePlate.

Lemma slot_injective (npr npc p q : Z) :
  (1 <= npr)%Z -> (1 <= npc)%Z -> (0 <= p)%Z -> (0 <= q)%Z ->
  let c := (npr * npc)%Z in
  (p / c = q / c)%Z ->
  ((p mod c) / npr = (q mod c) / npr)%Z ->
  ((p mod c) mod npr = (q mod c) mod npr)%Z ->
  p = q.
Proof.
  intros Hr Hc Hp Hq c E1 E2 E3.
  assert (Hcap : (1 <= c)%Z) by (unfold c; nia).
  pose proof (Z.div_mod p c ltac:(lia)) as Dp.
  pose proof (Z.div_mod q c ltac:(lia)) as Dq.
  pose proof (Z.div_mod (p mod c) npr ltac:(lia)) as Mp.
  pose proof (Z.div_mod (q mod c) npr ltac:(lia)) as Mq.
  rewrite E2, E3 in Mp. rewrite <- Mq in Mp.
  rewrite E1, Mp in Dp. lia.
Qed.

(** X9.  With positive plate dimensions, capacity at least 1 and a corner
    radius between 0 and half the token's width and height, the carved
    body of every tag lies inside the grid of [num_per_row] by
    [num_per_column] pitches: inside
    [0 .. num_per_row * (token_width + spacing) - spacing] by
    [0 .. num_per_column * (token_height + spacing) - spacing], and
    between the base plane and the body depth. *)
Theorem bodies_inside_the_grid
    (glyphs : string -> Q -> string -> string -> string -> Q -> Q -> Prop)
    (get_matrix : string -> list (list bool)) (args : Args) (npr npc p : Z) :
  plate_config_positive args ->
  num_per_row args = Ok npr -> num_per_column args = Ok npc ->
  (1 <= npr * npc)%Z ->
  0 <= token_corner_radius args ->
  2 * token_corner_radius args <= token_width args ->
  2 * token_corner_radius args <= token_height args ->
  subset (denote glyphs (placed_body get_matrix args npr (npr * npc) p))
         (in_box (0, 0, 0)
            (inject_Z npr * (token_width args + build_plate_spacing args)
             - build_plate_spacing args,
             inject_Z npc * (token_height args + build_plate_spacing args)
             - build_plate_spacing args,
             token_depth args - (1 # 100000))).
Proof.
  intros Hpos Hnr Hnc Hcap Hr Hw Hh [[x y] z] Hp.
  destruct (counts_positive args npr npc Hpos Hnr Hnc Hcap) as [H1r H1c].
  destruct (slot_bounds npr npc p H1r H1c) as [[C0 C1] [R0 R1]].
  apply (placed_body_in_cell glyphs get_matrix args npr (npr * npc) p x y z Hr Hw Hh) in Hp.
  unfold x_offset, y_offset in Hp.
  unfold plate_config_positive in Hpos. destruct Hpos as (Hpw & Hph & Hs & Htw & Hth).
  set (col := inject_Z ((p mod (npr * npc)) mod npr)) in *.
  set (row := inject_Z ((p mod (npr * npc)) / npr)) in *.
  set (pitch_x := token_width args + build_plate_spacing args) in *.
  set (pitch_y := token_height args + build_plate_spacing args) in *.
  assert (0 < pitch_x) by (unfold pitch_x; lra).
  assert (0 < pitch_y) by (unfold pitch_y; lra).
  assert (0 <= col * pitch_x) by nra.
  assert (0 <= row * pitch_y) by nra.
  assert (col * pitch_x + pitch_x <= inject_Z npr * pitch_x) by nra.
  assert (row * pitch_y + pitch_y <= inject_Z npc * pitch_y) by nra.
  cbn. unfold pitch_x, pitch_y in *. lra.
Qed.

(** The first tag of a default run. *)
Lemma bodies_inside_the_grid_witness :
  subset (denote square_glyphs (placed_body one_module_matrix default_args 4 (4 * 4) 0))
         (in_box (0, 0, 0)
            (inject_Z 4 * (50 + 1) - 1, inject_Z 4 * (60 + 1) - 1, 3 - (1 # 100000))).
Proof.
  assert (Hpos : plate_config_positive default_args) by (repeat split; reflexivity).
  assert (Hr : num_per_row default_args = Ok 4%Z) by (vm_compute; reflexivity).
  assert (Hc : num_per_column default_args = Ok 4%Z) by (vm_compute; reflexivity).
  assert (Hcap : (1 <= 4 * 4)%Z) by lia.
  assert (R0 : 0 <= token_corner_radius default_args) by (cbn; lra).
  assert (R1 : 2 * token_corner_radius default_args <= token_width default_args)
    by (cbn; lra).
  assert (R2 : 2 * token_corner_radius default_args <= token_height default_args)
    by (cbn; lra).
  exact (bodies_inside_the_grid square_glyphs one_module_matrix default_args 4 4 0
           Hpos Hr Hc Hcap R0 R1 R2).
Defined.

(** X10.  With positive plate dimensions, capacity at least 1 and a
    corner radius between 0 and half the token's width and height, the
    carved bodies of two different tags of one plate have no point in
    common. *)
Theorem bodies_do_not_overlap
    (glyphs : string -> Q -> string -> string -> string -> Q -> Q -> Prop)
    (get_matrix : string -> list (list bool)) (args : Args) (npr npc p q : Z) :
  plate_config_positive args ->
  num_per_row args = Ok npr -> num_per_column args = Ok npc ->
  (1 <= npr * npc)%Z ->
  0 <= token_corner_radius args ->
  2 * token_corner_radius args <= token_width args ->
  2 * token_corner_radius args <= token_height args ->
  (0 <= p)%Z -> (0 <= q)%Z -> p <> q ->
  (p / (npr * npc) = q / (npr * npc))%Z ->
  forall pt,
    ~ (denote glyphs (placed_body get_matrix args npr (npr * npc) p) pt
       /\ denote glyphs (placed_body get_matrix args npr (npr * npc) q) pt).
Proof.
  intros Hpos Hnr Hnc Hcap Hr Hw Hh Hp Hq Hne Hplate [[x y] z] [Bp Bq].
  destruct (counts_positive args npr npc Hpos Hnr Hnc Hcap) as [H1r H1c].
  apply (placed_body_in_cell glyphs get_matrix args npr (npr * npc) p x y z Hr Hw Hh) in Bp.
  apply (placed_body_in_cell glyphs get_matrix args npr (npr * npc) q x y z Hr Hw Hh) in Bq.
  unfold x_offset, y_offset in Bp, Bq.
  unfold plate_config_positive in Hpos. destruct Hpos as (Hpw & Hph & Hs & Htw & Hth).
  set (cp := ((p mod (npr * npc)) mod npr)%Z) in *.
  set (cq := ((q mod (npr * npc)) mod npr)%Z) in *.
  set (rp := ((p mod (npr * npc)) / npr)%Z) in *.
  set (rq := ((q mod (npr * npc)) / npr)%Z) in *.
  set (pitch_x := token_width args + build_plate_spacing args) in *.
  set (pitch_y := token_height args + build_plate_spacing args) in *.
  assert (Far : forall a b : Z, forall pitch size lo : Q,
            (a < b)%Z -> size < pitch ->
            inject_Z a * pitch <= lo <= inject_Z a * pitch + size ->
            inject_Z b * pitch <= lo <= inject_Z b * pitch + size -> False).
  { intros a b pitch size lo Hab Hsize Ha Hb.
    assert (inject_Z a + 1 <= inject_Z b)
      by (change 1 with (inject_Z 1); rewrite <- inject_Z_plus, <- Zle_Qle; lia).
    nra. }
  assert (Sx : token_width args < pitch_x) by (unfold pitch_x; lra).
  assert (Sy : token_height args < pitch_y) by (unfold pitch_y; lra).
  destruct (Z.lt_total cp cq) as [L|[E|L]].
  - apply (Far cp cq pitch_x (token_width args) x L Sx); tauto.
  - destruct (Z.lt_total rp rq) as [L'|[E'|L']].
    + apply (Far rp rq pitch_y (token_height args) y L' Sy); tauto.
    + apply Hne. now apply (slot_injective npr npc p q).
    + apply (Far rq rp pitch_y (token_height args) y L' Sy); tauto.
  - apply (Far cq cp pitch_x (token_width args) x L Sx); tauto.
Qed.

(** The bodies of the first two tags of a default run. *)
Lemma bodies_do_not_overlap_witness :
  ~ (denote square_glyphs (placed_body one_module_matrix default_args 4 (4 * 4) 0) (50, 4, 0)
     /\ denote square_glyphs (placed_body one_module_matrix default_args 4 (4 * 4) 1)
          (50, 4, 0)).
Proof.
  assert (Hpos : plate_config_positive default_args) by (repeat split; reflexivity).
  assert (Hr : num_per_row default_args = Ok 4%Z) by (vm_compute; reflexivity).
  assert (Hc : num_per_column default_args = Ok 4%Z) by (vm_compute; reflexivity).
  assert (Hcap : (1 <= 4 * 4)%Z) by lia.
  assert (R0 : 0 <= token_corner_radius default_args) by (cbn; lra).
  assert (R1 : 2 * token_corner_radius default_args <= token_width default_args)
    by (cbn; lra).
  assert (R2 : 2 * token_corner_radius default_args <= token_height default_args)
    by (cbn; lra).
  apply (bodies_do_not_overlap square_glyphs one_module_matrix default_args 4 4 0 1
           Hpos Hr Hc Hcap R0 R1 R2); try lia. reflexivity.
Defined.

(** ** The hole goes through *)

(** X11.  For a corner radius between 0 and half the width and height,
    the subtracted cylinder spans the whole thickness of the body:
    nothing of the returned body is left above or below the disc of
    radius [hole_radius] round
    [(width - hole_offset - hole_radius, height - hole_offset - 2 * hole_radius + 1)]. *)
Theorem hole_goes_through
    (glyphs : string -> Q -> string -> string -> string -> Q -> Q -> Prop)
    (width height depth radius hole_radius hole_offset : Q) :
  0 <= radius -> 2 * radius <= width -> 2 * radius <= height ->
  exists body,
    create_keychain_body width height depth radius hole_radius hole_offset = Ok body /\
    forall x y z,
      denote glyphs body (x, y, z) ->
      let cx := width - hole_offset - hole_radius in
      let cy := height - hole_offset - hole_radius * 2 + 1 in
      hole_radius * hole_radius < (x - cx) * (x - cx) + (y - cy) * (y - cy).
Proof.
  intros Hr Hw Hh. eexists. split; [reflexivity|].
  intros x y z H cx cy. cbn [denote] in H. destruct H as [Hbody Hhole].
  apply (combined_shape_in_box glyphs width height depth radius Hr Hw Hh) in Hbody.
  apply Qnot_le_lt. intros Hdisc. apply Hhole.
  apply denote_keychain_hole. cbn in Hbody. cbn. split; [|lra].
  eapply Qle_trans; [|exact Hdisc]. apply Qle_lteq. right. unfold cx, cy. ring.
Qed.

Lemma hole_goes_through_witness :
  exists body,
    create_keychain_body 50 60 3 4 3 3 = Ok body /\
    forall x y z,
      denote square_glyphs body (x, y, z) ->
      3 * 3 < (x - (50 - 3 - 3)) * (x - (50 - 3 - 3))
              + (y - (60 - 3 - 3 * 2 + 1)) * (y - (60 - 3 - 3 * 2 + 1)).
Proof.
  assert (R0 : 0 <= 4) by lra.
  assert (R1 : 2 * 4 <= 50) by lra.
  assert (R2 : 2 * 4 <= 60) by lra.
  exact (hole_goes_through square_glyphs 50 60 3 4 3 3 R0 R1 R2).
Defined.

(** ** The overlays *)

Section Overlays.

Variable glyphs : string -> Q -> string -> string -> string -> Q -> Q -> Prop.
Variable get_matrix : string -> list (list bool).

(** The QR relief of a tag is made of module prisms. *)
Lemma denote_tag_qr_model (args : Args) (i : Z) (p : point) :
  denote glyphs (tag_qr_model get_matrix args i) p ->
  exists row col,
    cell_at (get_matrix (tag_text i)) row col = true /\
    module_prism
      (inject_Z (tag_qr_width args)
       / inject_Z (Z.of_nat (List.length (get_matrix (tag_text i)))))
      (colored_print_depth args) row col p.
Proof.
  unfold tag_qr_model. cbn [denote]. change 0%Z with (Z.of_nat 0).
  rewrite denote_qr_matrix_loop. cbn [denote Nat.add]. tauto.
Qed.

Lemma tag_qr_model_height (args : Args) (i : Z) (x y z : Q) :
  denote glyphs (tag_qr_model get_matrix args i) (x, y, z) ->
  0 <= z <= colored_print_depth args.
Proof.
  intros H. apply denote_tag_qr_model in H. destruct H as (row & col & _ & H).
  unfold module_prism in H. cbn in H. lra.
Qed.

Lemma add_text_height (data : string) (size depth x y z : Q) :
  denote glyphs (add_text data size depth) (x, y, z) -> 0 <= z <= depth.
Proof. unfold add_text. cbn. intros [_ H]. exact H. Qed.

(** On a square matrix the QR relief lies in the square of its width
    (and is empty when that width is negative). *)
Lemma tag_qr_model_in_box (args : Args) (i : Z) (n : nat) :
  square n (get_matrix (tag_text i)) -> (1 <= n)%nat ->
  let qr_width := inject_Z (tag_qr_width args) in
  subset (denote glyphs (tag_qr_model get_matrix args i))
         (in_box (0, 0, 0) (qr_width, qr_width, colored_print_depth args)).
Proof.
  intros Hsq Hn qr_width p Hp.
  apply denote_tag_qr_model in Hp. destruct Hp as (row & col & Hcell & Hp).
  destruct (cell_at_inside n _ row col Hsq Hcell) as [Hrow Hcol].
  destruct Hsq as [Hlen _]. rewrite Hlen in Hp. fold qr_width in Hp.
  assert (HN : 0 < inject_Z (Z.of_nat n))
    by (change 0 with (inject_Z 0); rewrite <- Zlt_Qlt; lia).
  destruct (Qlt_le_dec qr_width 0) as [Hneg|HW].
  - exfalso.
    assert (Hs : qr_width / inject_Z (Z.of_nat n) < 0).
    { apply Qlt_shift_div_r; lra. }
    destruct p as [[x y] z]. unfold module_prism in Hp. cbn in Hp. lra.
  - apply (module_prism_in_box (qr_width / inject_Z (Z.of_nat n)) (colored_print_depth args)
             qr_width n row col); try assumption.
    + apply Qle_shift_div_l; lra.
    + field. lra.
Qed.

End Overlays.

(** X12.  For every tag the colored overlay lies in two layers: every
    point of the front overlay is between [token_depth - colored_print_depth]
    and [token_depth], every point of the back overlay between the base
    plane and [colored_print_depth]; when the token is more than twice as
    thick as the print depth the two overlays have no point in common. *)
Theorem overlay_layers
    (glyphs : string -> Q -> string -> string -> string -> Q -> Q -> Prop)
    (get_matrix : string -> list (list bool)) (args : Args) (i : Z) (text_offset : Q) :
  let qr_model := tag_qr_model get_matrix args i in
  let text_model := add_text (tag_text i) (text_size args) (colored_print_depth args) in
  let front := denote glyphs (front_colored qr_model text_model args text_offset) in
  let back := denote glyphs (back_colored qr_model text_model args text_offset) in
  (forall x y z,
     front (x, y, z) ->
     token_depth args - colored_print_depth args <= z <= token_depth args) /\
  (forall x y z, back (x, y, z) -> 0 <= z <= colored_print_depth args) /\
  (forall x y z,
     denote glyphs (tag_colored get_matrix args i) (x, y, z) ->
     token_depth args - colored_print_depth args <= z <= token_depth args
     \/ 0 <= z <= colored_print_depth args) /\
  (2 * colored_print_depth args < token_depth args ->
   forall p, ~ (front p /\ back p)).
Proof.
  intros qr_model text_model front back.
  assert (F : forall off x y z,
            denote glyphs (front_colored qr_model text_model args off) (x, y, z) ->
            token_depth args - colored_print_depth args <= z <= token_depth args).
  { intros off x y z H. unfold front_colored in H. cbn [denote up forward right moved] in H.
    destruct H as [H|H].
    - apply tag_qr_model_height in H. lra.
    - apply add_text_height in H. lra. }
  assert (B : forall off x y z,
            denote glyphs (back_colored qr_model text_model args off) (x, y, z) ->
            0 <= z <= colored_print_depth args).
  { intros off x y z H. unfold back_colored in H. cbn [denote forward left moved] in H.
    destruct H as [H|H].
    - apply tag_qr_model_height in H. lra.
    - apply add_text_height in H. lra. }
  split; [apply F|]. split; [apply B|]. split.
  - intros x y z H. unfold tag_colored, assemble_colored_components in H.
    cbn [denote] in H. destruct H as [H|H]; [left; now apply F in H | right; now apply B in H].
  - intros Hthick [[x y] z] [Hf Hb]. apply F in Hf. apply B in Hb. lra.
Qed.

(** X13.  When the encoder returns an [n] by [n] matrix ([n >= 1]) and
    the width [math.floor] returns for the QR code is at most
    [token_width - 2 * qr_border], the QR relief of the front overlay and
    the mirrored QR relief of the back overlay both stay [qr_border] away
    from the left and right edges of the token and from its lower edge:
    [qr_border <= x <= token_width - qr_border] and
    [qr_border <= y <= token_width - qr_border]. *)
Theorem qr_keeps_its_border
    (glyphs : string -> Q -> string -> string -> string -> Q -> Q -> Prop)
    (get_matrix : string -> list (list bool)) (args : Args) (i : Z) (n : nat)
    (qr_width : Z) :
  square n (get_matrix (tag_text i)) -> (1 <= n)%nat ->
  main_qr_width args = Ok qr_width ->
  inject_Z qr_width <= token_width args - qr_border args * 2 ->
  let qr_model := tag_qr_model get_matrix args i in
  (forall x y z,
     denote glyphs
       (up (token_depth args - colored_print_depth args)
          (forward (qr_border args) (right (qr_border args) qr_model))) (x, y, z) ->
     qr_border args <= x <= token_width args - qr_border args
     /\ qr_border args <= y <= token_width args - qr_border args) /\
  (forall x y z,
     denote glyphs
       (mirrorX (forward (qr_border args)
                   (left (token_width args - qr_border args) qr_model))) (x, y, z) ->
     qr_border args <= x <= token_width args - qr_border args
     /\ qr_border args <= y <= token_width args - qr_border args).
Proof.
  intros Hsq Hn Hw Hb qr_model.
  pose proof (tag_qr_model_in_box glyphs get_matrix args i n Hsq Hn) as Box.
  cbn zeta in Box. unfold tag_qr_width in Box. rewrite Hw in Box.
  split; intros x y z H; cbn [denote up forward right left moved] in H;
    apply Box in H; cbn in H; lra.
Qed.

(** A two by two matrix on the default token. *)
Lemma qr_keeps_its_border_witness :
  subset
    (denote square_glyphs
       (mirrorX (forward 3 (left (50 - 3)
                   (tag_qr_model (fun _ => [[true; false]; [false; true]]) default_args 1)))))
    (fun p => 3 <= fst (fst p) <= 50 - 3 /\ 3 <= snd (fst p) <= 50 - 3).
Proof.
  assert (Hsq : square 2 ((fun _ : string => [[true; false]; [false; true]]) (tag_text 1)))
    by (split; [reflexivity | repeat constructor]).
  assert (Hn : (1 <= 2)%nat) by lia.
  assert (Hw : main_qr_width default_args = Ok 44%Z) by (vm_compute; reflexivity).
  assert (Hb : inject_Z 44 <= token_width default_args - qr_border default_args * 2)
    by (unfold Qle; cbn; lia).
  destruct (qr_keeps_its_border square_glyphs (fun _ => [[true; false]; [false; true]])
              default_args 1 2 44 Hsq Hn Hw Hb) as [_ H].
  intros [[x y] z] Hp. exact (H x y z Hp).
Defined.

(** ** Runs from the command line *)

Lemma exports_plate_exports_length (get_matrix : string -> list (list bool)) (args : Args)
    (npr tpp n : Z) (ks : list Z) :
  List.length (exports (flat_map (plate_exports get_matrix args npr tpp n) ks))
  = (2 * List.length ks)%nat.
Proof.
  induction ks as [|k rest IH]; [reflexivity|].
  cbn [flat_map]. rewrite exports_app, length_app, IH.
  unfold plate_exports. cbn [exports flat_map app List.length]. lia.
Qed.

(** A run with capacity zero over a non-empty range. *)
Lemma main_zero_capacity (get_matrix : string -> list (list bool)) (args : Args)
    (npr npc : Z) (tr : list event) :
  num_per_row args = Ok npr -> num_per_column args = Ok npc ->
  (npr * npc = 0)%Z -> (start_index args <= end_index args)%Z ->
  main get_matrix args tr =
    (Raise ZeroDivisionError,
     tr ++ [Unlink_glob (output_dir args) "*"; Mkdir (output_dir args); Set_global_fn 100]).
Proof.
  intros Hr Hc Hz Hrange. rewrite main_steps, Hr, Hc, Hz.
  rewrite py_range_cons by lia. cbn [for_each].
  unfold io_bind at 1. unfold loop_body.
  unfold io_bind at 1. unfold io_lift at 1. unfold py_mod. cbn [Z.eqb].
  reflexivity.
Qed.

Lemma py_float_254 : py_float 254 = Finite 254.
Proof. vm_compute. reflexivity. Qed.

Lemma py_float_1 : py_float 1 = Finite 1.
Proof. vm_compute. reflexivity. Qed.

(** On the plate of the command line, 254 with spacing 1, a token size
    between 0 and 253 gives a count between 1 and 254. *)
Lemma count_at_least_one (t : Q) :
  0 < t <= 253 ->
  exists c,
    result_bind (fl_truediv (py_float 254) (fl_add (py_float t) (py_float 1))) py_int = Ok c
    /\ (1 <= c <= 254)%Z.
Proof.
  intros [H0 H1]. rewrite py_float_254, py_float_1.
  destruct (round64_between t 0 253 0) as (t' & Et & Lt & Ut);
    try lia; try reflexivity.
  { change (inject_Z (2 ^ 0)) with 1. change (inject_Z 0) with 0. lra. }
  { change (inject_Z (2 ^ 0)) with 1. change (inject_Z 253) with 253. lra. }
  change (inject_Z (2 ^ 0)) with 1 in Lt, Ut.
  change (inject_Z 0) with 0 in Lt. change (inject_Z 253) with 253 in Ut.
  unfold py_float at 1. rewrite Et. cbn [fl_add].
  destruct (round64_between (t' + 1) 1 254 0) as (s & Es & Ls & Us);
    try lia; try reflexivity.
  { change (inject_Z (2 ^ 0)) with 1. change (inject_Z 1) with 1. lra. }
  { change (inject_Z (2 ^ 0)) with 1. change (inject_Z 254) with 254. lra. }
  change (inject_Z (2 ^ 0)) with 1 in Ls, Us.
  change (inject_Z 1) with 1 in Ls. change (inject_Z 254) with 254 in Us.
  rewrite Es. cbn [fl_truediv].
  destruct (Qeq_bool s 0) eqn:Z0; [apply Qeq_bool_iff in Z0; lra|].
  assert (Q1 : 1 <= 254 / s) by (apply Qle_shift_div_l; lra).
  assert (Q2 : 254 / s <= 254) by (apply Qle_shift_div_r; lra).
  destruct (round64_between (254 / s) 1 254 0) as (c & Ec & Lc & Uc);
    try lia; try reflexivity.
  { change (inject_Z (2 ^ 0)) with 1. change (inject_Z 1) with 1. lra. }
  { change (inject_Z (2 ^ 0)) with 1. change (inject_Z 254) with 254. lra. }
  change (inject_Z (2 ^ 0)) with 1 in Lc, Uc.
  change (inject_Z 1) with 1 in Lc. change (inject_Z 254) with 254 in Uc.
  rewrite Ec. cbn [result_bind].
  destruct (py_int_floor (Finite c) (Z.quot (Qnum c) (Zpos (Qden c)))) as [F _];
    [cbn; lra | reflexivity |].
  cbn [py_floor] in F. injection F as F.
  exists (Z.quot (Qnum c) (Zpos (Qden c))). split; [reflexivity|]. rewrite <- F.
  split.
  - apply (Qfloor_resp_le 1). lra.
  - apply (Qfloor_resp_le c 254). lra.
Qed.

(** On the same plate a token size of at least 254 gives the count 0. *)
Lemma count_zero (t : Q) :
  254 <= t ->
  result_bind (fl_truediv (py_float 254) (fl_add (py_float t) (py_float 1))) py_int
  = Ok 0%Z.
Proof.
  intros H. rewrite py_float_254, py_float_1.
  assert (At : fl_at_least (round64 t) (inject_Z 254))
    by (apply round64_at_least; [split; [lia | reflexivity] | exact H]).
  unfold py_float.
  destruct (round64 t) as [t'|neg|]; cbn [fl_at_least] in At;
    [|subst neg; reflexivity|contradiction].
  change (inject_Z 254) with 254 in At. cbn [fl_add].
  assert (As : fl_at_least (round64 (t' + 1)) (inject_Z 255)).
  { apply round64_at_least; [split; [lia | reflexivity]|].
    change (inject_Z 255) with 255. lra. }
  destruct (round64 (t' + 1)) as [s|neg|]; cbn [fl_at_least] in As;
    [|subst neg; reflexivity|contradiction].
  change (inject_Z 255) with 255 in As. cbn [fl_truediv].
  destruct (Qeq_bool s 0) eqn:Z0; [apply Qeq_bool_iff in Z0; lra|].
  assert (Q1 : 0 <= 254 / s) by (apply Qle_shift_div_l; lra).
  assert (Q2 : 254 / s <= 255 # 256) by (apply Qle_shift_div_r; lra).
  destruct (round64_between (254 / s) 0 255 8) as (c & Ec & Lc & Uc);
    try lia; try reflexivity.
  { change (inject_Z (2 ^ 8)) with 256. change (inject_Z 0) with 0. lra. }
  { change (inject_Z (2 ^ 8)) with 256. change (inject_Z 255) with 255. lra. }
  change (inject_Z (2 ^ 8)) with 256 in Lc, Uc.
  change (inject_Z 0) with 0 in Lc. change (inject_Z 255) with 255 in Uc.
  rewrite Ec. cbn [result_bind].
  destruct (py_int_floor (Finite c) (Z.quot (Qnum c) (Zpos (Qden c)))) as [F F0];
    [cbn; lra | reflexivity |].
  cbn [py_floor] in F. injection F as F.
  cbn [py_int]. f_equal.
  pose proof (Qfloor_le c) as Fl.
  assert (Hlt : inject_Z (Qfloor c) < inject_Z 1) by (change (inject_Z 1) with 1; lra).
  rewrite <- Zlt_Qlt in Hlt. lia.
Qed.

(** X14.  From the command line the build plate is always 254 by 254
    with spacing 1.  For every command line whose token width and height
    (given or default) are positive and at most 253, both counts are
    between 1 and 254; when moreover the QR border has a magnitude of at
    most [10 ^ 15], the run returns without raising and, over a
    non-empty index range of [n] tags, saves [2 * ceil(n / c)] meshes,
    [c] being the capacity. *)
Theorem command_line_run (get_matrix : string -> list (list bool)) (cl : CommandLine) :
  (forall data, get_matrix data <> []) ->
  let args := parse_args cl in
  0 < token_width args <= 253 -> 0 < token_height args <= 253 ->
  exists npr npc,
    num_per_row args = Ok npr /\ num_per_column args = Ok npc /\
    (1 <= npr <= 254)%Z /\ (1 <= npc <= 254)%Z /\
    (- inject_Z (10 ^ 15) <= qr_border args <= inject_Z (10 ^ 15) ->
     fst (main get_matrix args []) = Ok tt /\
     ((start_index args <= end_index args)%Z ->
      Z.of_nat (List.length (exports (snd (main get_matrix args []))))
      = (2 * plate_count (end_index args - start_index args + 1) (npr * npc))%Z)).
Proof.
  intros Hne args Hw Hh.
  destruct (count_at_least_one (token_width args) Hw) as (npr & Hr & Br).
  destruct (count_at_least_one (token_height args) Hh) as (npc & Hc & Bc).
  change (num_per_row args = Ok npr) in Hr.
  change (num_per_column args = Ok npc) in Hc.
  assert (Hcap : (1 <= npr * npc)%Z) by nia.
  exists npr, npc. repeat (split; [assumption|]).
  intros Hb.
  assert (K : 0 <= inject_Z (10 ^ 15)) by (vm_compute; discriminate).
  assert (K' : 253 <= inject_Z (10 ^ 15)) by (vm_compute; discriminate).
  destruct (main_qr_width_returns args ltac:(lra) Hb) as (qr_width & Hq & _).
  destruct (Z.le_gt_cases (start_index args) (end_index args)) as [Hrange|Hempty].
  - rewrite (main_trace get_matrix Hne args qr_width Hq npr npc Hr Hc [] Hcap Hrange).
    split; [reflexivity|]. intros _. cbn [snd].
    rewrite !exports_app.
    change (exports []) with (@nil (string * solid)).
    change (exports [Unlink_glob (output_dir args) "*"; Mkdir (output_dir args);
                     Set_global_fn 100]) with (@nil (string * solid)).
    change (exports [Unlink_glob (output_dir args) "*.scad"]) with (@nil (string * solid)).
    cbn [app]. rewrite app_nil_r, exports_plate_exports_length, py_range_length.
    assert (1 <= plate_count (end_index args - start_index args + 1) (npr * npc))%Z.
    { rewrite plate_count_pred by assumption.
      assert (0 <= (end_index args - start_index args + 1 - 1) / (npr * npc))%Z
        by (apply Z.div_pos; lia).
      lia. }
    lia.
  - rewrite (main_empty_range get_matrix args npr npc Hr Hc [] ltac:(lia)).
    split; [reflexivity | intros Hrange; lia].
Qed.

(** [--token-width 80 --token-height 100 --end-index 13]: six meshes. *)
Lemma command_line_run_witness :
  fst (main one_module_matrix (parse_args six_per_plate_command_line) []) = Ok tt /\
  Z.of_nat (List.length
              (exports (snd (main one_module_matrix
                               (parse_args six_per_plate_command_line) []))))
  = (2 * plate_count 13 6)%Z.
Proof.
  assert (Hne : forall data, one_module_matrix data <> []) by (intros data; discriminate).
  assert (Hw : 0 < token_width (parse_args six_per_plate_command_line) <= 253)
    by (cbn; lra).
  assert (Hh : 0 < token_height (parse_args six_per_plate_command_line) <= 253)
    by (cbn; lra).
  assert (Hb : - inject_Z (10 ^ 15) <= qr_border (parse_args six_per_plate_command_line)
               <= inject_Z (10 ^ 15))
    by (split; vm_compute; discriminate).
  destruct (command_line_run one_module_matrix six_per_plate_command_line Hne Hw Hh)
    as (npr & npc & Hr & Hc & _ & _ & Hrun).
  destruct (Hrun Hb) as [Hok Hcount].
  split; [exact Hok|].
  assert (Er : npr = 3%Z) by (vm_compute in Hr; congruence).
  assert (Ec : npc = 2%Z) by (vm_compute in Hc; congruence).
  subst npr npc. apply Hcount. cbn. lia.
Defined.

(** X15.  From the command line a token at least as wide as the plate
    (254) gives zero tokens per row, and one at least as tall gives zero
    tokens per column; when the other count is computed the capacity is
    zero, and over a non-empty index range the run stops on
    [ZeroDivisionError] when it handles the first tag, after it has
    cleared and created the output directory, and saves nothing. *)
Theorem oversized_token_run (get_matrix : string -> list (list bool)) (cl : CommandLine)
    (tr : list event) :
  let args := parse_args cl in
  (254 <= token_width args ->
   num_per_row args = Ok 0%Z /\
   forall npc,
     num_per_column args = Ok npc -> (start_index args <= end_index args)%Z ->
     main get_matrix args tr =
       (Raise ZeroDivisionError,
        tr ++ [Unlink_glob (output_dir args) "*"; Mkdir (output_dir args);
               Set_global_fn 100])) /\
  (254 <= token_height args ->
   num_per_column args = Ok 0%Z /\
   forall npr,
     num_per_row args = Ok npr -> (start_index args <= end_index args)%Z ->
     main get_matrix args tr =
       (Raise ZeroDivisionError,
        tr ++ [Unlink_glob (output_dir args) "*"; Mkdir (output_dir args);
               Set_global_fn 100])).
Proof.
  intros args. split; intros Hbig.
  - pose proof (count_zero (token_width args) Hbig) as Hr.
    change (num_per_row args = Ok 0%Z) in Hr.
    split; [exact Hr|]. intros npc Hc Hrange.
    apply (main_zero_capacity get_matrix args 0 npc tr Hr Hc); [lia | exact Hrange].
  - pose proof (count_zero (token_height args) Hbig) as Hc.
    change (num_per_column args = Ok 0%Z) in Hc.
    split; [exact Hc|]. intros npr Hr Hrange.
    apply (main_zero_capacity get_matrix args npr 0 tr Hr Hc); [lia | exact Hrange].
Qed.

(** [--token-width 300 --end-index 5]. *)
Lemma oversized_token_run_witness :
  main one_module_matrix (parse_args wide_token_command_line) [] =
  (Raise ZeroDivisionError, [Unlink_glob "output" "*"; Mkdir "output"; Set_global_fn 100]).
Proof.
  destruct (oversized_token_run one_module_matrix wide_token_command_line []) as [H _].
  assert (Hbig : 254 <= token_width (parse_args wide_token_command_line)) by (cbn; lra).
  destruct (H Hbig) as [_ Hrun].
  apply (Hrun 4%Z).
  - vm_compute. reflexivity.
  - cbn. lia.
Defined.

(** ** save_models *)

Lemma uint_string_plain (c : Ascii.ascii) (d : Decimal.uint) :
  c = "_"%char \/ c = "."%char ->
  has_char c (NilEmpty.string_of_uint d) = false.
Proof.
  intros Hc. induction d as [|d IH|d IH|d IH|d IH|d IH|d IH|d IH|d IH|d IH|d IH];
    cbn [NilEmpty.string_of_uint has_char]; try reflexivity;
    destruct Hc as [-> | ->]; cbn; exact IH.
Qed.

(** The decimal form of an integer has no underscore and no dot. *)
Lemma py_str_plain (c : Ascii.ascii) (i : Z) :
  c = "_"%char \/ c = "."%char -> has_char c (py_str i) = false.
Proof.
  intros Hc. unfold py_str.
  assert (U : forall d, has_char c (NilZero.string_of_uint d) = false).
  { intros d. destruct d; try (now apply (uint_string_plain c _ Hc)).
    destruct Hc as [-> | ->]; reflexivity. }
  destruct (Z.to_int i) as [d|d]; cbn [NilZero.string_of_int has_char].
  - apply U.
  - rewrite U. destruct Hc as [-> | ->]; reflexivity.
Qed.

Lemma plain_suffixes_differ (s t : string) :
  has_char "_" s = false -> has_char "." t = false ->
  String.append s ".stl" <> String.append t "_colored.stl".
Proof.
  revert t. induction s as [|a s IH]; intros [|b t] Hs Ht H; cbn in H.
  - discriminate.
  - injection H as Hb _. subst b. cbn in Ht. discriminate.
  - injection H as Ha _. subst a. cbn in Hs. discriminate.
  - injection H as Hab H. subst b.
    cbn [has_char] in Hs, Ht.
    destruct (Ascii.eqb a "_"); [discriminate|].
    destruct (Ascii.eqb a "."); [discriminate|].
    now apply (IH t).
Qed.

(** X16.  [save_models] returns after exactly two saves: the body with
    the overlay carved out, as [keychain_<index>.stl], then the overlay,
    as [keychain_<index>_colored.stl].  The two paths differ, calls with
    different indices never share a path, and no path is one of the plate
    files [main] writes. *)
Theorem save_models_files (body colored : solid) (index : Z) (dir : string)
    (tr : list event) :
  save_models body colored index dir tr =
    (Ok tt,
     tr ++ [Save_as_stl (path_join dir (keychain_file index)) (sub body colored);
            Save_as_stl (path_join dir (keychain_colored_file index)) colored]) /\
  (forall j, path_join dir (keychain_file index) <> path_join dir (keychain_colored_file j)) /\
  (forall j, path_join dir (keychain_file index) = path_join dir (keychain_file j)
             -> index = j) /\
  (forall j, path_join dir (keychain_colored_file index)
             = path_join dir (keychain_colored_file j) -> index = j) /\
  (forall k,
     path_join dir (keychain_file index) <> path_join dir (body_file k) /\
     path_join dir (keychain_file index) <> path_join dir (colored_file k) /\
     path_join dir (keychain_colored_file index) <> path_join dir (body_file k) /\
     path_join dir (keychain_colored_file index) <> path_join dir (colored_file k)).
Proof.
  split; [|split; [|split; [|split]]].
  - unfold save_models, io_bind, emit. now rewrite <- app_assoc.
  - intros j H. unfold path_join, keychain_file, keychain_colored_file in H.
    do 3 apply append_cancel_l in H.
    apply (plain_suffixes_differ (py_str index) (py_str j)); try assumption;
      apply py_str_plain; [now left | now right].
  - intros j H. unfold path_join, keychain_file in H.
    do 3 apply append_cancel_l in H. apply append_cancel_r in H.
    now apply py_str_injective.
  - intros j H. unfold path_join, keychain_colored_file in H.
    do 3 apply append_cancel_l in H. apply append_cancel_r in H.
    now apply py_str_injective.
  - intros k. unfold path_join, keychain_file, keychain_colored_file, body_file, colored_file.
    repeat split; intros H; do 2 apply append_cancel_l in H; cbn in H; discriminate.
Qed.

(** ** The modules of the relief *)

(** X17.  For a positive pixel size, the cubes of two different cells of
    the relief meet at most in a face: a point of both lies on one of the
    four side faces of the first. *)
Theorem modules_meet_in_faces
    (glyphs : string -> Q -> string -> string -> string -> Q -> Q -> Prop)
    (pixel_size depth : Q) (x y x' y' : Z) (px py pz : Q) :
  0 < pixel_size -> (x, y) <> (x', y') ->
  denote glyphs (qr_pixel pixel_size depth x y) (px, py, pz) ->
  denote glyphs (qr_pixel pixel_size depth x' y') (px, py, pz) ->
  px == inject_Z x * pixel_size \/ px == inject_Z x * pixel_size + pixel_size \/
  py == inject_Z y * pixel_size \/ py == inject_Z y * pixel_size + pixel_size.
Proof.
  intros Hps Hne H H'. cbn in H, H'.
  assert (Next : forall a b : Z, (a < b)%Z -> inject_Z a + 1 <= inject_Z b)
    by (intros a b Hab; change 1 with (inject_Z 1);
        rewrite <- inject_Z_plus, <- Zle_Qle; lia).
  destruct (Z.lt_total x x') as [L|[E|L]].
  - right; left. pose proof (Next x x' L). apply Qle_antisym; nra.
  - destruct (Z.lt_total y y') as [L'|[E'|L']].
    + right; right; right. pose proof (Next y y' L'). apply Qle_antisym; nra.
    + exfalso. apply Hne. now subst.
    + right; right; left. pose proof (Next y' y L'). apply Qle_antisym; nra.
  - left. pose proof (Next x' x L). apply Qle_antisym; nra.
Qed.

(** The cubes of the cells (0, 0) and (1, 0), two wide: the point
    (2, 1, 0) of both is on the face [x = 2] of the first. *)
Lemma modules_meet_in_faces_witness :
  2 == inject_Z 0 * 2 \/ 2 == inject_Z 0 * 2 + 2 \/
  1 == inject_Z 0 * 2 \/ 1 == inject_Z 0 * 2 + 2.
Proof.
  apply (modules_meet_in_faces square_glyphs 2 1 0 0 1 0 2 1 0).
  - reflexivity.
  - discriminate.
  - cbn. change (inject_Z 0) with 0. lra.
  - cbn. change (inject_Z 1) with 1. change (inject_Z 0) with 0. lra.
Defined.

(** ** The fillet radius *)

(** X18.  The option [--token-fillet-radius] is parsed and stored but
    never read: two argument sets that differ only in
    [token_fillet_radius] give the same run, trace and result. *)
Theorem fillet_radius_ignored (get_matrix : string -> list (list bool)) (a b : Args) :
  same_except_fillet_radius a b ->
  forall tr, main get_matrix a tr = main get_matrix b tr.
Proof.
  intros H tr. destruct a, b. unfold same_except_fillet_radius in H. cbn in H.
  decompose [and] H. subst. reflexivity.
Qed.

Lemma fillet_radius_ignored_witness :
  main one_module_matrix (parse_args no_options) []
  = main one_module_matrix (parse_args fillet_command_line) [].
Proof.
  apply (fillet_radius_ignored one_module_matrix (parse_args no_options)
           (parse_args fillet_command_line)).
  repeat split; reflexivity.
Defined.
